(** * plotstyle: the field-resolution engine, embedded and checked

    A shallow embedding of [plotstyle_interface.py], [plotstyle_validators.py]
    and [plotstyle.py]: field normalisation, value fetching, the validator
    registry, the recursive document merge [_dump_to_dict], keep/delete
    inference, localisation, affix composition, [PlotStyle.__init__], the
    merge of a list of files, [PSTemplate], [load_plotstyle] and
    [compose_savefig_options].

    Python objects become the inductive [value]; mappings keep their insertion
    order, so they are association lists with string keys; the sets of the
    parse context are [gset string] and [field_props], which is only looked up
    and scanned, is a [gmap]; raised exceptions are the [Raise] branch of
    [result], and mutation of the parse context is explicit state passing that
    survives a raise, as it does in Python.

    Outside the embedding: mapping keys that are not str; characters above
    code point 255 (a str is a string of code points below 256); the contents
    of exception messages; what the [warnings] module does with a warning
    once [warnings.warn] is called (the log records the calls); the style that
    [PSTemplate.expand] constructs when the language it read is not a str
    ([expand] is embedded up to that call); [settitle_and_savefig], which only
    drives matplotlib. *)

From Stdlib Require Import ZArith Ascii String.
From stdpp Require Import base list gmap strings.

Open Scope Z_scope.
Set Warnings "-register-all".

(** ** Exceptions and results *)

Inductive exn : Type :=
| TypeError
| ValueError
| KeyError
| IndexError
| AttributeError
| OverflowError
| RecursionError
| OSError
| FileNotFoundError
| YAMLError
| InvalidSourceType
| SourceFieldMissing
| UnkownValidator
| ParseError (key : string) (cause : exn).

Inductive result (A : Type) : Type :=
| Ok (a : A)
| Raise (e : exn).
Arguments Ok {A} a.
Arguments Raise {A} e.

Definition is_ok {A} (r : result A) : bool :=
  match r with Ok _ => true | Raise _ => false end.

Definition rbind {A B} (r : result A) (k : A -> result B) : result B :=
  match r with Ok a => k a | Raise e => Raise e end.

(** ** Python values *)

Inductive FieldIntent : Type := IMPLICIT | EXPLICIT.

(** A Python float is carried as its binary64 bit pattern; every operation on
    floats is delegated to the platform (see [Externals]). *)
Inductive pyfloat : Type := Float64 (bits : Z).

Inductive value : Type :=
| VNone
| VBool (b : bool)
| VInt (z : Z)
| VFloat (f : pyfloat)
| VStr (s : string)
| VList (items : list value)
| VTuple (items : list value)
| VDict (entries : list (string * value))
| VTagged (payload : value) (intent : FieldIntent).   (* _TaggedValue *)

Abbreviation dict := (list (string * value)).

(** [hash(v)] succeeds: lists and dicts are unhashable, a tuple is hashable
    when its items are, a [_TaggedValue] hashes by identity. *)
Fixpoint hashable (v : value) : bool :=
  match v with
  | VList _ | VDict _ => false
  | VTuple items => forallb hashable items
  | _ => true
  end.

Definition is_str (v : value) (s : string) : bool :=
  match v with VStr s' => String.eqb s' s | _ => false end.

Definition is_dict (v : value) : bool :=
  match v with VDict _ => true | _ => false end.

(** ** Insertion-ordered mappings with string keys *)

Section Alist.
Context {A : Type}.
Implicit Types (d e : list (string * A)) (k : string) (v : A).

Fixpoint dict_get k d : option A :=
  match d with
  | [] => None
  | (k', v') :: rest => if String.eqb k k' then Some v' else dict_get k rest
  end.

Definition dict_mem k d : bool :=
  match dict_get k d with Some _ => true | None => false end.

Fixpoint dict_replace k v d : list (string * A) :=
  match d with
  | [] => []
  | (k', v') :: rest =>
      (k', if String.eqb k k' then v else v') :: dict_replace k v rest
  end.

(** [d[k] = v]: overwrite in place when the key exists, append otherwise. *)
Definition dict_set k v d : list (string * A) :=
  if dict_mem k d then dict_replace k v d else d ++ [(k, v)].

(** [d.setdefault(k, v)] *)
Definition dict_setdefault k v d : list (string * A) :=
  if dict_mem k d then d else d ++ [(k, v)].

(** [d.update(e)]; also [d | e], which updates a copy of [d]. *)
Definition dict_update d e : list (string * A) :=
  fold_left (fun acc kv => dict_set kv.1 kv.2 acc) e d.

(** [d.pop(k, None)] and [del d[k]] (the latter when the key is present). *)
Fixpoint dict_remove k d : list (string * A) :=
  match d with
  | [] => []
  | (k', v') :: rest =>
      if String.eqb k k' then dict_remove k rest else (k', v') :: dict_remove k rest
  end.

Definition dict_keys d : list string := map fst d.
End Alist.

Definition dict_or (a b : dict) : dict := dict_update a b.

(** [obj[name]] for a string subscript: only a dict supports it. *)
Definition py_getitem (obj : value) (name : string) : result value :=
  match obj with
  | VDict d => match dict_get name d with Some v => Ok v | None => Raise KeyError end
  | _ => Raise TypeError
  end.

Definition dict_getitem (d : dict) (name : string) : result value :=
  match dict_get name d with Some v => Ok v | None => Raise KeyError end.

(** [d[k]] for an arbitrary subscript [k]: hashing comes first, then only a
    string can equal one of the (string) keys. *)
Definition dict_getitem_value (d : dict) (k : value) : result value :=
  if hashable k then
    match k with
    | VStr s => dict_getitem d s
    | _ => Raise KeyError
    end
  else Raise TypeError.

(** ** String helpers

    A character of a [string] stands for the code point of its number: a
    [string] is a Python str over the code points below 256, and the methods
    of str that consult the Unicode tables are given as they act on those
    code points. *)

Definition ascii_lt32 (c : ascii) : bool := (nat_of_ascii c <? 32)%nat.

(** [c.isspace()], the characters that [strip()] removes: TAB to CR, FS to US,
    the space, NEL (133) and the no-break space (160). *)
Definition ascii_isspace (c : ascii) : bool :=
  let n := nat_of_ascii c in
  ((9 <=? n) && (n <=? 13) || (28 <=? n) && (n <=? 32)
   || (n =? 133) || (n =? 160))%nat.

(** The part of [upper()] that the reserved-name test of [segment_ok] can
    see. [upper()] takes a letter outside ASCII to letters outside ASCII,
    except the sharp s (223), which becomes SS; no reserved name has an S or
    a letter outside ASCII, so a stem holding such a character is not in
    [_RESERVED_NAMES] either way. *)
Definition ascii_upper (c : ascii) : ascii :=
  let n := nat_of_ascii c in
  if ((97 <=? n) && (n <=? 122))%nat then ascii_of_nat (n - 32) else c.

Fixpoint str_forall (p : ascii -> bool) (s : string) : bool :=
  match s with
  | EmptyString => true
  | String c rest => p c && str_forall p rest
  end.

Definition str_exists (p : ascii -> bool) (s : string) : bool :=
  negb (str_forall (fun c => negb (p c)) s).

Fixpoint str_map (f : ascii -> ascii) (s : string) : string :=
  match s with
  | EmptyString => EmptyString
  | String c rest => String (f c) (str_map f rest)
  end.

Fixpoint str_last (s : string) : option ascii :=
  match s with
  | EmptyString => None
  | String c EmptyString => Some c
  | String _ rest => str_last rest
  end.

(** [s.split(sep)] for a one-character separator. *)
Fixpoint str_split (sep : ascii) (s : string) : list string :=
  match s with
  | EmptyString => [EmptyString]
  | String c rest =>
      if Ascii.eqb c sep then EmptyString :: str_split sep rest
      else match str_split sep rest with
           | [] => [String c EmptyString]
           | seg :: segs => String c seg :: segs
           end
  end.

(** [not s.strip()] *)
Definition str_blank (s : string) : bool := str_forall ascii_isspace s.

Definition str_in (s : string) (l : list string) : bool :=
  existsb (String.eqb s) l.

(** ** What the platform and the third-party packages provide

    [os], [yaml], [matplotlib], the [parse] package and the builtins that
    convert or evaluate text are not part of the repository: they are taken as
    given functions, fixed for one run (documents are side-effect free). *)
Record Externals : Type := {
  (* os and os.path *)
  os_sep : ascii;
  os_path_normpath : string -> string;
  os_path_splitdrive : string -> string * string;
  os_path_basename : string -> string;
  os_path_isabs : string -> bool;
  os_path_isfile : string -> bool;
  os_path_splitext : string -> string * string;
  os_makedirs : string -> result unit;
  (* the os.walk search of _resolve_yaml_path: normpath(join(root, basename))
     for the first directory under the folder that lists the base name *)
  os_walk_find : string -> string -> option string;
  (* open(path) followed by yaml.safe_load *)
  yaml_safe_load : string -> result value;
  (* matplotlib *)
  supported_filetypes : list string;
  is_color_like : value -> bool;
  findfont_ok : value -> bool;
  (* builtins float(), int() and float arithmetic *)
  float_of_str : string -> option pyfloat;
  float_of_int : Z -> result pyfloat;
  int_of_str : string -> option Z;
  int_of_float : pyfloat -> result Z;
  float_cmp0 : pyfloat -> option comparison;      (* None for NaN *)
  float_add : pyfloat -> pyfloat -> pyfloat;
  (* FigsizeValidator's text checks (ast.parse, float) and eval *)
  check_lambda_str : string -> bool;
  check_numeric_tuple_from_str : string -> bool;
  py_eval : string -> result value;
  (* parse.parse(AFFIX_KEY_FORMAT, key) *)
  parse_affix_key : string -> option (string * string);
  (* how many nested _dump_to_dict frames the interpreter allows *)
  recursion_limit : nat
}.

(** ** The parse context and the warning log *)

Inductive warning : Type :=
| IgnoreField (key : string) (error : exn)              (* IGNORE_FIELD_MSG *)
| LooksExplicit (key : string) (suspicious : list string).

Record _ParseContext : Type := mkParseContext {
  explicitly_kept : gset string;
  explicitly_deleted : gset string;
  marked_for_delete : gset string;
  field_props : gmap string dict;
  affix : dict;
  file_stack : list value
}.

(** [_ParseContext()] *)
Definition new_ParseContext : _ParseContext :=
  mkParseContext ∅ ∅ ∅ ∅ [] [].

(** The state a resolution runs in: the context object it was given and the
    warnings issued so far through [warnings.warn]. *)
Record world : Type := mkWorld {
  ctx : _ParseContext;
  warned : list warning
}.

Definition new_world : world := mkWorld new_ParseContext [].

Definition with_ctx (f : _ParseContext -> _ParseContext) (w : world) : world :=
  mkWorld (f (ctx w)) (warned w).

Definition set_explicitly_kept (s : gset string) (c : _ParseContext) :=
  mkParseContext s (explicitly_deleted c) (marked_for_delete c) (field_props c) (affix c) (file_stack c).
Definition set_explicitly_deleted (s : gset string) (c : _ParseContext) :=
  mkParseContext (explicitly_kept c) s (marked_for_delete c) (field_props c) (affix c) (file_stack c).
Definition set_marked_for_delete (s : gset string) (c : _ParseContext) :=
  mkParseContext (explicitly_kept c) (explicitly_deleted c) s (field_props c) (affix c) (file_stack c).
Definition set_field_props (m : gmap string dict) (c : _ParseContext) :=
  mkParseContext (explicitly_kept c) (explicitly_deleted c) (marked_for_delete c) m (affix c) (file_stack c).
Definition set_affix (a : dict) (c : _ParseContext) :=
  mkParseContext (explicitly_kept c) (explicitly_deleted c) (marked_for_delete c) (field_props c) a (file_stack c).
Definition set_file_stack (l : list value) (c : _ParseContext) :=
  mkParseContext (explicitly_kept c) (explicitly_deleted c) (marked_for_delete c) (field_props c) (affix c) l.

(** ** Stateful, fallible computations

    [M S A]: run from a state, end with a value or a raised exception, and in
    both cases with the state as mutated so far. *)
Definition M (S A : Type) : Type := S -> result A * S.

Definition ret {S A} (a : A) : M S A := fun s => (Ok a, s).
Definition raise {S A} (e : exn) : M S A := fun s => (Raise e, s).
Definition bind {S A B} (m : M S A) (k : A -> M S B) : M S B :=
  fun s => match m s with
           | (Ok a, s') => k a s'
           | (Raise e, s') => (Raise e, s')
           end.
(** [try: m  except Exception as e: h e] *)
Definition try_except {S A} (m : M S A) (h : exn -> M S A) : M S A :=
  fun s => match m s with
           | (Ok a, s') => (Ok a, s')
           | (Raise e, s') => h e s'
           end.
Definition lift {S A} (r : result A) : M S A := fun s => (r, s).
Definition gets {S A} (f : S -> A) : M S A := fun s => (Ok (f s), s).
Definition modify {S} (f : S -> S) : M S unit := fun s => (Ok tt, f s).

Declare Scope py_scope.
Delimit Scope py_scope with py.
Notation "x <- m ;; k" := (bind m (fun x => k))
  (at level 100, m at next level, right associativity) : py_scope.
Notation "m ;; k" := (bind m (fun _ => k))
  (at level 100, right associativity) : py_scope.
Open Scope py_scope.

(** [for x in l: body x], leaving the loop at the first raise. *)
Fixpoint for_each {S A} (l : list A) (body : A -> M S unit) : M S unit :=
  match l with
  | [] => ret tt
  | x :: rest => body x ;; for_each rest body
  end.

(** A loop whose body may [return False]; falling off the end gives [True]. *)
Fixpoint for_all {S A} (l : list A) (body : A -> M S bool) : M S bool :=
  match l with
  | [] => ret true
  | x :: rest => b <- body x ;; if b then for_all rest body else ret false
  end.

Definition warn (wn : warning) : M world unit :=
  modify (fun w => mkWorld (ctx w) (warned w ++ [wn])).

(** ** The schema constants of plotstyle_interface.py *)

Module PropKeys.
Definition VALUE : string := "value".
Definition VALIDATOR : string := "validator".
Definition SOURCE : string := "source".
Module SOURCE_OPTIONS.
Definition VALUE_FROM_LITERAL : string := "literal".
Definition VALUE_FROM_FIELD : string := "field".
End SOURCE_OPTIONS.
Definition KEEP : string := "keep".
Definition SUFFIX : string := "suffix".
Definition PREFIX : string := "prefix".
Module LANGUAGE_OPTIONS.
Definition ENGLISH : string := "en".
Definition DEFAULT : string := ENGLISH.
End LANGUAGE_OPTIONS.
Definition CONFIGS : string := "configs".
End PropKeys.

Definition DEFAULT_CONFIGS_FOLDER : string := "plotstyle_configs".
Definition PROP_STRING_VALIDATION_YAML : string := "yaml".
Definition PROP_STRING_VALIDATION_UNDETERMINED : string := "undetermined".

Module PropSchema.
Import PropKeys.

(** INTENT_DEFAULTS: the same two defaults for both intents. *)
Definition INTENT_DEFAULTS (_ : FieldIntent) : dict :=
  [(VALIDATOR, VStr PROP_STRING_VALIDATION_UNDETERMINED);
   (SOURCE, VStr SOURCE_OPTIONS.VALUE_FROM_LITERAL)].

Definition REQUIRED_EXPLICIT_PROPS : list string := [SOURCE; VALUE].

Definition looks_explicit (mapping : dict) : bool :=
  existsb (fun k => dict_mem k mapping) REQUIRED_EXPLICIT_PROPS.

Definition AFFIX_KEYS : list string := [PREFIX; SUFFIX].
Definition iter_affixes : list string := AFFIX_KEYS.

(** AFFIX_KEY_FORMAT.format(key=key, affix=affix) *)
Definition format_key (key affix : string) : string :=
  key +:+ "__" +:+ affix +:+ "__".

Definition _KEEP_DEFAULT_CLASS_LEVEL : bool := true.
Definition default_keep : bool := _KEEP_DEFAULT_CLASS_LEVEL.

(** SOURCE_DEFAULT_KEEP.get(source, _KEEP_DEFAULT_CLASS_LEVEL); [source] is
    whatever [prop.get(SOURCE)] gave, None included. *)
Definition default_keep_for_source (source : value) : result bool :=
  if hashable source then
    Ok (if is_str source SOURCE_OPTIONS.VALUE_FROM_LITERAL then true
        else if is_str source SOURCE_OPTIONS.VALUE_FROM_FIELD then false
        else _KEEP_DEFAULT_CLASS_LEVEL)
  else Raise TypeError.
End PropSchema.

(** * plotstyle_validators.py *)

Section Engine.
Variable ext : Externals.

(** ** Builtins used by the validators *)

(** [bool(v)] *)
Definition truthy (v : value) : bool :=
  match v with
  | VNone => false
  | VBool b => b
  | VInt z => negb (z =? 0)
  | VFloat f => match float_cmp0 ext f with Some Eq => false | _ => true end
  | VStr s => negb (String.eqb s "")
  | VList items | VTuple items => match items with [] => false | _ => true end
  | VDict entries => match entries with [] => false | _ => true end
  | VTagged _ _ => true
  end.

(** [isinstance(v, (int, float))]; [bool] is a subclass of [int]. *)
Definition is_number (v : value) : bool :=
  match v with VBool _ | VInt _ | VFloat _ => true | _ => false end.

Definition is_float (v : value) : bool :=
  match v with VFloat _ => true | _ => false end.

(** [v > 0], [v >= 0] and [v <= 0] for a number. *)
Definition num_gt0 (v : value) : bool :=
  match v with
  | VBool b => b
  | VInt z => 0 <? z
  | VFloat f => match float_cmp0 ext f with Some Gt => true | _ => false end
  | _ => false
  end.
Definition num_ge0 (v : value) : bool :=
  match v with
  | VBool _ => true
  | VInt z => 0 <=? z
  | VFloat f => match float_cmp0 ext f with Some Gt | Some Eq => true | _ => false end
  | _ => false
  end.
Definition num_le0 (v : value) : bool :=
  match v with
  | VBool b => negb b
  | VInt z => z <=? 0
  | VFloat f => match float_cmp0 ext f with Some Lt | Some Eq => true | _ => false end
  | _ => false
  end.

(** [float(v)] and [int(v)] *)
Definition py_float (v : value) : result pyfloat :=
  match v with
  | VBool b => float_of_int ext (if b then 1 else 0)
  | VInt z => float_of_int ext z
  | VFloat f => Ok f
  | VStr s => match float_of_str ext s with Some f => Ok f | None => Raise ValueError end
  | _ => Raise TypeError
  end.
Definition py_int (v : value) : result Z :=
  match v with
  | VBool b => Ok (if b then 1 else 0)
  | VInt z => Ok z
  | VFloat f => int_of_float ext f
  | VStr s => match int_of_str ext s with Some z => Ok z | None => Raise ValueError end
  | _ => Raise TypeError
  end.

(** ** The validator interface *)

(** [context.get(CONTEXT_FIELD_PARSER_FUNC)]: absent, or the callback that
    re-enters the engine on a nested handle. *)
Definition field_parser : Type := value -> M world dict.

Record Validator : Type := mkValidator {
  validate : value -> option field_parser -> M world bool;
  parse : value -> option field_parser -> M world value;
  sanitize : value -> option field_parser -> M world value
}.

(** The shape shared by most validators: [parse] raises [ValueError] unless
    [validate] holds and otherwise hands the value back. *)
Definition parse_if_valid (validate : value -> option field_parser -> M world bool)
    (v : value) (fp : option field_parser) : M world value :=
  ok <- validate v None ;; if ok then ret v else raise ValueError.
Definition sanitize_or (validate : value -> option field_parser -> M world bool)
    (default : value) (v : value) (fp : option field_parser) : M world value :=
  ok <- validate v None ;; if ok then ret v else ret default.

(** *** pathstr *)
Definition _RESERVED_NAMES : list string :=
  ["CON"; "PRN"; "AUX"; "NUL";
   "COM1"; "COM2"; "COM3"; "COM4"; "COM5"; "COM6"; "COM7"; "COM8"; "COM9";
   "LPT1"; "LPT2"; "LPT3"; "LPT4"; "LPT5"; "LPT6"; "LPT7"; "LPT8"; "LPT9"].

Definition forbidden_chars : list ascii :=
  ["<"; ">"; ":"; "034"; "/"; "\"; "|"; "?"; "*"]%char.

Definition segment_ok (seg : string) : bool :=
  if String.eqb seg "" then true
  else if str_in seg ["."; ".."] then true
  else
    let stem := match str_split "."%char (str_map ascii_upper seg) with
                | s :: _ => s
                | [] => ""
                end in
    negb (str_in stem _RESERVED_NAMES)
    && negb (str_exists (fun c => existsb (Ascii.eqb c) forbidden_chars) seg)
    && negb (str_exists ascii_lt32 seg)
    && negb (match str_last seg with
             | Some c => Ascii.eqb c " "%char || Ascii.eqb c "."%char
             | None => false
             end).

Definition pathstr_ok (v : value) : bool :=
  match v with
  | VStr s =>
      if str_blank s then false
      else
        let norm := os_path_normpath ext s in
        let tail := (os_path_splitdrive ext norm).2 in
        forallb segment_ok (str_split (os_sep ext) tail)
  | _ => false
  end.

Definition PathstrValidator : Validator :=
  let validate := fun v (_ : option field_parser) => ret (pathstr_ok v) in
  mkValidator validate (parse_if_valid validate) (sanitize_or validate (VBool false)).

(** *** filename *)
Definition FilenameValidator : Validator :=
  let validate := fun v fp => validate PathstrValidator v None in
  mkValidator validate (parse_if_valid validate) (sanitize_or validate (VStr "")).

(** *** yaml *)
Definition YamlValidator_validate (v : value) (_ : option field_parser) : M world bool :=
  ok <- validate PathstrValidator v None ;;
  if negb ok then ret false
  else match v with
       | VStr path =>
           if negb (os_path_isfile ext path) then ret false
           else match yaml_safe_load ext path with
                | Ok _ => ret true
                | Raise YAMLError => ret false
                | Raise e => raise e
                end
       | _ => ret false
       end.
Definition YamlValidator : Validator :=
  mkValidator YamlValidator_validate
    (fun v fp =>
       ok <- YamlValidator_validate v None ;;
       if ok then
         match v with
         | VStr path => ret (VStr (os_path_normpath ext path))
         | _ => raise TypeError
         end
       else raise ValueError)
    (sanitize_or YamlValidator_validate (VStr "")).

(** *** fileformat: [value in <dict of supported file types>] *)
Definition FileformatValidator_validate (v : value) (_ : option field_parser) : M world bool :=
  if hashable v then
    ret (match v with VStr s => str_in s (supported_filetypes ext) | _ => false end)
  else raise TypeError.
Definition FileformatValidator : Validator :=
  mkValidator FileformatValidator_validate
    (parse_if_valid FileformatValidator_validate)
    (sanitize_or FileformatValidator_validate VNone).

(** *** str *)
Definition StrValidator : Validator :=
  let validate := fun v (_ : option field_parser) =>
    ret (match v with
         | VDict entries =>
             forallb (fun kv => match kv.2 with VStr _ => true | _ => false end) entries
         | VStr _ => true
         | _ => false
         end) in
  mkValidator validate (parse_if_valid validate) (sanitize_or validate (VStr "")).

(** *** bool *)
Definition BoolValidator : Validator :=
  let validate := fun v (_ : option field_parser) =>
    ret (match v with VBool _ => true | _ => false end) in
  mkValidator validate (parse_if_valid validate) (sanitize_or validate (VBool false)).

(** *** color *)
Definition ColorValidator : Validator :=
  let validate := fun v (_ : option field_parser) => ret (is_color_like ext v) in
  mkValidator validate (parse_if_valid validate) (sanitize_or validate VNone).

(** *** float and int: [try: float(value) ... except (TypeError, ValueError)] *)
Definition converts {A} (conv : value -> result A) (v : value) : M world bool :=
  match v with
  | VBool _ => ret false
  | _ => match conv v with
         | Ok _ => ret true
         | Raise TypeError | Raise ValueError => ret false
         | Raise e => raise e
         end
  end.

Definition FloatValidator : Validator :=
  let validate := fun v (_ : option field_parser) => converts py_float v in
  mkValidator validate
    (fun v fp =>
       ok <- validate v None ;;
       if ok then (f <- lift (py_float v) ;; ret (VFloat f)) else raise ValueError)
    (fun v fp =>
       ok <- validate v None ;;
       if ok then (f <- lift (py_float v) ;; ret (VFloat f))
       else ret (VFloat (Float64 0))).                    (* 0.0 *)

(** Registered under "int"; the source names this class FloatValidator too. *)
Definition IntValidator : Validator :=
  let validate := fun v (_ : option field_parser) => converts py_int v in
  mkValidator validate
    (fun v fp =>
       ok <- validate v None ;;
       if ok then (z <- lift (py_int v) ;; ret (VInt z)) else raise ValueError)
    (fun v fp =>
       ok <- validate v None ;;
       if ok then (z <- lift (py_int v) ;; ret (VInt z)) else ret (VInt 0)).

(** *** undetermined *)
Definition UndeterminedValidator : Validator :=
  mkValidator (fun _ _ => ret true) (fun v _ => ret v) (fun v _ => ret v).

(** *** fontfamily *)
Definition FontfamilyValidator : Validator :=
  let validate := fun v (_ : option field_parser) => ret (findfont_ok ext v) in
  mkValidator validate (parse_if_valid validate) (sanitize_or validate VNone).

(** *** fontsize and linewidth *)
Definition fontsize_names : list string :=
  ["xx-small"; "x-small"; "small"; "medium"; "large"; "x-large"; "xx-large"].

Definition FontsizeValidator : Validator :=
  let validate := fun v (_ : option field_parser) =>
    ret (if is_number v then num_gt0 v
         else match v with
              | VStr s => str_in s fontsize_names
              | VNone => true
              | _ => false
              end) in
  mkValidator validate (parse_if_valid validate) (sanitize_or validate VNone).

Definition LinewidthValidator : Validator :=
  let validate := fun v (_ : option field_parser) =>
    ret (if is_number v then num_ge0 v
         else match v with VNone => true | _ => false end) in
  mkValidator validate (parse_if_valid validate) (sanitize_or validate VNone).

(** *** dict: every entry is a nested field, parsed through the callback *)
Fixpoint fold_m {S A B} (l : list A) (acc : B) (body : B -> A -> M S B) : M S B :=
  match l with
  | [] => ret acc
  | x :: rest => acc' <- body acc x ;; fold_m rest acc' body
  end.

Definition DictValidator_validate (v : value) (fp : option field_parser) : M world bool :=
  match v, fp with
  | VDict entries, Some field_parser =>
      try_except
        (for_each entries (fun kv => _ <- field_parser (VDict [kv]) ;; ret tt) ;;
         ret true)
        (fun _ => ret false)
  | _, _ => ret false
  end.

Definition parse_entries (field_parser : field_parser) (entries : dict) : M world dict :=
  fold_m entries [] (fun parsed kv =>
    sub_parsed <- field_parser (VDict [kv]) ;;
    x <- lift (dict_getitem sub_parsed kv.1) ;;
    ret (dict_set kv.1 x parsed)).

Definition DictValidator_parse (v : value) (fp : option field_parser) : M world value :=
  ok <- DictValidator_validate v fp ;;
  if negb ok then raise ValueError
  else match v, fp with
       | VDict entries, Some field_parser =>
           parsed <- parse_entries field_parser entries ;; ret (VDict parsed)
       | _, _ => raise ValueError
       end.

Definition DictValidator : Validator :=
  mkValidator DictValidator_validate DictValidator_parse
    (fun v fp =>
       match v, fp with
       | VDict _, Some _ => try_except (DictValidator_parse v fp) (fun _ => ret (VDict []))
       | _, _ => ret (VDict [])
       end).

(** *** figsize *)
Definition _check_literal_tuple (v : value) : bool :=
  match v with
  | VTuple [a; b] => forallb (fun dim => is_number dim && negb (num_le0 dim)) [a; b]
  | _ => false
  end.

Definition FigsizeValidator_validate (v : value) (_ : option field_parser) : M world bool :=
  ret (match v with
       | VStr s => check_lambda_str ext s || check_numeric_tuple_from_str ext s
       | _ => _check_literal_tuple v
       end).

(** [eval(value, {"__builtins__": {}}, {})]: only text can be evaluated. *)
Definition _safe_eval (v : value) : result value :=
  match v with
  | VStr s => py_eval ext s
  | _ => Raise TypeError
  end.

Definition FigsizeValidator : Validator :=
  mkValidator FigsizeValidator_validate
    (fun v fp =>
       ok <- FigsizeValidator_validate v None ;;
       if negb ok then raise ValueError
       else match v with
            | VStr _ => lift (_safe_eval v)
            | VTuple _ => ret v
            | _ => ret VNone
            end)
    (fun v fp =>
       ok <- FigsizeValidator_validate v None ;;
       if negb ok then ret VNone else lift (_safe_eval v)).

(** *** gridoptions: a list of mappings of nested fields *)
Definition GridoptionsValidator_validate (v : value) (fp : option field_parser) : M world bool :=
  match v, fp with
  | VList items, Some field_parser =>
      for_all items (fun item =>
        match item with
        | VDict entries =>
            try_except
              (for_all entries (fun kv =>
                 if is_dict kv.2 then (_ <- field_parser (VDict [kv]) ;; ret true)
                 else ret false))
              (fun _ => ret false)
        | _ => ret false
        end)
  | _, _ => ret false
  end.

Definition GridoptionsValidator_parse (v : value) (fp : option field_parser) : M world value :=
  ok <- GridoptionsValidator_validate v fp ;;
  if negb ok then raise ValueError
  else match v, fp with
       | VList items, Some field_parser =>
           parsed_list <- fold_m items [] (fun parsed_list item =>
             match item with
             | VDict entries =>
                 parsed_dict <- parse_entries field_parser entries ;;
                 ret (parsed_list ++ [VDict parsed_dict])
             | _ => raise AttributeError
             end) ;;
           ret (VList parsed_list)
       | _, _ => raise KeyError
       end.

Definition GridoptionsValidator : Validator :=
  mkValidator GridoptionsValidator_validate GridoptionsValidator_parse
    (fun v fp =>
       ok <- GridoptionsValidator_validate v fp ;;
       if negb ok then ret (VList []) else ret v).

(** *** plotoptions: the whole mapping goes through the callback at once *)
Definition PlotoptionsValidator_validate (v : value) (fp : option field_parser) : M world bool :=
  match v, fp with
  | VDict _, Some field_parser =>
      try_except (_ <- field_parser v ;; ret true) (fun _ => ret false)
  | _, _ => ret false
  end.

Definition PlotoptionsValidator_parse (v : value) (fp : option field_parser) : M world value :=
  match fp with
  | Some field_parser => parsed <- field_parser v ;; ret (VDict parsed)
  | None => raise ValueError
  end.

Definition PlotoptionsValidator : Validator :=
  mkValidator PlotoptionsValidator_validate PlotoptionsValidator_parse
    (fun v fp =>
       ok <- PlotoptionsValidator_validate v fp ;;
       if negb ok then ret (VDict []) else PlotoptionsValidator_parse v fp).

(** *** The registry, in registration order *)
Definition VALIDATORS : list (string * Validator) :=
  [("pathstr", PathstrValidator);
   ("filename", FilenameValidator);
   (PROP_STRING_VALIDATION_YAML, YamlValidator);
   ("fileformat", FileformatValidator);
   ("str", StrValidator);
   ("bool", BoolValidator);
   ("color", ColorValidator);
   ("float", FloatValidator);
   ("int", IntValidator);
   (PROP_STRING_VALIDATION_UNDETERMINED, UndeterminedValidator);
   ("fontfamily", FontfamilyValidator);
   ("fontsize", FontsizeValidator);
   ("linewidth", LinewidthValidator);
   ("dict", DictValidator);
   ("figsize", FigsizeValidator);
   ("gridoptions", GridoptionsValidator);
   ("plotoptions", PlotoptionsValidator)].

(** [VALIDATORS.get(name)] for an arbitrary [name]. *)
Definition VALIDATORS_get (name : value) : result (option Validator) :=
  if hashable name then
    Ok (match name with VStr s => dict_get s VALIDATORS | _ => None end)
  else Raise TypeError.

(** * plotstyle_interface.py *)

Import PropKeys.

Definition _as_implicit (v : value) : dict :=
  (VALUE, v) :: PropSchema.INTENT_DEFAULTS IMPLICIT.

Definition with_defaults (defaults : dict) (prop : dict) : dict :=
  fold_left (fun acc kv => dict_setdefault kv.1 kv.2 acc) defaults prop.

(** The canonical descriptor of a raw field entry. The only failure is an
    entry tagged explicit whose payload is not a mapping with a "value". *)
Definition normalize_prop (key : string) (raw_prop : value) : M world dict :=
  match raw_prop with
  | VTagged payload IMPLICIT => ret (_as_implicit payload)
  | VTagged payload EXPLICIT =>
      match payload with
      | VDict entries =>
          if dict_mem VALUE entries
          then ret (with_defaults (PropSchema.INTENT_DEFAULTS EXPLICIT) entries)
          else raise ValueError
      | _ => raise ValueError
      end
  | VDict entries =>
      if dict_mem VALUE entries then
        ret (dict_setdefault SOURCE (VStr SOURCE_OPTIONS.VALUE_FROM_LITERAL)
               (dict_setdefault VALIDATOR (VStr PROP_STRING_VALIDATION_UNDETERMINED)
                  entries))
      else
        (if PropSchema.looks_explicit entries
         then warn (LooksExplicit key
                      (filter (fun k => dict_mem k entries)
                              PropSchema.REQUIRED_EXPLICIT_PROPS))
         else ret tt) ;;
        ret (_as_implicit raw_prop)
  | _ => ret (_as_implicit raw_prop)
  end.

(** [fetch_value]: the pair (name the value was read under, raw value). *)
Definition fetch_value (key : string) (prop : value) (dump_to read_from : dict)
    : result (value * value) :=
  match prop with
  | VDict entries =>
      match dict_get SOURCE entries with
      | None => Raise SourceFieldMissing
      | Some source =>
          if is_str source SOURCE_OPTIONS.VALUE_FROM_LITERAL then
            rbind (dict_getitem entries VALUE) (fun v => Ok (VStr key, v))
          else if is_str source SOURCE_OPTIONS.VALUE_FROM_FIELD then
            rbind (dict_getitem entries VALUE) (fun referenced =>
            rbind (dict_getitem_value (dict_or dump_to read_from) referenced) (fun v =>
            Ok (referenced, v)))
          else Raise InvalidSourceType
      end
  | _ => Raise AttributeError
  end.

(** [parse_prop]; [dumper h r] stands for [dumper(h, dump_to={}, read_from=r)]. *)
Definition parse_prop (key : string) (prop : value)
    (dumper : value -> dict -> M world dict) (dump_to read_from : dict)
    : M world value :=
  try_except
    (name <- lift (py_getitem prop VALIDATOR) ;;
     found <- lift (VALIDATORS_get name) ;;
     match found with
     | None => raise UnkownValidator
     | Some validator =>
         fetched <- lift (fetch_value key prop dump_to read_from) ;;
         parse validator fetched.2
           (Some (fun nested_handle => dumper nested_handle dump_to))
     end)
    (fun e =>
       _ <- lift (py_getitem prop VALIDATOR) ;;
       raise (ParseError key e)).

(** [apply_localization]'s inner [resolve] *)
Fixpoint resolve (language : string) (v : value) : value :=
  match v with
  | VDict entries =>
      match dict_get language entries with
      | Some selected => selected
      | None => VDict (map (fun kv => (kv.1, resolve language kv.2)) entries)
      end
  | VList items => VList (map (resolve language) items)
  | _ => v
  end.

Definition apply_localization (params_dict affix_dict : dict) (language : string)
    : dict * dict :=
  (map (fun kv => (kv.1, resolve language kv.2)) params_dict,
   map (fun kv => (kv.1, resolve language kv.2)) affix_dict).

Definition is_empty_dict (v : value) : bool :=
  match v with VDict [] => true | _ => false end.

Definition register_affixable (key : string) (prop : dict)
    (dumper : value -> dict -> M world dict) (dump_to read_from : dict)
    : M world unit :=
  for_each PropSchema.iter_affixes (fun affix_type =>
    try_except
      (match dict_get affix_type prop with
       | Some sub_prop =>
           if negb (is_empty_dict sub_prop) then
             let new_key := PropSchema.format_key key affix_type in
             parsed <- parse_prop key sub_prop dumper dump_to read_from ;;
             modify (with_ctx (fun c => set_affix (dict_set new_key parsed (affix c)) c))
           else ret tt
       | None => ret tt
       end)
      (fun e => warn (IgnoreField (key +:+ "." +:+ affix_type) e))).

(** [a + b] *)
Definition py_add (a b : value) : result value :=
  match a, b with
  | VStr x, VStr y => Ok (VStr (x +:+ y))
  | VList x, VList y => Ok (VList (x ++ y))
  | VTuple x, VTuple y => Ok (VTuple (x ++ y))
  | _, _ =>
      if is_number a && is_number b then
        if is_float a || is_float b then
          rbind (py_float a) (fun x => rbind (py_float b) (fun y =>
          Ok (VFloat (float_add ext x y))))
        else
          rbind (py_int a) (fun x => rbind (py_int b) (fun y => Ok (VInt (x + y))))
      else Raise TypeError
  end.

(** [PropSchema.unpack_affix_key] *)
Definition unpack_affix_key (key : string) : result (string * string) :=
  match parse_affix_key ext key with
  | Some r => Ok r
  | None => Raise ValueError
  end.

Definition apply_affix (params_dict : dict) (entry : string * value) : result dict :=
  rbind (unpack_affix_key entry.1) (fun ka =>
    let key := ka.1 in
    let affix := ka.2 in
    if String.eqb affix SUFFIX then
      rbind (dict_getitem params_dict key) (fun old =>
      rbind (py_add old entry.2) (fun new => Ok (dict_set key new params_dict)))
    else if String.eqb affix PREFIX then
      rbind (dict_getitem params_dict key) (fun old =>
      rbind (py_add entry.2 old) (fun new => Ok (dict_set key new params_dict)))
    else Raise ValueError).

Fixpoint apply_affixes (params_dict : dict) (affix_dict : dict) : result dict :=
  match affix_dict with
  | [] => Ok params_dict
  | entry :: rest =>
      rbind (apply_affix params_dict entry) (fun params_dict' =>
      apply_affixes params_dict' rest)
  end.

Definition ignore_configs (handle : dict) : dict := dict_remove CONFIGS handle.

(** * plotstyle.py *)

(** ** Helper functions *)

Definition _load_yaml (path : string) : result dict :=
  match yaml_safe_load ext path with
  | Raise e => Raise e
  | Ok data =>
      match (if truthy data then data else VDict []) with
      | VDict entries => Ok entries
      | _ => Raise TypeError
      end
  end.

Definition _resolve_yaml_path (filename : value) (configs_folder : string)
    : result string :=
  match filename with
  | VStr name =>
      let basename := os_path_basename ext name in
      rbind
        (if negb (os_path_isabs ext name) then
           rbind (os_makedirs ext configs_folder) (fun _ =>
           match os_walk_find ext configs_folder basename with
           | Some found => Ok found
           | None => Raise FileNotFoundError
           end)
         else Ok name)
        (fun filename =>
           if negb (os_path_isfile ext filename) then Raise FileNotFoundError
           else if negb (String.eqb (os_path_splitext ext filename).2 ".yaml")
                then Raise ValueError
                else Ok filename)
  | _ => Raise TypeError
  end.

(** [dict(v)]. Mappings of the model have str keys; a pair sequence whose
    first components are not str is outside it and is rejected here. *)
Definition pair_of (item : value) : result (string * value) :=
  let keyed (k x : value) : result (string * value) :=
    if hashable k then
      match k with VStr s => Ok (s, x) | _ => Raise TypeError end
    else Raise TypeError in
  match item with
  | VList [k; x] | VTuple [k; x] => keyed k x
  | VList _ | VTuple _ => Raise ValueError
  | VStr (String a (String b EmptyString)) =>
      Ok (String a EmptyString, VStr (String b EmptyString))
  | VStr _ => Raise ValueError
  | VDict [(k1, _); (k2, _)] => Ok (k1, VStr k2)
  | VDict _ => Raise ValueError
  | _ => Raise TypeError
  end.

Fixpoint dict_of_pairs (items : list value) (acc : dict) : result dict :=
  match items with
  | [] => Ok acc
  | item :: rest =>
      rbind (pair_of item) (fun kv => dict_of_pairs rest (dict_set kv.1 kv.2 acc))
  end.

Definition py_dict (v : value) : result dict :=
  match v with
  | VDict entries => Ok entries
  | VList items | VTuple items => dict_of_pairs items []
  | VStr s => dict_of_pairs (map (fun c => VStr (String c EmptyString)) (list_ascii_of_string s)) []
  | _ => Raise TypeError
  end.

(** ** The recursive merge

    One call of [_dump_to_dict] works on a frame: the [dump_to] object it
    mutates, next to the world. [read_from] is either that same object
    ([None]: every call of the source that passes [read_from=dump_to]) or a
    distinct mapping that the call never touches ([Some r]: the nested calls
    made through a validator's callback). *)
Definition frame : Type := dict * world.

Definition in_world {A} (m : M world A) : M frame A :=
  fun s => let (r, w') := m s.2 in (r, (s.1, w')).

(** Run on a fresh, empty [dump_to]; the object is dropped afterwards. *)
Definition fresh_target {A} (m : M frame A) : M world A :=
  fun w => let (r, s') := m ([], w) in (r, s'.2).

Definition the_read_from (read_from : option dict) : M frame dict :=
  match read_from with
  | Some r => ret r
  | None => gets fst
  end.

Definition file_stack_append (path : value) : M world unit :=
  modify (with_ctx (fun c => set_file_stack (file_stack c ++ [path]) c)).

Definition file_stack_pop : M world unit :=
  c <- gets ctx ;;
  match file_stack c with
  | [] => raise IndexError
  | _ => modify (with_ctx (set_file_stack (removelast (file_stack c))))
  end.

(** Lines 65-73: the body of the chain-include [try]. *)
Definition chain_include (dumper : value -> option dict -> M frame dict)
    (configs_folder : string) (key : string) (prop : dict)
    (read_from : option dict) : M frame unit :=
  dump_to <- gets fst ;;
  read <- the_read_from read_from ;;
  fetched <- lift (fetch_value key (VDict prop) dump_to read) ;;
  let paths := match fetched.2 with VList items => items | v => [v] end in
  for_each paths (fun path =>
    in_world (file_stack_append path) ;;
    resolved <- lift (_resolve_yaml_path path configs_folder) ;;
    normed <- in_world (parse YamlValidator (VStr resolved) None) ;;
    included <- lift (match normed with
                      | VStr p => _load_yaml p
                      | _ => Raise TypeError
                      end) ;;
    (* the callee is handed this very [dump_to] and returns it, so the
       [dump_to.update(...)] around the call changes nothing *)
    _ <- dumper (VDict included) None ;;
    in_world file_stack_pop).

(** Lines 85-95: an explicit [keep] that the bool validator accepts. *)
Definition record_keep (key : string) (prop : dict) : M world unit :=
  match dict_get KEEP prop with
  | None => ret tt
  | Some keep_val =>
      try_except
        (ok <- validate BoolValidator keep_val None ;;
         if ok then
           parsed_keep <- parse BoolValidator keep_val None ;;
           if truthy parsed_keep
           then modify (with_ctx (fun c => set_explicitly_kept ({[key]} ∪ explicitly_kept c) c))
           else modify (with_ctx (fun c => set_explicitly_deleted ({[key]} ∪ explicitly_deleted c) c))
         else ret tt)
        (fun _ => ret tt)
  end.

(** Lines 61-95: one round of the loop over the handle's items. *)
Definition dump_field (dumper : value -> option dict -> M frame dict)
    (configs_folder : string) (read_from : option dict)
    (entry : string * value) : M frame unit :=
  let key := entry.1 in
  prop <- in_world (normalize_prop key entry.2) ;;
  in_world (modify (with_ctx (fun c => set_field_props (<[key := prop]> (field_props c)) c))) ;;
  validator <- lift (dict_getitem prop VALIDATOR) ;;
  if is_str validator PROP_STRING_VALIDATION_YAML then
    done <- try_except
              (chain_include dumper configs_folder key prop read_from ;; ret true)
              (fun e => in_world (warn (IgnoreField key e)) ;; ret false) ;;
    if done : bool then in_world (record_keep key prop) else ret tt
  else
    done <- try_except
              (dump_to <- gets fst ;;
               read <- the_read_from read_from ;;
               parsed_value <- in_world
                 (parse_prop key (VDict prop)
                    (fun h r => fresh_target (dumper h (Some r))) dump_to read) ;;
               modify (fun s : frame => (dict_set key parsed_value s.1, s.2)) ;;
               ret true)
              (fun e => in_world (warn (IgnoreField key e)) ;; ret false) ;;
    if done : bool then
      dump_to <- gets fst ;;
      read <- the_read_from read_from ;;
      in_world (register_affixable key prop
                  (fun h r => fresh_target (dumper h (Some r))) dump_to read) ;;
      in_world (record_keep key prop)
    else ret tt.

(** [_dump_to_dict]; [fuel] is the number of nested frames still allowed, and
    running out of it is Python's RecursionError. *)
Fixpoint _dump_to_dict (fuel : nat) (configs_folder : string)
    (local_handle : value) (read_from : option dict) : M frame dict :=
  match fuel with
  | O => raise RecursionError
  | S fuel' =>
      handle <- lift (py_dict local_handle) ;;
      for_each (ignore_configs handle)
        (dump_field (_dump_to_dict fuel' configs_folder) configs_folder read_from) ;;
      gets fst
  end.

(** [_yaml_parse_from_dict] as every caller uses it: [dump_to] and
    [read_from] left at None, so both are one new mapping. *)
Definition _yaml_parse_from_dict (handle : dict) (configs_folder : string)
    : M world dict :=
  fresh_target (_dump_to_dict (recursion_limit ext) configs_folder (VDict handle) None).

Definition _yaml_parse_single_file (entry_file : value) (configs_folder : string)
    : M world dict :=
  entry_file <- lift (_resolve_yaml_path entry_file configs_folder) ;;
  handle <- lift (_load_yaml entry_file) ;;
  _yaml_parse_from_dict handle configs_folder.

(** ** Keep/delete inference *)

(** Lines 124-127: the values of the descriptors whose source is "field". *)
Definition add_referenced (referenced : list value) (item : string * dict)
    : result (list value) :=
  match dict_get SOURCE item.2 with
  | Some source =>
      if is_str source SOURCE_OPTIONS.VALUE_FROM_FIELD then
        let target := default VNone (dict_get VALUE item.2) in
        if hashable target then Ok (referenced ++ [target]) else Raise TypeError
      else Ok referenced
  | None => Ok referenced
  end.

Fixpoint fold_result {A B} (f : B -> A -> result B) (l : list A) (acc : B) : result B :=
  match l with
  | [] => Ok acc
  | x :: rest => rbind (f acc x) (fold_result f rest)
  end.

(** Lines 129-136, one referenced target. A target that is not a str is no key
    of [field_props]; line 132 would add it only if [default_keep()] were false. *)
Definition infer_mark (props : gmap string dict) (marked : gset string)
    (field : value) : result (gset string) :=
  match field with
  | VStr name =>
      match props !! name with
      | None =>
          Ok (if negb PropSchema.default_keep then {[name]} ∪ marked else marked)
      | Some prop =>
          let source := default VNone (dict_get SOURCE prop) in
          rbind (PropSchema.default_keep_for_source source) (fun inferred_keep =>
          Ok (if negb inferred_keep then {[name]} ∪ marked else marked))
      end
  | _ => Ok marked
  end.

Definition _resolve_marked_for_delete : M world unit :=
  c <- gets ctx ;;
  referenced <- lift (fold_result add_referenced (map_to_list (field_props c)) []) ;;
  marked <- lift (fold_result (infer_mark (field_props c)) referenced ∅) ;;
  let marked := (marked ∪ explicitly_deleted c) ∖ explicitly_kept c in
  modify (with_ctx (set_marked_for_delete marked)).

(** ** class PlotStyle *)

Record Options : Type := mkOptions {
  language : string;
  configs_folder : value;
  base_folder : value;
  keep_all_fields : bool
}.

Definition default_options : Options :=
  mkOptions LANGUAGE_OPTIONS.DEFAULT (VStr DEFAULT_CONFIGS_FOLDER) VNone
            PropSchema.default_keep.

Definition folder_name (v : value) : string :=
  match v with VStr s => s | _ => "" end.

(** [yaml_dict] and [yaml_file] are [VNone] when the argument is left out. *)
Definition PlotStyle_input_validate (yaml_dict yaml_file : value) (opts : Options)
    : M world unit :=
  ok <- validate PathstrValidator (configs_folder opts) None ;;
  if negb ok then raise TypeError
  else
    ok <- (if truthy (base_folder opts)
           then validate PathstrValidator (base_folder opts) None
           else ret true) ;;
    if negb ok then raise ValueError
    else
      match yaml_dict, yaml_file with
      | VNone, VNone => ret tt
      | VNone, _ =>
          resolved <- lift (_resolve_yaml_path yaml_file (folder_name (configs_folder opts))) ;;
          ok <- validate YamlValidator (VStr resolved) None ;;
          if negb ok then raise ValueError else ret tt
      | _, _ => if is_dict yaml_dict then ret tt else raise TypeError
      end.

(** [for key in ctx.marked_for_delete: self.__params__.pop(key, None)] *)
Definition PlotStyle_delete_marked_fields (params : dict) (c : _ParseContext) : dict :=
  filter (fun kv => bool_decide (kv.1 ∉ marked_for_delete c)) params.

(** Lines 264-272: where [self.__params__] comes from; [None] when neither
    [yaml_dict] nor [yaml_file] is given and the attribute is never set. *)
Definition PlotStyle_load_params (yaml_dict yaml_file : value) (opts : Options)
    : M world (option dict) :=
  let folder := folder_name (configs_folder opts) in
  match yaml_dict, yaml_file with
  | VNone, VNone => ret None
  | VNone, _ =>
      file_stack_append yaml_file ;;
      entry <- (match yaml_file with
                | VStr name =>
                    if negb (os_path_isabs ext name)
                    then r <- lift (_resolve_yaml_path yaml_file folder) ;; ret (VStr r)
                    else ret yaml_file
                | _ => raise TypeError
                end) ;;
      p <- _yaml_parse_single_file entry folder ;; ret (Some p)
  | _, _ =>
      handle <- lift (py_dict yaml_dict) ;;
      p <- _yaml_parse_from_dict handle folder ;; ret (Some p)
  end.

(** Lines 274-278: inference, localisation, affixes, deletion. *)
Definition PlotStyle_finish (opts : Options) (params : option dict) : M world dict :=
  _resolve_marked_for_delete ;;
  match params with
  | None => raise AttributeError              (* self.__params__ was never set *)
  | Some params =>
      c <- gets ctx ;;
      let localized := apply_localization params (affix c) (language opts) in
      modify (with_ctx (set_affix localized.2)) ;;
      params <- lift (apply_affixes localized.1 localized.2) ;;
      if negb (keep_all_fields opts)
      then
        (* line 278: self._delete_marked_fields() is called without the ctx
           argument that the method requires; the call itself raises *)
        raise TypeError
      else ret params
  end.

(** Line 280, one item: [setattr(self, key, value)] on an instance of a class
    that defines no data descriptor of its own. Those it inherits are
    "__class__", which takes a class (no value of a document is one),
    "__dict__", which takes a dict, and "__weakref__", which cannot be
    written; under every other name the value is stored. *)
Definition PlotStyle_setattr (entry : string * value) : result unit :=
  if String.eqb entry.1 "__class__" then Raise TypeError
  else if String.eqb entry.1 "__dict__" then
    (if is_dict entry.2 then Ok tt else Raise TypeError)
  else if String.eqb entry.1 "__weakref__" then Raise AttributeError
  else Ok tt.

(** Line 280: the items of [self.__params__] in their order, up to the first
    that cannot be set. *)
Definition PlotStyle_set_attributes (params : dict) : result unit :=
  fold_result (fun _ entry => PlotStyle_setattr entry) params tt.

(** [PlotStyle.__init__], run in the world of the context object it is given.
    Line 260 builds the default [ctx] once, when the class is defined: every
    construction that leaves [ctx] out runs in the world the previous such
    construction left behind. The result is the mapping of lines 276-278,
    whose items line 280 makes the attributes of the object. *)
Definition PlotStyle_init (yaml_dict yaml_file : value) (opts : Options)
    : M world dict :=
  PlotStyle_input_validate yaml_dict yaml_file opts ;;
  params <- PlotStyle_load_params yaml_dict yaml_file opts ;;
  params <- PlotStyle_finish opts params ;;
  lift (PlotStyle_set_attributes params) ;;
  ret params.

End Engine.

(** * plotstyle.py: lists of files, templates and the entry point *)

Import PropKeys.

Definition YAML : string := "yaml".              (* PropKeys.YAML *)
Definition LANGUAGE : string := "language".      (* PropKeys.LANGUAGE *)

(** [pop_configs]: [handle[CONFIGS]], a KeyError when the key is missing. *)
Definition pop_configs (handle : dict) : result value := dict_getitem handle CONFIGS.

(** [c.lower()]: A to Z, and the capital letters of the Latin-1 block (192
    to 222 without the multiplication sign, 215). *)
Definition ascii_lower (c : ascii) : ascii :=
  let n := nat_of_ascii c in
  if ((65 <=? n) && (n <=? 90)
      || (192 <=? n) && (n <=? 222) && negb (n =? 215))%nat
  then ascii_of_nat (n + 32)
  else c.

(** [s.lstrip(c)] for a one-character set. *)
Fixpoint str_lstrip (c : ascii) (s : string) : string :=
  match s with
  | EmptyString => EmptyString
  | String c' rest => if Ascii.eqb c' c then str_lstrip c rest else s
  end.

(** [self._ps_kwargs] as [load_plotstyle] fills it; [configs_folder] has
    passed [_input_validate] by then, so it is a str. *)
Record TemplateKwargs : Type := mkTemplateKwargs {
  kw_language : value;
  kw_configs_folder : string;
  kw_base_folder : value;
  kw_keep_all_fields : bool
}.

Record PSTemplate : Type := mkPSTemplate {
  base_yaml : dict;
  configs : list dict;
  _ps_kwargs : TemplateKwargs
}.

(** One entry of [payloads]: the context and the merged mapping of a
    configuration. *)
Definition payload : Type := _ParseContext * dict.

(** The construction that line 198 asks for: the virtual document, the
    context of the payload, the language read from the document and the
    forwarded keyword arguments, from which "language" was dropped. *)
Record PlotStyleCall : Type := mkPlotStyleCall {
  call_yaml_dict : dict;
  call_ctx : _ParseContext;
  call_language : value;
  call_configs_folder : string;
  call_base_folder : value;
  call_keep_all_fields : bool
}.

(** What [load_plotstyle] returns: None (it falls off its end), a template,
    or a style, given by its [__params__]. *)
Inductive loaded : Type :=
| LoadedNone
| LoadedTemplate (t : PSTemplate)
| LoadedStyle (params : dict).

Section Template.
Variable ext : Externals.

(** [_yaml_parse_from_dict] as [_yaml_parse_list] calls it: [dump_to] and
    [read_from] are both the mapping merged so far, which the call mutates
    and returns. *)
Definition _yaml_parse_from_dict_into (handle : dict) (configs_folder : string)
    (merged : dict) : M world dict :=
  fun w =>
    let (r, s') :=
      _dump_to_dict ext (recursion_limit ext) configs_folder (VDict handle) None
        (merged, w) in
    (r, s'.2).

Definition _yaml_parse_list (entry_list : value) (configs_folder : string)
    : M world dict :=
  match entry_list with
  | VList files =>
      fold_m files [] (fun merged file =>
        entry_file <- lift (_resolve_yaml_path ext file configs_folder) ;;
        handle <- lift (_load_yaml ext entry_file) ;;
        _yaml_parse_from_dict_into handle configs_folder merged)
  | _ => raise TypeError
  end.

(** ** class PSTemplate *)

Definition as_dict (v : value) : dict :=
  match v with VDict entries => entries | _ => [] end.

(** [PSTemplate.__init__]: a single mapping is wrapped in a list; afterwards
    every configuration and the base document are mappings. *)
Definition PSTemplate_init (base_yaml configs : value) (ps_kwargs : TemplateKwargs)
    : result PSTemplate :=
  rbind (match configs with
         | VList items => Ok items
         | VDict _ => Ok [configs]
         | _ => Raise TypeError
         end) (fun configs =>
  if negb (forallb is_dict configs) then Raise TypeError
  else match base_yaml with
       | VDict base => Ok (mkPSTemplate base (map as_dict configs) ps_kwargs)
       | _ => Raise TypeError
       end).

(** Line 161: the configuration with every entry normalised. *)
Definition normalize_config (cfg : dict) : M world dict :=
  fold_m cfg [] (fun cfg_norm kv =>
    prop <- normalize_prop kv.1 kv.2 ;;
    ret (dict_set kv.1 (VDict prop) cfg_norm)).

(** Lines 161-187 for one configuration, in the world of its new context:
    the entry "yaml" is a list of files to merge, every other entry is kept
    as its normalised descriptor. *)
Definition expand_config (t : PSTemplate) (cfg : dict) : M world dict :=
  cfg_norm <- normalize_config cfg ;;
  fold_m cfg_norm [] (fun merged kp =>
    if String.eqb kp.1 YAML then
      fetched <- lift (fetch_value YAML kp.2 [] (base_yaml t)) ;;
      let files := match fetched.2 with VList _ => fetched.2 | v => VList [v] end in
      parsed <- _yaml_parse_list files (kw_configs_folder (_ps_kwargs t)) ;;
      ret (dict_update merged parsed)
    else ret (dict_set kp.1 kp.2 merged)).

(** Lines 159-189: what the generator does before its first item. Every
    configuration gets a context of its own; the warning log is the one of
    the process. *)
Definition expand_payloads (t : PSTemplate) : M (list warning) (list payload) :=
  fold_m (configs t) [] (fun payloads cfg => fun log =>
    match expand_config t cfg (mkWorld new_ParseContext log) with
    | (Ok merged, w) => (Ok (payloads ++ [(ctx w, merged)]), warned w)
    | (Raise e, w) => (Raise e, warned w)
    end).

(** Lines 191-193: the configuration first, the base document over it. *)
Definition virtual_yaml_dict (t : PSTemplate) (p : payload) : dict :=
  dict_update (dict_update [] p.2) (base_yaml t).

(** Lines 191-198 up to the call of [PlotStyle]. *)
Definition expand_call (t : PSTemplate) (p : payload) : result PlotStyleCall :=
  let virtual := virtual_yaml_dict t p in
  rbind (match dict_get LANGUAGE virtual with
         | Some prop => rbind (fetch_value LANGUAGE prop [] []) (fun fetched => Ok fetched.2)
         | None => Ok (VStr LANGUAGE_OPTIONS.DEFAULT)
         end) (fun language =>
  Ok (mkPlotStyleCall virtual p.1 language
        (kw_configs_folder (_ps_kwargs t)) (kw_base_folder (_ps_kwargs t))
        (kw_keep_all_fields (_ps_kwargs t)))).

(** The call itself, for a language that is a str: [PlotStyle.__init__] in
    the context of the payload. *)
Definition PlotStyle_of_call (c : PlotStyleCall) (lang : string)
    : M (list warning) dict :=
  fun log =>
    let (r, w) :=
      PlotStyle_init ext (VDict (call_yaml_dict c)) VNone
        (mkOptions lang (VStr (call_configs_folder c)) (call_base_folder c)
           (call_keep_all_fields c))
        (mkWorld (call_ctx c) log) in
    (r, warned w).

(** ** Entry point *)

Definition template_kwargs (opts : Options) : TemplateKwargs :=
  mkTemplateKwargs (VStr (language opts)) (folder_name (configs_folder opts))
    (base_folder opts) (keep_all_fields opts).

(** [load_plotstyle]; [yaml_dict] and [file] are [VNone] when left out. The
    style of line 215 is built with the default context of [PlotStyle]. *)
Definition load_plotstyle (yaml_dict file : value) (opts : Options) : M world loaded :=
  PlotStyle_input_validate ext yaml_dict file opts ;;
  match file with
  | VNone => ret LoadedNone
  | _ =>
      path <- lift (_resolve_yaml_path ext file (folder_name (configs_folder opts))) ;;
      document <- lift (_load_yaml ext path) ;;
      configs <- lift (pop_configs document) ;;
      match configs with
      | VNone =>
          params <- PlotStyle_init ext (VDict (ignore_configs document)) VNone opts ;;
          ret (LoadedStyle params)
      | _ =>
          t <- lift (PSTemplate_init (VDict (ignore_configs document)) configs
                       (template_kwargs opts)) ;;
          ret (LoadedTemplate t)
      end
  end.

(** ** Static helpers of PlotStyle *)

(** [compose_savefig_options] for a file name that is a str. *)
Definition compose_savefig_options (fname format : string) (kwargs : dict) : dict :=
  let extension := (os_path_splitext ext fname).2 in
  let format := if negb (String.eqb extension "") then extension else format in
  let format := str_map ascii_lower (str_lstrip "." format) in
  let fname := fname +:+ "." +:+ format in
  dict_update [("fname", VStr fname); ("format", VStr format)] kwargs.

End Template.

(** * A concrete machine for the worked examples

    POSIX paths, a documents root given as a table from base file name to the
    loaded YAML tree, and the [parse] package's reading of the affix key
    format. Numbers in text, colours, fonts and [eval] are not exercised by
    the examples and answer "no". *)

(** [parse("{key}__{affix}__", s)]: the shortest non-empty [key] such that the
    rest is "__", a non-empty [affix], and a final "__". *)
Fixpoint affix_of (s : string) : option string :=
  match s with
  | EmptyString => None
  | String c rest =>
      if String.eqb rest "__" then Some (String c EmptyString)
      else match affix_of rest with
           | Some a => Some (String c a)
           | None => None
           end
  end.

Fixpoint parse_affix_format (key : string) (rest : string) : option (string * string) :=
  match rest with
  | EmptyString => None
  | String c rest' =>
      let here :=
        if String.eqb key "" then None
        else match rest with
             | String "_" (String "_" tail) => affix_of tail
             | _ => None
             end in
      match here with
      | Some a => Some (key, a)
      | None => parse_affix_format (key +:+ String c EmptyString) rest'
      end
  end.

Fixpoint str_ends_with (suffix s : string) : bool :=
  String.eqb s suffix
  || match s with
     | EmptyString => false
     | String _ rest => str_ends_with suffix rest
     end.

Definition machine (files : list (string * value)) : Externals := {|
  os_sep := "/";
  os_path_normpath := fun p => p;
  os_path_splitdrive := fun p => ("", p);
  os_path_basename := fun p => default "" (last (str_split "/" p));
  os_path_isabs := fun p => match p with String "/" _ => true | _ => false end;
  os_path_isfile := fun p => dict_mem p files;
  os_path_splitext := fun p =>
    if str_ends_with ".yaml" p && negb (String.eqb p ".yaml") then (p, ".yaml") else (p, "");
  os_makedirs := fun _ => Ok tt;
  os_walk_find := fun _ base => if dict_mem base files then Some base else None;
  yaml_safe_load := fun p =>
    match dict_get p files with Some data => Ok data | None => Raise FileNotFoundError end;
  supported_filetypes :=
    ["eps"; "jpg"; "jpeg"; "pdf"; "pgf"; "png"; "ps"; "raw"; "rgba"; "svg"; "svgz";
     "tif"; "tiff"; "webp"];
  is_color_like := fun _ => false;
  findfont_ok := fun _ => false;
  float_of_str := fun _ => None;
  float_of_int := fun _ => Raise OverflowError;
  int_of_str := fun _ => None;
  int_of_float := fun _ => Raise OverflowError;
  float_cmp0 := fun _ => None;
  float_add := fun x _ => x;
  check_lambda_str := fun _ => false;
  check_numeric_tuple_from_str := fun _ => false;
  py_eval := fun _ => Raise ValueError;
  parse_affix_key := parse_affix_format "";
  recursion_limit := 100
|}.

(** * Notions used in the statements *)

Import PropKeys.

(** Some recorded descriptor takes its value from the field [target]. *)
Definition referenced_as_field_source (props : gmap string dict) (target : string) : Prop :=
  ∃ key prop,
    props !! key = Some prop
    ∧ dict_get SOURCE prop = Some (VStr SOURCE_OPTIONS.VALUE_FROM_FIELD)
    ∧ dict_get VALUE prop = Some (VStr target).

(** The descriptor recorded for [name] itself has source "field". *)
Definition own_source_is_field (props : gmap string dict) (name : string) : Prop :=
  ∃ prop,
    props !! name = Some prop
    ∧ dict_get SOURCE prop = Some (VStr SOURCE_OPTIONS.VALUE_FROM_FIELD).

(** Neither a mapping nor a list. *)
Definition is_scalar (v : value) : bool :=
  match v with VDict _ | VList _ => false | _ => true end.

Definition localize (language : string) (d : dict) : dict :=
  map (fun kv => (kv.1, resolve language kv.2)) d.

(** [normalize_prop] accepts the entry: it is not tagged explicit, or its
    payload is a mapping with a "value". *)
Definition normalizes (raw_prop : value) : bool :=
  match raw_prop with
  | VTagged payload EXPLICIT =>
      match payload with
      | VDict entries => dict_mem VALUE entries
      | _ => false
      end
  | _ => true
  end.

(** From every state the computation ends without raising, with a value
    that satisfies [P]. *)
Definition returns_with {S A} (P : A → Prop) (m : M S A) : Prop :=
  ∀ s, ∃ a s', m s = (Ok a, s') ∧ P a.

Definition returns {S A} (m : M S A) : Prop := returns_with (fun _ => True) m.

(** The state in which line 63 onwards runs: the descriptor is recorded. *)
Definition record_prop (key : string) (prop : dict) (w : world) : world :=
  with_ctx (fun c => set_field_props (<[key := prop]> (field_props c)) c) w.

Definition add_warning (wn : warning) (w : world) : world :=
  mkWorld (ctx w) (warned w ++ [wn]).

(** ** Running in a context that already holds entries

    [merge u d] lays the context [d] over an older context [u]: sets are
    united, descriptors and affixes of [d] overwrite those of [u], the file
    stack and the warnings of [d] come after those of [u]. A computation is
    local at a state when running it with an older context underneath gives
    the same result and the same new context, laid over the old one; it also
    keeps the affix registry free of duplicate keys. *)
Definition merge_ctx (u d : _ParseContext) : _ParseContext :=
  mkParseContext
    (explicitly_kept u ∪ explicitly_kept d)
    (explicitly_deleted u ∪ explicitly_deleted d)
    (marked_for_delete u)
    (field_props d ∪ field_props u)
    (dict_update (affix u) (affix d))
    (file_stack u ++ file_stack d).

Definition merge (u d : world) : world :=
  mkWorld (merge_ctx (ctx u) (ctx d)) (warned u ++ warned d).

Definition merge_frame (u : world) (s : frame) : frame := (s.1, merge u s.2).

Definition affix_wf (w : world) : Prop := NoDup (dict_keys (affix (ctx w))).

Definition local_at {S A} (act : world → S → S) (good : S → Prop) (s : S) (m : M S A)
    : Prop :=
  (good s → good (m s).2) ∧ ∀ u, m (act u s) = ((m s).1, act u (m s).2).

Abbreviation wlocal := (local_at merge affix_wf).
Abbreviation flocal := (local_at merge_frame (fun s : frame => affix_wf s.2)).

(** The computation neither reads nor changes the world. *)
Definition stateless {A} (m : M world A) : Prop :=
  ∀ w, m w = ((m new_world).1, w).

(** Lines 122-140 as a function of what they read. *)
Definition compute_marks (props : gmap string dict) (kept deleted : gset string)
    : result (gset string) :=
  rbind (fold_result add_referenced (map_to_list props) []) (fun referenced =>
  rbind (fold_result (infer_mark props) referenced ∅) (fun marked =>
  Ok ((marked ∪ deleted) ∖ kept))).

(** * Worked documents *)

(** base: {value: 10, validator: int}
    doubled: {value: base, source: field, validator: int} *)
Definition doc_doubled : value :=
  VDict [("base", VDict [("value", VInt 10); ("validator", VStr "int")]);
         ("doubled", VDict [("value", VStr "base"); ("source", VStr "field");
                            ("validator", VStr "int")])].

(** k: 2
    opts: {validator: plotoptions, value: {k: 1, r: {value: k, source: field}}} *)
Definition doc_nested_clash : value :=
  VDict [("k", VInt 2);
         ("opts", VDict [("value", VDict [("k", VInt 1);
                                          ("r", VDict [("value", VStr "k");
                                                       ("source", VStr "field")])]);
                         ("validator", VStr "plotoptions")])].

(** name: {value: Report, suffix: {value: 5, validator: int, source: literal}}
    title: t *)
Definition doc_int_suffix : value :=
  VDict [("name", VDict [("value", VStr "Report");
                         ("suffix", VDict [("value", VInt 5); ("validator", VStr "int");
                                           ("source", VStr "literal")])]);
         ("title", VStr "t")].

(** inc: {value: missing.yaml, validator: yaml}
    title: t *)
Definition doc_missing_include : value :=
  VDict [("inc", VDict [("value", VStr "missing.yaml"); ("validator", VStr "yaml")]);
         ("title", VStr "t")].

(** name: {value: [r], suffix: {value: [{en: {en: {en: x}}}],
                                validator: undetermined, source: literal}} *)
Definition doc_nested_suffix : value :=
  VDict [("name",
          VDict [("value", VList [VStr "r"]);
                 ("suffix",
                  VDict [("value",
                          VList [VDict [("en", VDict [("en", VDict [("en", VStr "x")])])]]);
                         ("validator", VStr "undetermined");
                         ("source", VStr "literal")])])].

(** name: [r] *)
Definition doc_plain_name : value := VDict [("name", VList [VStr "r"])].

(** good: 1
    bad: !explicit {source: literal}
    other: 2 *)
Definition doc_explicit_without_value : value :=
  VDict [("good", VInt 1);
         ("bad", VTagged (VDict [("source", VStr "literal")]) EXPLICIT);
         ("other", VInt 2)].

(** a: 1
    t: {value: a, source: field}
    f: {value: t, source: field, validator: nosuch} *)
Definition doc_failed_reference : value :=
  VDict [("a", VInt 1);
         ("t", VDict [("value", VStr "a"); ("source", VStr "field")]);
         ("f", VDict [("value", VStr "t"); ("source", VStr "field");
                      ("validator", VStr "nosuch")])].

Definition options_delete_marked : Options :=
  mkOptions LANGUAGE_OPTIONS.DEFAULT (VStr DEFAULT_CONFIGS_FOLDER) VNone false.

(** good: 1
    bad: {value: 3, validator: nosuch}
    other: 2 *)
Definition doc_unknown_validator : value :=
  VDict [("good", VInt 1);
         ("bad", VDict [("value", VInt 3); ("validator", VStr "nosuch")]);
         ("other", VInt 2)].

(** a: 1
    t: {value: a, source: field} *)
Definition doc_plain_reference : value :=
  VDict [("a", VInt 1);
         ("t", VDict [("value", VStr "a"); ("source", VStr "field")])].

(** x: {value: [a], source: field}
    y: 1 *)
Definition doc_unhashable_reference : value :=
  VDict [("x", VDict [("value", VList [VStr "a"]); ("source", VStr "field")]);
         ("y", VInt 1)].

(** o: {validator: dict,
        value: {inner: {value: a,
                        suffix: {value: b, validator: str, source: literal}}}}
    y: 1 *)
Definition doc_nested_suffix_field : value :=
  VDict [("o", VDict [("value",
                       VDict [("inner",
                               VDict [("value", VStr "a");
                                      ("suffix", VDict [("value", VStr "b");
                                                        ("validator", VStr "str");
                                                        ("source", VStr "literal")])])]);
                      ("validator", VStr "dict")]);
         ("y", VInt 1)].

(** * More notions and worked documents *)

(** A name under which line 280 stores whatever value it is given. *)
Definition settable (name : string) : bool :=
  negb (String.eqb name "__class__" || String.eqb name "__dict__"
        || String.eqb name "__weakref__").

(** The frame after the rounds of the merge loop over [entries], each run
    from the frame that the round before it left. *)
Definition rounds (ext : Externals) (dumper : value → option dict → M frame dict)
    (folder : string) (read_from : option dict) (entries : dict) (s : frame) : frame :=
  fold_left (fun s entry => (dump_field ext dumper folder read_from entry s).2) entries s.

(** The world after lines 204-210 for one affix type of a descriptor: as it
    was when the descriptor has no such entry or an empty mapping; else the
    world that parsing the entry left, with the parsed value in the affix
    registry under the formatted key, or, when the parse raised, with a
    warning that names the field and the affix type. *)
Definition affix_round (ext : Externals) (key : string) (prop : dict)
    (dumper : value → dict → M world dict) (dump_to read_from : dict)
    (affix_type : string) (w : world) : world :=
  match dict_get affix_type prop with
  | None => w
  | Some sub_prop =>
      if is_empty_dict sub_prop then w
      else
        let run := parse_prop ext key sub_prop dumper dump_to read_from w in
        match run.1 with
        | Ok parsed =>
            with_ctx (fun c => set_affix
                                 (dict_set (PropSchema.format_key key affix_type) parsed
                                    (affix c)) c) run.2
        | Raise e => add_warning (IgnoreField (key +:+ "." +:+ affix_type) e) run.2
        end
  end.

(** An entry written without a descriptor: neither tagged nor a mapping that
    has a "value" or a "source" key. *)
Definition plain (v : value) : bool :=
  match v with
  | VTagged _ _ => false
  | VDict entries => negb (dict_mem VALUE entries) && negb (dict_mem SOURCE entries)
  | _ => true
  end.

(** The world after the descriptors of the plain entries [handle] have been
    recorded, in their order. *)
Definition record_plain (handle : dict) (w : world) : world :=
  fold_left (fun w kv => record_prop kv.1 (_as_implicit kv.2) w) handle w.

(** A descriptor with the default validator and no keep, prefix or suffix. *)
Definition bare (prop : dict) : Prop :=
  dict_get VALIDATOR prop = Some (VStr PROP_STRING_VALIDATION_UNDETERMINED)
  ∧ dict_get KEEP prop = None
  ∧ dict_get PREFIX prop = None
  ∧ dict_get SUFFIX prop = None.

Definition literal_source (prop : dict) : Prop :=
  dict_get SOURCE prop = Some (VStr SOURCE_OPTIONS.VALUE_FROM_LITERAL).

(** Some mapping inside [v], at any depth under mappings and lists, has the
    key [lang]. *)
Fixpoint holds_key (lang : string) (v : value) : bool :=
  match v with
  | VDict entries =>
      dict_mem lang entries || existsb (fun kv => holds_key lang kv.2) entries
  | VList items => existsb (holds_key lang) items
  | _ => false
  end.

(** What a call may do to the [dump_to] it works on: append keys, and never
    the key "configs". *)
Definition scope_grows (before after : dict) : Prop :=
  dict_keys before `prefix_of` dict_keys after
  ∧ (dict_mem CONFIGS before = false → dict_mem CONFIGS after = false).

Definition keeps_scope {A} (m : M frame A) : Prop :=
  ∀ s, scope_grows s.1 (m s).2.1.

(** The file is found under the folder, loads, and holds plain entries only. *)
Definition loads_plain (ext : Externals) (folder : string) (file : value) (doc : dict)
    : Prop :=
  ∃ path, _resolve_yaml_path ext file folder = Ok path
          ∧ _load_yaml ext path = Ok doc
          ∧ Forall (fun kv => plain kv.2 = true) (ignore_configs doc).

(** a: {value: 1, keep: false}
    b: {value: 2, keep: true} *)
Definition doc_keep_flags : dict :=
  [("a", VDict [("value", VInt 1); ("keep", VBool false)]);
   ("b", VDict [("value", VInt 2); ("keep", VBool true)])].

(** title: {en: Hello, pt: Ola}
    sizes: [1, 2]
    configs: [] *)
Definition doc_plain : dict :=
  [("title", VDict [("en", VStr "Hello"); ("pt", VStr "Ola")]);
   ("sizes", VList [VInt 1; VInt 2]);
   ("configs", VList [])].

(** A documents root with two files:
    inc.yaml   a: 1
               b: x
    more.yaml  b: y
               c: [1] *)
Definition files_plain : list (string * value) :=
  [("inc.yaml", VDict [("a", VInt 1); ("b", VStr "x")]);
   ("more.yaml", VDict [("b", VStr "y"); ("c", VList [VInt 1])])].

(** {value: inc.yaml, validator: yaml}, normalised *)
Definition prop_include : dict :=
  [("value", VStr "inc.yaml"); ("validator", VStr "yaml"); ("source", VStr "literal")].

(** name: {value: Report, suffix: {value: _v2}} *)
Definition prop_suffix_without_validator : dict :=
  [("value", VStr "Report"); ("suffix", VDict [("value", VStr "_v2")])].

(** A template: base document  a: 1
                configurations [{a: 2, b: 3}]  *)
Definition template_override : PSTemplate :=
  mkPSTemplate [("a", VInt 1)] [[("a", VInt 2); ("b", VInt 3)]]
    (mkTemplateKwargs (VStr "pt") DEFAULT_CONFIGS_FOLDER VNone true).

(** A template whose second configuration has an entry that cannot be
    normalised. *)
Definition template_bad_entry : PSTemplate :=
  mkPSTemplate [("a", VInt 1)]
    [[("b", VInt 3)]; [("c", VTagged (VStr "x") EXPLICIT)]]
    (mkTemplateKwargs (VStr "en") DEFAULT_CONFIGS_FOLDER VNone true).

(** * Properties *)

(** ** Mappings *)

Section AlistFacts.
Context {A : Type}.
Implicit Types (d e : list (string * A)) (k : string) (v : A).

Lemma dict_get_app k d e :
  dict_get k (d ++ e) =
    match dict_get k d with Some v => Some v | None => dict_get k e end.
Proof.
  induction d as [|[k' v'] d IH]; simpl; [reflexivity|].
  destruct (String.eqb k k'); [reflexivity | exact IH].
Qed.

Lemma dict_get_replace k k' v d :
  dict_get k (dict_replace k' v d) =
    if String.eqb k k' then (if dict_mem k d then Some v else None)
    else dict_get k d.
Proof.
  unfold dict_mem.
  induction d as [|[k1 v1] d IH]; simpl.
  - destruct (String.eqb k k'); reflexivity.
  - destruct (String.eqb_spec k k1) as [->|Hk1].
    + destruct (String.eqb_spec k1 k') as [->|Hne].
      * rewrite String.eqb_refl. reflexivity.
      * rewrite (proj2 (String.eqb_neq k' k1)) by congruence. reflexivity.
    + exact IH.
Qed.

Lemma dict_get_set k k' v d :
  dict_get k (dict_set k' v d) =
    if String.eqb k k' then Some v else dict_get k d.
Proof.
  unfold dict_set. destruct (dict_mem k' d) eqn:Hmem.
  - rewrite dict_get_replace.
    destruct (String.eqb_spec k k') as [->|_]; [|reflexivity].
    rewrite Hmem. reflexivity.
  - rewrite dict_get_app. simpl. unfold dict_mem in Hmem.
    destruct (String.eqb_spec k k') as [->|_].
    + destruct (dict_get k' d); [discriminate | reflexivity].
    + destruct (dict_get k d); reflexivity.
Qed.

Lemma dict_get_None k d : k ∉ dict_keys d → dict_get k d = None.
Proof.
  induction d as [|[k' v'] d IH]; simpl; [reflexivity|].
  intros Hk. apply not_elem_of_cons in Hk as [Hne Hk].
  rewrite (proj2 (String.eqb_neq k k')) by exact Hne. auto.
Qed.

(** Looking a key up after [d.update(e)], and so in [d | e]: the entry of
    [e] when it has one, the entry of [d] otherwise. *)
Lemma dict_get_update k d e :
  NoDup (dict_keys e) →
  dict_get k (dict_update d e) =
    match dict_get k e with Some v => Some v | None => dict_get k d end.
Proof.
  unfold dict_update. revert d.
  induction e as [|[k1 v1] e IH]; intros d Hnd; simpl; [reflexivity|].
  apply NoDup_cons in Hnd as [Hk1 Hnd].
  rewrite IH by exact Hnd. rewrite dict_get_set.
  destruct (String.eqb_spec k k1) as [->|_]; [|reflexivity].
  rewrite dict_get_None by exact Hk1. reflexivity.
Qed.

Lemma dict_keys_map_values {B} (f : A → B) d :
  dict_keys (map (fun kv => (kv.1, f kv.2)) d) = dict_keys d.
Proof.
  unfold dict_keys. rewrite map_map. reflexivity.
Qed.
End AlistFacts.

Lemma is_str_true v s : is_str v s = true ↔ v = VStr s.
Proof.
  destruct v; simpl; try (split; [discriminate | congruence]).
  rewrite String.eqb_eq. split; congruence.
Qed.

(** ** Reference lookup *)

(** C3 (amended). A field with source "field" reads the referenced key from
    [dump_to | read_from]: the entry of the read scope when it has one, else
    the entry of the target scope, and KeyError when neither has the key. *)
Theorem fetch_value_field_precedence
    (key target : string) (entries dump_to read_from : dict) :
  dict_get SOURCE entries = Some (VStr SOURCE_OPTIONS.VALUE_FROM_FIELD) →
  dict_get VALUE entries = Some (VStr target) →
  NoDup (dict_keys read_from) →
  fetch_value key (VDict entries) dump_to read_from =
    match dict_get target read_from, dict_get target dump_to with
    | Some v, _ => Ok (VStr target, v)
    | None, Some v => Ok (VStr target, v)
    | None, None => Raise KeyError
    end.
Proof.
  intros Hsrc Hval Hnd. unfold fetch_value. rewrite Hsrc.
  change (is_str (VStr SOURCE_OPTIONS.VALUE_FROM_FIELD) SOURCE_OPTIONS.VALUE_FROM_LITERAL)
    with false.
  change (is_str (VStr SOURCE_OPTIONS.VALUE_FROM_FIELD) SOURCE_OPTIONS.VALUE_FROM_FIELD)
    with true.
  cbv iota. unfold dict_getitem at 1. rewrite Hval. cbv beta iota delta [rbind].
  unfold dict_getitem_value, dict_getitem, dict_or. cbv beta iota delta [hashable].
  rewrite dict_get_update by exact Hnd.
  destruct (dict_get target read_from); [reflexivity|].
  destruct (dict_get target dump_to); reflexivity.
Qed.

Lemma fetch_value_field_precedence_witness :
  NoDup (dict_keys [("k", VInt 2)])
  ∧ fetch_value "r" (VDict [("value", VStr "k"); ("source", VStr "field")])
      [("k", VInt 1)] [("k", VInt 2)] = Ok (VStr "k", VInt 2).
Proof.
  assert (Hnd : NoDup (dict_keys [("k", VInt 2)])).
  { apply NoDup_cons. split; [apply not_elem_of_nil | apply NoDup_nil_2]. }
  split; [exact Hnd|].
  apply (fetch_value_field_precedence "r" "k"
           [("value", VStr "k"); ("source", VStr "field")]
           [("k", VInt 1)] [("k", VInt 2)]); [reflexivity | reflexivity | exact Hnd].
Defined.

(** C3 as claimed fails: the key "k" is in both scopes and the entry of the
    read scope (2) is returned, not the one of the target scope (1); the engine
    reaches this state when a plotoptions mapping declares a key that the
    enclosing scope also holds. *)
Lemma fetch_value_read_scope_wins :
  fetch_value "r" (VDict [("value", VStr "k"); ("source", VStr "field")])
    [("k", VInt 1)] [("k", VInt 2)] ≠ Ok (VStr "k", VInt 1)
  ∧ (PlotStyle_init (machine []) doc_nested_clash VNone default_options new_world).1
    = Ok [("k", VInt 2); ("opts", VDict [("k", VInt 1); ("r", VInt 2)])].
Proof.
  split; [discriminate | vm_compute; reflexivity].
Qed.

(** ** Localisation *)

(** C5 (amended). A mapping holding the active language is replaced by that
    entry's value as it stands; a mapping without it keeps its keys and has
    every value localised; a list is localised item by item; anything else is
    left alone; and [__init__] localises both the parameters and the affix
    registry before it composes affixes. *)
Theorem localization_shape (lang : string) :
  (∀ entries selected,
     dict_get lang entries = Some selected →
     resolve lang (VDict entries) = selected)
  ∧ (∀ entries,
       dict_get lang entries = None →
       resolve lang (VDict entries) = VDict (localize lang entries)
       ∧ dict_keys (localize lang entries) = dict_keys entries)
  ∧ (∀ items, resolve lang (VList items) = VList (map (resolve lang) items))
  ∧ (∀ v, is_scalar v = true → resolve lang v = v)
  ∧ (∀ ext opts params w w1,
       language opts = lang →
       keep_all_fields opts = true →
       _resolve_marked_for_delete w = (Ok tt, w1) →
       PlotStyle_finish ext opts (Some params) w =
         (apply_affixes ext (localize lang params)
                            (localize lang (affix (ctx w1))),
          with_ctx (set_affix (localize lang (affix (ctx w1)))) w1)).
Proof.
  repeat split.
  - intros entries selected H. simpl. rewrite H. reflexivity.
  - simpl. rewrite H. reflexivity.
  - apply dict_keys_map_values.
  - intros v Hv. destruct v; try reflexivity; discriminate.
  - intros ext opts params w w1 Hlang Hkeep Hres.
    unfold PlotStyle_finish, bind. rewrite Hres. simpl.
    rewrite Hkeep, Hlang. simpl. unfold lift, localize.
    destruct (apply_affixes _ _ _); reflexivity.
Qed.

Lemma localization_shape_witness :
  dict_get "pt" [("en", VStr "Hello"); ("pt", VStr "Ola")] = Some (VStr "Ola")
  ∧ resolve "pt" (VDict [("en", VStr "Hello"); ("pt", VStr "Ola")]) = VStr "Ola".
Proof.
  split; [reflexivity|].
  apply (proj1 (localization_shape "pt")). reflexivity.
Defined.

(** C5 as claimed fails: the selected entry is not localised again. *)
Lemma selected_entry_not_localized :
  resolve "en" (VDict [("en", VDict [("en", VStr "x")])])
    ≠ resolve "en" (VDict [("en", VStr "x")])
  ∧ resolve "en" (VDict [("en", VDict [("en", VStr "x")])]) = VDict [("en", VStr "x")].
Proof.
  split; [discriminate | reflexivity].
Qed.

(** ** Keep/delete inference *)

Lemma fold_add_referenced (items : list (string * dict)) :
  ∀ acc refd,
    fold_result add_referenced items acc = Ok refd →
    ∀ v, v ∈ refd ↔
         v ∈ acc ∨ ∃ item, item ∈ items
                           ∧ dict_get SOURCE item.2
                             = Some (VStr SOURCE_OPTIONS.VALUE_FROM_FIELD)
                           ∧ v = default VNone (dict_get VALUE item.2).
Proof.
  induction items as [|item items IH]; intros acc refd Hfold v; simpl in Hfold.
  - injection Hfold as <-. split; [auto|].
    intros [H|(item & Hin & _)]; [exact H | inversion Hin].
  - destruct (add_referenced acc item) as [acc'|e] eqn:Hadd; [|discriminate].
    simpl in Hfold. rewrite (IH _ _ Hfold v). clear IH Hfold.
    unfold add_referenced in Hadd.
    destruct (dict_get SOURCE item.2) as [source|] eqn:Hsrc.
    + destruct (is_str source SOURCE_OPTIONS.VALUE_FROM_FIELD) eqn:Hfield.
      * apply is_str_true in Hfield. subst source.
        destruct (hashable _); [|discriminate]. injection Hadd as <-.
        rewrite elem_of_app, list_elem_of_singleton. split.
        -- intros [[H|H]|(it & Hin & Hit)].
           ++ left. exact H.
           ++ right. exists item. split; [left | split; [exact Hsrc | exact H]].
           ++ right. exists it. split; [right; exact Hin | exact Hit].
        -- intros [H|(it & Hin & Hs & Hv)]; [left; left; exact H|].
           apply elem_of_cons in Hin as [->|Hin].
           ++ left. right. exact Hv.
           ++ right. exists it. auto.
      * injection Hadd as <-. split.
        -- intros [H|(it & Hin & Hit)]; [left; exact H|].
           right. exists it. split; [right; exact Hin | exact Hit].
        -- intros [H|(it & Hin & Hs & Hv)]; [left; exact H|].
           apply elem_of_cons in Hin as [->|Hin].
           ++ rewrite Hsrc in Hs. injection Hs as ->. discriminate.
           ++ right. exists it. auto.
    + injection Hadd as <-. split.
      * intros [H|(it & Hin & Hit)]; [left; exact H|].
        right. exists it. split; [right; exact Hin | exact Hit].
      * intros [H|(it & Hin & Hs & Hv)]; [left; exact H|].
        apply elem_of_cons in Hin as [->|Hin].
        -- rewrite Hsrc in Hs. discriminate.
        -- right. exists it. auto.
Qed.

Lemma default_keep_for_source_false (prop : dict) :
  PropSchema.default_keep_for_source (default VNone (dict_get SOURCE prop)) = Ok false
  ↔ dict_get SOURCE prop = Some (VStr SOURCE_OPTIONS.VALUE_FROM_FIELD).
Proof.
  unfold PropSchema.default_keep_for_source.
  destruct (dict_get SOURCE prop) as [source|]; simpl.
  - destruct (hashable source) eqn:Hh; [|split; [discriminate|]].
    + destruct (is_str source SOURCE_OPTIONS.VALUE_FROM_LITERAL) eqn:Hlit.
      * apply is_str_true in Hlit. subst. split; discriminate.
      * destruct (is_str source SOURCE_OPTIONS.VALUE_FROM_FIELD) eqn:Hfield.
        -- apply is_str_true in Hfield. subst. split; reflexivity.
        -- split; [discriminate|]. intros [= ->]. discriminate.
    + intros [= ->]. discriminate Hh.
  - split; discriminate.
Qed.

Lemma fold_infer_mark (props : gmap string dict) (referenced : list value) :
  ∀ acc marked,
    fold_result (infer_mark props) referenced acc = Ok marked →
    ∀ name, name ∈ marked ↔
            name ∈ acc ∨ (VStr name ∈ referenced ∧ own_source_is_field props name).
Proof.
  induction referenced as [|field referenced IH]; intros acc marked Hfold name;
    simpl in Hfold.
  - injection Hfold as <-. split; [auto|]. intros [H|[H _]]; [exact H | inversion H].
  - destruct (infer_mark props acc field) as [acc'|e] eqn:Hmark; [|discriminate].
    simpl in Hfold. rewrite (IH _ _ Hfold name). clear IH Hfold.
    rewrite elem_of_cons.
    assert (Hacc : name ∈ acc' ↔
                   name ∈ acc ∨ (VStr name = field ∧ own_source_is_field props name)).
    { unfold infer_mark in Hmark. destruct field; try (injection Hmark as <-);
        try (split; [auto | intros [H|[H _]]; [exact H | discriminate]]).
      destruct (props !! s) as [prop|] eqn:Hprop.
      - destruct (PropSchema.default_keep_for_source _) as [keep|] eqn:Hkeep;
          [|discriminate].
        simpl in Hmark. injection Hmark as <-. destruct keep; simpl.
        + split; [auto|]. intros [H|[[= ->] (prop' & Hp & Hs)]]; [exact H|].
          rewrite Hprop in Hp. injection Hp as <-.
          apply default_keep_for_source_false in Hs. congruence.
        + apply default_keep_for_source_false in Hkeep.
          rewrite elem_of_union, elem_of_singleton. split.
          * intros [->|H]; [right | left; exact H].
            split; [reflexivity | exists prop; auto].
          * intros [H|[[= ->] _]]; [right; exact H | left; reflexivity].
      - simpl in Hmark. injection Hmark as <-. split; [auto|].
        intros [H|[[= ->] (prop' & Hp & _)]]; [exact H | congruence]. }
    rewrite Hacc. clear. intuition (subst; auto).
Qed.

(** What [_resolve_marked_for_delete] leaves in the context when it returns:
    a key is marked when it is referenced and its own descriptor has source
    "field", or when it was explicitly deleted, and in both cases only if it
    was not explicitly kept. *)
Lemma marked_for_delete_spec (w w' : world) :
  _resolve_marked_for_delete w = (Ok tt, w') →
  w' = with_ctx (set_marked_for_delete (marked_for_delete (ctx w'))) w
  ∧ ∀ name,
      name ∈ marked_for_delete (ctx w') ↔
        ((referenced_as_field_source (field_props (ctx w)) name
          ∧ own_source_is_field (field_props (ctx w)) name)
         ∨ name ∈ explicitly_deleted (ctx w))
        ∧ name ∉ explicitly_kept (ctx w).
Proof.
  unfold _resolve_marked_for_delete, bind, gets, lift, modify.
  destruct (fold_result add_referenced _ _) as [referenced|e] eqn:Href; [|discriminate].
  destruct (fold_result (infer_mark _) _ _) as [marked|e] eqn:Hmark; [|discriminate].
  intros [= <-]. split; [reflexivity|]. intros name. simpl.
  rewrite elem_of_difference, elem_of_union.
  rewrite (fold_infer_mark _ _ _ _ Hmark name).
  rewrite (fold_add_referenced _ _ _ Href (VStr name)).
  unfold referenced_as_field_source.
  split; intros [Hin Hkept]; (split; [|exact Hkept]).
  - destruct Hin as [[Hin|[[Hin|((key & prop) & Hitem & Hsrc & Hval)] Hown]]|Hin].
    + set_solver.
    + inversion Hin.
    + left. split; [|exact Hown]. exists key, prop.
      apply elem_of_map_to_list in Hitem. simpl in *. split; [exact Hitem|].
      split; [exact Hsrc|]. destruct (dict_get VALUE prop); simpl in Hval; congruence.
    + right. exact Hin.
  - destruct Hin as [[(key & prop & Hitem & Hsrc & Hval) Hown]|Hin]; [|right; exact Hin].
    left. right. split; [|exact Hown]. right. exists (key, prop).
    split; [apply elem_of_map_to_list; exact Hitem|]. simpl. rewrite Hval. auto.
Qed.

(** C2 (amended). For a key that some field references and that carries no
    explicit keep or delete, the inferred default comes from the source kind
    of the key's own recorded descriptor: it is marked for deletion exactly
    when that descriptor has source "field"; the source kind of the
    referencing field plays no part. *)
Theorem inferred_default_follows_target_source (w w' : world) (target : string) :
  _resolve_marked_for_delete w = (Ok tt, w') →
  referenced_as_field_source (field_props (ctx w)) target →
  target ∉ explicitly_deleted (ctx w) →
  target ∉ explicitly_kept (ctx w) →
  (target ∈ marked_for_delete (ctx w')
   ↔ own_source_is_field (field_props (ctx w)) target).
Proof.
  intros Hrun Href Hdel Hkept.
  destruct (marked_for_delete_spec _ _ Hrun) as [_ Hspec].
  rewrite Hspec. tauto.
Qed.

Lemma inferred_default_follows_target_source_witness :
  let w := (PlotStyle_init (machine []) doc_doubled VNone default_options new_world).2 in
  let w' := (_resolve_marked_for_delete w).2 in
  _resolve_marked_for_delete w = (Ok tt, w')
  ∧ referenced_as_field_source (field_props (ctx w)) "base"
  ∧ ("base" ∉ explicitly_deleted (ctx w))
  ∧ ("base" ∉ explicitly_kept (ctx w))
  ∧ ("base" ∈ marked_for_delete (ctx w')
     ↔ own_source_is_field (field_props (ctx w)) "base").
Proof.
  intros w w'.
  assert (Hrun : _resolve_marked_for_delete w = (Ok tt, w')) by (vm_compute; reflexivity).
  assert (Href : referenced_as_field_source (field_props (ctx w)) "base").
  { exists "doubled",
      [("value", VStr "base"); ("source", VStr "field"); ("validator", VStr "int")].
    repeat split; vm_compute; reflexivity. }
  assert (Hdel : "base" ∉ explicitly_deleted (ctx w))
    by (apply (bool_decide_unpack _); vm_compute; exact I).
  assert (Hkept : "base" ∉ explicitly_kept (ctx w))
    by (apply (bool_decide_unpack _); vm_compute; exact I).
  repeat (split; [assumption|]).
  exact (inferred_default_follows_target_source w w' "base" Hrun Href Hdel Hkept).
Defined.

(** C2 as claimed fails on its own example: "base" has a literal source, so it
    is not marked for deletion, although the field that references it has
    source "field". *)
Lemma base_is_not_marked :
  let r := PlotStyle_init (machine []) doc_doubled VNone default_options new_world in
  r.1 = Ok [("base", VInt 10); ("doubled", VInt 10)]
  ∧ "base" ∉ marked_for_delete (ctx r.2).
Proof.
  split; [vm_compute; reflexivity|].
  apply (bool_decide_unpack _). vm_compute. exact I.
Qed.

(** ** Deletion *)

(** C4: with [keep_all_fields] false the constructor never returns. Line 278
    calls [_delete_marked_fields] without the [ctx] argument of line 253, so a
    run that gets that far ends in TypeError instead of the filtered scope. *)
Theorem keep_all_fields_false_raises
    (ext : Externals) (yaml_dict yaml_file : value) (opts : Options) (w : world) :
  keep_all_fields opts = false →
  is_ok (PlotStyle_init ext yaml_dict yaml_file opts w).1 = false.
Proof.
  intros Hkeep. unfold PlotStyle_init, bind.
  destruct (PlotStyle_input_validate _ _ _ _ _) as [[[]|e] w1]; [|reflexivity].
  destruct (PlotStyle_load_params _ _ _ _ _) as [[params|e] w2]; [|reflexivity].
  unfold PlotStyle_finish, bind.
  destruct (_resolve_marked_for_delete _) as [[[]|e] w3]; [|reflexivity].
  destruct params as [params|]; [|reflexivity].
  simpl. unfold lift. destruct (apply_affixes _ _ _); [|reflexivity].
  rewrite Hkeep. reflexivity.
Qed.

Lemma keep_all_fields_false_raises_witness :
  keep_all_fields options_delete_marked = false
  ∧ is_ok (PlotStyle_init (machine []) doc_doubled VNone options_delete_marked
             new_world).1 = false.
Proof.
  split; [reflexivity|].
  apply (keep_all_fields_false_raises (machine []) doc_doubled VNone
           options_delete_marked new_world).
  reflexivity.
Defined.

(** ** Affix composition *)

Lemma resolve_marked_keeps_warnings (w w' : world) (r : result unit) :
  _resolve_marked_for_delete w = (r, w') → warned w' = warned w.
Proof.
  unfold _resolve_marked_for_delete, bind, gets, lift, modify.
  destruct (fold_result add_referenced _ _); [|intros [= _ <-]; reflexivity].
  destruct (fold_result (infer_mark _) _ _); intros [= _ <-]; reflexivity.
Qed.

Lemma apply_affixes_app (ext : Externals) (done rest params params' : dict) :
  apply_affixes ext params done = Ok params' →
  apply_affixes ext params (done ++ rest) = apply_affixes ext params' rest.
Proof.
  revert params. induction done as [|entry done IH]; intros params Hdone.
  - injection Hdone as ->. reflexivity.
  - cbn [apply_affixes app] in *.
    destruct (apply_affix ext params entry) as [p|e]; [|discriminate].
    cbn [rbind] in *. apply IH. exact Hdone.
Qed.

Lemma py_add_text_mismatch (ext : Externals) (s : string) (v : value) :
  (∀ t, v ≠ VStr t) →
  py_add ext (VStr s) v = Raise TypeError ∧ py_add ext v (VStr s) = Raise TypeError.
Proof.
  intros Hv. destruct v; try (exfalso; eapply Hv; reflexivity); split; reflexivity.
Qed.

Lemma finish_affix_failure (ext : Externals) (opts : Options) (params : dict)
    (w w1 : world) (e : exn) :
  _resolve_marked_for_delete w = (Ok tt, w1) →
  apply_affixes ext (localize (language opts) params)
                    (localize (language opts) (affix (ctx w1))) = Raise e →
  ∃ w',
    PlotStyle_finish ext opts (Some params) w = (Raise e, w')
    ∧ warned w' = warned w.
Proof.
  intros Hres Hfail.
  unfold PlotStyle_finish, bind. rewrite Hres. simpl. unfold lift, localize in *.
  rewrite Hfail. eexists. split; [reflexivity|].
  simpl. exact (resolve_marked_keeps_warnings _ _ _ Hres).
Qed.

(** C6 (amended). A concatenation that fails is not caught anywhere. Wherever
    the entry stands in the affix registry, and whether it is a suffix
    (value + affix) or a prefix (affix + value), the exception of the
    addition is the exception of [apply_affixes]; a text and anything that is
    not a text do not add, either way round (TypeError). The constructor ends
    with that exception: lines 274-278 raise it and issue no warning, and so
    does [__init__], without a result. *)
Theorem affix_failure_aborts (ext : Externals) :
  (∀ params done field key affix_type affix_value rest params' old e,
     apply_affixes ext params done = Ok params' →
     parse_affix_key ext field = Some (key, affix_type) →
     dict_get key params' = Some old →
     (affix_type = SUFFIX ∧ py_add ext old affix_value = Raise e
      ∨ affix_type = PREFIX ∧ py_add ext affix_value old = Raise e) →
     apply_affixes ext params (done ++ (field, affix_value) :: rest) = Raise e)
  ∧ (∀ s v, (∀ t, v ≠ VStr t) →
       py_add ext (VStr s) v = Raise TypeError
       ∧ py_add ext v (VStr s) = Raise TypeError)
  ∧ (∀ opts params w w1 e,
       _resolve_marked_for_delete w = (Ok tt, w1) →
       apply_affixes ext (localize (language opts) params)
                         (localize (language opts) (affix (ctx w1))) = Raise e →
       ∃ w',
         PlotStyle_finish ext opts (Some params) w = (Raise e, w')
         ∧ warned w' = warned w)
  ∧ (∀ yaml_dict yaml_file opts params w w0 w1 e,
       PlotStyle_input_validate ext yaml_dict yaml_file opts w = (Ok tt, w) →
       PlotStyle_load_params ext yaml_dict yaml_file opts w = (Ok (Some params), w0) →
       _resolve_marked_for_delete w0 = (Ok tt, w1) →
       apply_affixes ext (localize (language opts) params)
                         (localize (language opts) (affix (ctx w1))) = Raise e →
       ∃ w',
         PlotStyle_init ext yaml_dict yaml_file opts w = (Raise e, w')
         ∧ warned w' = warned w0).
Proof.
  split; [|split; [|split]].
  - intros params done field key affix_type affix_value rest params' old e
      Hdone Hparse Hget Hadd.
    rewrite (apply_affixes_app _ _ _ _ _ Hdone).
    cbn [apply_affixes]. unfold apply_affix, unpack_affix_key, dict_getitem.
    cbn [fst snd]. rewrite Hparse. cbn [rbind fst snd].
    destruct Hadd as [[-> Hadd]|[-> Hadd]].
    + rewrite String.eqb_refl, Hget. cbn [rbind]. rewrite Hadd. reflexivity.
    + change (String.eqb PREFIX SUFFIX) with false. cbv iota.
      rewrite String.eqb_refl, Hget. cbn [rbind]. rewrite Hadd. reflexivity.
  - intros s v Hv. apply py_add_text_mismatch. exact Hv.
  - intros opts params w w1 e Hres Hfail.
    exact (finish_affix_failure ext opts params w w1 e Hres Hfail).
  - intros yaml_dict yaml_file opts params w w0 w1 e Hvalid Hload Hres Hfail.
    destruct (finish_affix_failure ext opts params w0 w1 e Hres Hfail) as (w' & Hfin & Hw).
    exists w'. split; [|exact Hw].
    unfold PlotStyle_init, bind. rewrite Hvalid, Hload, Hfin. reflexivity.
Qed.

Lemma affix_failure_aborts_witness :
  apply_affixes (machine []) [("name", VStr "Report")] [("name__suffix__", VStr "_v2")]
  = Ok [("name", VStr "Report_v2")]
  ∧ parse_affix_key (machine []) "name__prefix__" = Some ("name", PREFIX)
  ∧ dict_get "name" [("name", VStr "Report_v2")] = Some (VStr "Report_v2")
  ∧ py_add (machine []) (VInt 5) (VStr "Report_v2") = Raise TypeError
  ∧ apply_affixes (machine []) [("name", VStr "Report")]
      [("name__suffix__", VStr "_v2"); ("name__prefix__", VInt 5);
       ("name__suffix__", VStr "!")]
    = Raise TypeError.
Proof.
  repeat (split; [reflexivity|]).
  apply (proj1 (affix_failure_aborts (machine []))
           [("name", VStr "Report")] [("name__suffix__", VStr "_v2")]
           "name__prefix__" "name" PREFIX (VInt 5) [("name__suffix__", VStr "!")]
           [("name", VStr "Report_v2")] (VStr "Report_v2") TypeError);
    [reflexivity | reflexivity | reflexivity |].
  right. split; reflexivity.
Defined.

(** C6 as claimed fails: a text value with an integer suffix makes the whole
    construction raise TypeError; no warning is issued and nothing is
    returned, the field "title" included. *)
Lemma int_suffix_aborts_construction :
  let r := PlotStyle_init (machine []) doc_int_suffix VNone default_options new_world in
  r.1 = Raise TypeError ∧ warned r.2 = [].
Proof.
  split; vm_compute; reflexivity.
Qed.

(** ** Validators *)

(** C7: [validate] and [sanitize] can raise. Membership in the table of
    supported file types hashes the value, so FileformatValidator.validate
    raises TypeError on a list; FigsizeValidator.sanitize evaluates a valid
    tuple as if it were text and raises TypeError where [parse] returns the
    tuple. *)
Theorem validators_can_raise (ext : Externals) (w : world) :
  validate (FileformatValidator ext) (VList []) None w = (Raise TypeError, w)
  ∧ validate (FigsizeValidator ext) (VTuple [VInt 1; VInt 2]) None w = (Ok true, w)
  ∧ parse (FigsizeValidator ext) (VTuple [VInt 1; VInt 2]) None w
    = (Ok (VTuple [VInt 1; VInt 2]), w)
  ∧ sanitize (FigsizeValidator ext) (VTuple [VInt 1; VInt 2]) None w
    = (Raise TypeError, w).
Proof.
  repeat split.
Qed.

(** ** The file stack *)

(** Whenever the one path of a chain-include cannot be located, the body of
    the [try] ends at line 70 with the path pushed and not popped. *)
Lemma chain_include_unresolved_keeps_path (ext : Externals)
    (dumper : value → option dict → M frame dict) (folder key : string) (prop : dict)
    (read_from : option dict) (scope : dict) (w : world) (target path : value) (e : exn) :
  fetch_value key (VDict prop) scope (default scope read_from) = Ok (target, path) →
  (∀ items, path ≠ VList items) →
  _resolve_yaml_path ext path folder = Raise e →
  chain_include ext dumper folder key prop read_from (scope, w)
  = (Raise e, (scope, with_ctx (fun c => set_file_stack (file_stack c ++ [path]) c) w)).
Proof.
  intros Hfetch Hlist Hresolve.
  unfold chain_include, bind, gets, the_read_from, ret, lift, in_world.
  destruct read_from as [r|]; cbn -[_resolve_yaml_path for_each fetch_value] in *;
    rewrite Hfetch; cbn -[_resolve_yaml_path for_each];
    (destruct path; try (exfalso; eapply Hlist; reflexivity);
     cbn -[_resolve_yaml_path]; unfold bind; cbn -[_resolve_yaml_path];
     rewrite Hresolve; reflexivity).
Qed.

(** C8: a chain-include that fails leaves its path on [file_stack]. The pop
    of line 73 sits inside the [try] after the merge, so the handler of line
    74 is entered with the path still pushed: the stack was empty before the
    document and holds "missing.yaml" after it. *)
Theorem failed_include_stays_on_file_stack :
  let r := PlotStyle_init (machine []) doc_missing_include VNone default_options
             new_world in
  file_stack (ctx new_world) = []
  ∧ r.1 = Ok [("title", VStr "t")]
  ∧ warned r.2 = [IgnoreField "inc" FileNotFoundError]
  ∧ file_stack (ctx r.2) = [VStr "missing.yaml"].
Proof.
  repeat split; vm_compute; reflexivity.
Qed.

(** ** Repeated construction *)

(** C9: the default [ctx] of line 260 is one object shared by every
    construction that leaves [ctx] out, and [__init__] stores the localised
    affix registry back into it. After a construction that registered a suffix
    for "name", two successive constructions from the same plain document and
    the same options give different mappings. *)
Theorem shared_default_context_breaks_idempotence :
  let m := machine [] in
  let earlier := PlotStyle_init m doc_nested_suffix VNone default_options new_world in
  let first := PlotStyle_init m doc_plain_name VNone default_options earlier.2 in
  let second := PlotStyle_init m doc_plain_name VNone default_options first.2 in
  first.1 = Ok [("name", VList [VStr "r"; VDict [("en", VStr "x")]])]
  ∧ second.1 = Ok [("name", VList [VStr "r"; VStr "x"])]
  ∧ first.1 ≠ second.1.
Proof.
  assert (H1 : (PlotStyle_init (machine []) doc_plain_name VNone default_options
                  (PlotStyle_init (machine []) doc_nested_suffix VNone default_options
                     new_world).2).1
               = Ok [("name", VList [VStr "r"; VDict [("en", VStr "x")]])])
    by (vm_compute; reflexivity).
  assert (H2 : (PlotStyle_init (machine []) doc_plain_name VNone default_options
                  (PlotStyle_init (machine []) doc_plain_name VNone default_options
                     (PlotStyle_init (machine []) doc_nested_suffix VNone
                        default_options new_world).2).2).1
               = Ok [("name", VList [VStr "r"; VStr "x"])])
    by (vm_compute; reflexivity).
  cbv zeta. rewrite H1, H2. repeat split. discriminate.
Qed.

(** ** Computations that cannot raise *)

Section Returns.
Context {S : Type}.

Lemma returns_with_ret {A} (P : A → Prop) (a : A) : P a → returns_with (S:=S) P (ret a).
Proof. intros HP s. exists a, s. split; [reflexivity | exact HP]. Qed.

Lemma returns_with_bind {A B} (P : A → Prop) (Q : B → Prop)
    (m : M S A) (k : A → M S B) :
  returns_with P m → (∀ a, P a → returns_with Q (k a)) → returns_with Q (bind m k).
Proof.
  intros Hm Hk s. destruct (Hm s) as (a & s1 & Heq & HP).
  destruct (Hk a HP s1) as (b & s2 & Heq2 & HQ).
  exists b, s2. unfold bind. rewrite Heq. split; assumption.
Qed.

Lemma returns_with_weaken {A} (P Q : A → Prop) (m : M S A) :
  (∀ a, P a → Q a) → returns_with P m → returns_with Q m.
Proof.
  intros HPQ Hm s. destruct (Hm s) as (a & s1 & Heq & HP). exists a, s1. auto.
Qed.

Lemma returns_bind {A B} (m : M S A) (k : A → M S B) :
  returns m → (∀ a, returns (k a)) → returns (bind m k).
Proof.
  intros Hm Hk. apply (returns_with_bind (fun _ => True)); [exact Hm|].
  intros a _. apply Hk.
Qed.

(** A [try] whose handler cannot raise cannot raise either. *)
Lemma returns_try_except {A} (m : M S A) (h : exn → M S A) :
  (∀ e, returns (h e)) → returns (try_except m h).
Proof.
  intros Hh s. unfold try_except. destruct (m s) as [[a|e] s1].
  - exists a, s1. auto.
  - exact (Hh e s1).
Qed.

Lemma returns_modify (f : S → S) : returns (modify f).
Proof. intros s. exists tt, (f s). auto. Qed.

Lemma returns_gets {A} (f : S → A) : returns (gets f).
Proof. intros s. exists (f s), s. auto. Qed.

Lemma returns_for_each {A} (l : list A) (body : A → M S unit) :
  Forall (fun x => returns (body x)) l → returns (for_each l body).
Proof.
  induction 1 as [|x l Hx _ IH]; simpl.
  - apply returns_with_ret. exact I.
  - apply returns_bind; auto.
Qed.
End Returns.

Lemma returns_in_world {A} (P : A → Prop) (m : M world A) :
  returns_with P m → returns_with P (in_world m).
Proof.
  intros Hm [d w]. destruct (Hm w) as (a & w1 & Heq & HP).
  exists a, (d, w1). unfold in_world. simpl. rewrite Heq. auto.
Qed.

Lemma returns_warn (wn : warning) : returns (warn wn).
Proof. apply returns_modify. Qed.

Lemma returns_record_keep (ext : Externals) (key : string) (prop : dict) :
  returns (record_keep ext key prop).
Proof.
  unfold record_keep. destruct (dict_get KEEP prop).
  - apply returns_try_except. intros _. apply returns_with_ret. exact I.
  - apply returns_with_ret. exact I.
Qed.

Lemma returns_register_affixable (ext : Externals) (key : string) (prop : dict)
    (dumper : value → dict → M world dict) (dump_to read_from : dict) :
  returns (register_affixable ext key prop dumper dump_to read_from).
Proof.
  unfold register_affixable. apply returns_for_each.
  apply Forall_forall. intros affix_type _.
  apply returns_try_except. intros e. apply returns_warn.
Qed.

(** ** Normalisation *)

Lemma dict_mem_setdefault {A} (k k' : string) (v : A) (d : list (string * A)) :
  dict_mem k (dict_setdefault k' v d) = dict_mem k d || String.eqb k k'.
Proof.
  unfold dict_setdefault. destruct (dict_mem k' d) eqn:Hmem.
  - destruct (String.eqb_spec k k') as [->|_].
    + rewrite Hmem. reflexivity.
    + rewrite orb_false_r. reflexivity.
  - unfold dict_mem. rewrite dict_get_app. simpl.
    destruct (dict_get k d); [reflexivity|]. destruct (String.eqb k k'); reflexivity.
Qed.

Lemma normalize_prop_Ok (key : string) (raw_prop : value) (w w1 : world) (prop : dict) :
  normalize_prop key raw_prop w = (Ok prop, w1) →
  normalizes raw_prop = true ∧ dict_mem VALIDATOR prop = true.
Proof.
  unfold normalize_prop, normalizes, raise, ret.
  destruct raw_prop as [| | | | | | |entries|payload []];
    try (intros [= <- _]; split; reflexivity).
  - destruct (dict_mem VALUE entries) eqn:Hval.
    + intros [= <- _]. split; [reflexivity|].
      rewrite !dict_mem_setdefault. rewrite orb_true_r. reflexivity.
    + unfold bind. destruct (PropSchema.looks_explicit entries);
        intros [= <- _]; split; reflexivity.
  - destruct payload as [| | | | | | |entries|]; try (intros [=]; fail).
    destruct (dict_mem VALUE entries) eqn:Hval; [|intros [=]].
    intros [= <- _]. split; [reflexivity|].
    unfold with_defaults. simpl. rewrite !dict_mem_setdefault.
    rewrite orb_true_r. reflexivity.
Qed.

Lemma normalize_prop_returns (key : string) (raw_prop : value) :
  normalizes raw_prop = true →
  returns_with (fun prop => dict_mem VALIDATOR prop = true) (normalize_prop key raw_prop).
Proof.
  intros Hn w. destruct (normalize_prop key raw_prop w) as [[prop|e] w1] eqn:Hrun.
  - exists prop, w1. split; [reflexivity|]. exact (proj2 (normalize_prop_Ok _ _ _ _ _ Hrun)).
  - exfalso. revert Hrun. unfold normalize_prop, normalizes, raise, ret in *.
    destruct raw_prop as [| | | | | | |entries|payload []]; try (intros [=]; fail).
    + destruct (dict_mem VALUE entries); [intros [=]|].
      unfold bind. destruct (PropSchema.looks_explicit entries); intros [=].
    + destruct payload as [| | | | | | |entries|]; try discriminate.
      rewrite Hn. intros [=].
Qed.

Lemma normalize_prop_raises (key : string) (raw_prop : value) (w : world) :
  normalizes raw_prop = false →
  normalize_prop key raw_prop w = (Raise ValueError, w).
Proof.
  unfold normalize_prop, normalizes.
  destruct raw_prop as [| | | | | | |entries|payload []]; try discriminate.
  destruct payload as [| | | | | | |entries|]; try reflexivity. intros ->. reflexivity.
Qed.

(** ** One round of the merge loop *)

Section DumpField.
Variable ext : Externals.
Variable dumper : value → option dict → M frame dict.
Variable folder : string.
Variable read_from : option dict.

(** The entry normalises, so the round cannot raise: whatever goes wrong
    later is caught by the handlers of lines 74, 81, 94 and 208. *)
Lemma dump_field_returns (entry : string * value) :
  normalizes entry.2 = true →
  returns (dump_field ext dumper folder read_from entry).
Proof.
  intros Hn. unfold dump_field.
  eapply returns_with_bind.
  { apply returns_in_world. apply normalize_prop_returns. exact Hn. }
  intros prop Hv. apply returns_bind.
  { apply returns_in_world. apply returns_modify. }
  intros _. unfold dict_getitem, dict_mem in *.
  destruct (dict_get VALIDATOR prop) as [validator|]; [|discriminate].
  apply returns_bind. { intros s. exists validator, s. auto. }
  intros v.
  assert (Hhandler : ∀ e, returns (S:=frame)
            (in_world (warn (IgnoreField entry.1 e)) ;; ret false)).
  { intros e. apply returns_bind.
    - apply returns_in_world. apply returns_warn.
    - intros _. apply returns_with_ret. exact I. }
  destruct (is_str v PROP_STRING_VALIDATION_YAML).
  - apply returns_bind; [apply returns_try_except; exact Hhandler|].
    intros [|]; [|apply returns_with_ret; exact I].
    apply returns_in_world. apply returns_record_keep.
  - apply returns_bind; [apply returns_try_except; exact Hhandler|].
    intros [|]; [|apply returns_with_ret; exact I].
    apply returns_bind; [apply returns_gets|]. intros dump_to.
    apply returns_bind.
    { unfold the_read_from. destruct read_from;
        [apply returns_with_ret; exact I | apply returns_gets]. }
    intros read. apply returns_bind.
    + apply returns_in_world. apply returns_register_affixable.
    + intros _. apply returns_in_world. apply returns_record_keep.
Qed.

(** The entry does not normalise: the ValueError of line 142 leaves the
    round, and with it the loop. *)
Lemma dump_field_normalize_failure (key : string) (raw_prop : value)
    (scope : dict) (w : world) :
  normalizes raw_prop = false →
  dump_field ext dumper folder read_from (key, raw_prop) (scope, w)
  = (Raise ValueError, (scope, w)).
Proof.
  intros Hn. unfold dump_field, bind, in_world. simpl.
  rewrite (normalize_prop_raises key raw_prop w Hn). reflexivity.
Qed.

(** The value of the field cannot be fetched or parsed: one warning that
    names the field, the scope as it was, and the round ends normally. *)
Lemma dump_field_parse_failure (key : string) (raw_prop : value)
    (scope : dict) (w w1 w3 : world) (prop : dict) (validator : value) (e : exn) :
  normalize_prop key raw_prop w = (Ok prop, w1) →
  dict_get VALIDATOR prop = Some validator →
  is_str validator PROP_STRING_VALIDATION_YAML = false →
  parse_prop ext key (VDict prop)
    (fun h r => fresh_target (dumper h (Some r))) scope (default scope read_from)
    (record_prop key prop w1) = (Raise e, w3) →
  dump_field ext dumper folder read_from (key, raw_prop) (scope, w)
  = (Ok tt, (scope, add_warning (IgnoreField key e) w3)).
Proof.
  intros Hnorm Hval Hyaml Hparse.
  unfold dump_field, bind, in_world, dict_getitem, lift. simpl.
  rewrite Hnorm. simpl. rewrite Hval, Hyaml.
  unfold try_except, the_read_from, gets, bind, in_world, ret. simpl.
  unfold record_prop in Hparse.
  destruct read_from as [r|]; simpl in *; rewrite Hparse; reflexivity.
Qed.

(** A chain-include that fails: one warning that names the field, and the
    round ends normally in the state the failure left behind. *)
Lemma dump_field_chain_failure (key : string) (raw_prop : value)
    (scope : dict) (w w1 : world) (prop : dict) (validator : value) (e : exn)
    (s' : frame) :
  normalize_prop key raw_prop w = (Ok prop, w1) →
  dict_get VALIDATOR prop = Some validator →
  is_str validator PROP_STRING_VALIDATION_YAML = true →
  chain_include ext dumper folder key prop read_from
    (scope, record_prop key prop w1) = (Raise e, s') →
  dump_field ext dumper folder read_from (key, raw_prop) (scope, w)
  = (Ok tt, (s'.1, add_warning (IgnoreField key e) s'.2)).
Proof.
  intros Hnorm Hval Hyaml Hchain.
  unfold dump_field, bind, in_world, dict_getitem, lift. simpl.
  rewrite Hnorm. simpl. rewrite Hval, Hyaml.
  unfold try_except, bind. unfold record_prop in Hchain. simpl in *.
  rewrite Hchain. destruct s' as [d w']. reflexivity.
Qed.

(** The value of the field is parsed: it is written to the scope under the
    key, then the affixes of the descriptor are registered and its [keep] is
    recorded, both of which end normally. *)
Lemma dump_field_parse_success (key : string) (raw_prop : value)
    (scope : dict) (w w1 w3 : world) (prop : dict) (validator parsed : value) :
  normalize_prop key raw_prop w = (Ok prop, w1) →
  dict_get VALIDATOR prop = Some validator →
  is_str validator PROP_STRING_VALIDATION_YAML = false →
  parse_prop ext key (VDict prop)
    (fun h r => fresh_target (dumper h (Some r))) scope (default scope read_from)
    (record_prop key prop w1) = (Ok parsed, w3) →
  dump_field ext dumper folder read_from (key, raw_prop) (scope, w)
  = (Ok tt,
     (dict_set key parsed scope,
      (record_keep ext key prop
         (register_affixable ext key prop
            (fun h r => fresh_target (dumper h (Some r)))
            (dict_set key parsed scope)
            (default (dict_set key parsed scope) read_from) w3).2).2)).
Proof.
  intros Hnorm Hval Hyaml Hparse.
  unfold dump_field, bind, in_world, dict_getitem, lift. simpl.
  rewrite Hnorm. simpl. rewrite Hval, Hyaml.
  unfold try_except, the_read_from, gets, bind, in_world, ret, modify. simpl.
  unfold record_prop in Hparse.
  destruct read_from as [r|]; simpl in *; rewrite Hparse; simpl;
    match goal with
    | |- context [register_affixable ext key prop ?cb ?d ?rd w3] =>
        destruct (returns_register_affixable ext key prop cb d rd w3)
          as ([] & w4 & Hreg & _);
        rewrite Hreg; simpl;
        destruct (returns_record_keep ext key prop w4) as ([] & w5 & Hkeep & _);
        rewrite Hkeep; reflexivity
    end.
Qed.

(** A chain-include that succeeds: the round ends in the frame the included
    files left, with the [keep] of the descriptor recorded. *)
Lemma dump_field_chain_success (key : string) (raw_prop : value)
    (scope : dict) (w w1 : world) (prop : dict) (validator : value) (s' : frame) :
  normalize_prop key raw_prop w = (Ok prop, w1) →
  dict_get VALIDATOR prop = Some validator →
  is_str validator PROP_STRING_VALIDATION_YAML = true →
  chain_include ext dumper folder key prop read_from
    (scope, record_prop key prop w1) = (Ok tt, s') →
  dump_field ext dumper folder read_from (key, raw_prop) (scope, w)
  = (Ok tt, (s'.1, (record_keep ext key prop s'.2).2)).
Proof.
  intros Hnorm Hval Hyaml Hchain.
  unfold dump_field, bind, in_world, dict_getitem, lift. simpl.
  rewrite Hnorm. simpl. rewrite Hval, Hyaml.
  unfold try_except, bind. unfold record_prop in Hchain. simpl in *.
  rewrite Hchain. destruct s' as [d w']. simpl.
  destruct (returns_record_keep ext key prop w') as ([] & w5 & Hkeep & _).
  rewrite Hkeep. reflexivity.
Qed.

(** Over entries that all normalise the loop runs every round, in order. *)
Lemma for_each_rounds (entries : dict) (s : frame) :
  Forall (fun entry => normalizes entry.2 = true) entries →
  for_each entries (dump_field ext dumper folder read_from) s
  = (Ok tt, rounds ext dumper folder read_from entries s).
Proof.
  intros Hall. revert s.
  induction Hall as [|entry entries Hn _ IH]; intros s; [reflexivity|].
  cbn [for_each]. unfold bind at 1.
  destruct (dump_field_returns entry Hn s) as ([] & s1 & Heq & _).
  unfold rounds. cbn [fold_left]. rewrite Heq. cbn [snd]. exact (IH s1).
Qed.

(** The first entry that does not normalise ends the loop with ValueError, in
    the frame that the rounds before it left. *)
Lemma for_each_rounds_abort (pre post : dict) (key : string) (raw_prop : value)
    (s : frame) :
  Forall (fun entry => normalizes entry.2 = true) pre →
  normalizes raw_prop = false →
  for_each (pre ++ (key, raw_prop) :: post) (dump_field ext dumper folder read_from) s
  = (Raise ValueError, rounds ext dumper folder read_from pre s).
Proof.
  intros Hall Hn. revert s.
  induction Hall as [|entry entries Hok _ IH]; intros s.
  - cbn [app for_each]. unfold bind at 1. destruct s as [scope w].
    rewrite (dump_field_normalize_failure key raw_prop scope w Hn). reflexivity.
  - cbn [app for_each]. unfold bind at 1.
    destruct (dump_field_returns entry Hok s) as ([] & s1 & Heq & _).
    unfold rounds. cbn [fold_left]. rewrite Heq. cbn [snd]. exact (IH s1).
Qed.
End DumpField.

(** A document whose top-level entries all normalise is merged to the end:
    [_dump_to_dict] returns the scope it built. *)
Lemma dump_to_dict_returns (ext : Externals) (fuel : nat) (folder : string)
    (handle : dict) (read_from : option dict) (s : frame) :
  Forall (fun entry => normalizes entry.2 = true) (ignore_configs handle) →
  ∃ scope w',
    _dump_to_dict ext (S fuel) folder (VDict handle) read_from s = (Ok scope, (scope, w')).
Proof.
  intros Hall. simpl. unfold bind at 1. simpl. unfold bind.
  assert (Hloop : returns
            (for_each (ignore_configs handle)
               (dump_field ext (_dump_to_dict ext fuel folder) folder read_from))).
  { apply returns_for_each. eapply Forall_impl; [exact Hall|].
    intros entry Hn. apply dump_field_returns. exact Hn. }
  destruct (Hloop s) as ([] & [scope w'] & Heq & _). rewrite Heq.
  exists scope, w'. reflexivity.
Qed.

(** ** Per-field isolation *)

Lemma dump_to_dict_rounds (ext : Externals) (fuel : nat) (folder : string)
    (handle : dict) (read_from : option dict) (s : frame) :
  Forall (fun entry => normalizes entry.2 = true) (ignore_configs handle) →
  _dump_to_dict ext (S fuel) folder (VDict handle) read_from s
  = (Ok (rounds ext (_dump_to_dict ext fuel folder) folder read_from
           (ignore_configs handle) s).1,
     rounds ext (_dump_to_dict ext fuel folder) folder read_from
       (ignore_configs handle) s).
Proof.
  intros Hall. cbn [_dump_to_dict py_dict]. unfold bind at 1, lift. cbn [fst snd].
  unfold bind. rewrite (for_each_rounds _ _ _ _ _ _ Hall). reflexivity.
Qed.

Lemma dump_to_dict_rounds_abort (ext : Externals) (fuel : nat) (folder : string)
    (handle pre post : dict) (key : string) (raw_prop : value)
    (read_from : option dict) (s : frame) :
  ignore_configs handle = pre ++ (key, raw_prop) :: post →
  Forall (fun entry => normalizes entry.2 = true) pre →
  normalizes raw_prop = false →
  _dump_to_dict ext (S fuel) folder (VDict handle) read_from s
  = (Raise ValueError,
     rounds ext (_dump_to_dict ext fuel folder) folder read_from pre s).
Proof.
  intros Hsplit Hall Hn. cbn [_dump_to_dict py_dict]. unfold bind at 1, lift.
  cbn [fst snd]. unfold bind. rewrite Hsplit.
  rewrite (for_each_rounds_abort _ _ _ _ _ _ _ _ _ Hall Hn). reflexivity.
Qed.

Lemma affix_step (ext : Externals) (key : string) (prop : dict)
    (dumper : value → dict → M world dict) (dump_to read_from : dict)
    (affix_type : string) (w : world) :
  try_except
    (match dict_get affix_type prop with
     | Some sub_prop =>
         if negb (is_empty_dict sub_prop) then
           parsed <- parse_prop ext key sub_prop dumper dump_to read_from ;;
           modify (with_ctx (fun c => set_affix
                     (dict_set (PropSchema.format_key key affix_type) parsed (affix c)) c))
         else ret tt
     | None => ret tt
     end)
    (fun e => warn (IgnoreField (key +:+ "." +:+ affix_type) e)) w
  = (Ok tt, affix_round ext key prop dumper dump_to read_from affix_type w).
Proof.
  unfold try_except, affix_round.
  destruct (dict_get affix_type prop) as [sub_prop|]; [|reflexivity].
  destruct (is_empty_dict sub_prop); [reflexivity|]. cbn [negb]. unfold bind.
  destruct (parse_prop ext key sub_prop dumper dump_to read_from w) as [[parsed|e] w1];
    reflexivity.
Qed.

(** [register_affixable] cannot raise: the prefix, then the suffix, each
    registered or given up with a warning. *)
Lemma register_affixable_rounds (ext : Externals) (key : string) (prop : dict)
    (dumper : value → dict → M world dict) (dump_to read_from : dict) (w : world) :
  register_affixable ext key prop dumper dump_to read_from w
  = (Ok tt,
     affix_round ext key prop dumper dump_to read_from SUFFIX
       (affix_round ext key prop dumper dump_to read_from PREFIX w)).
Proof.
  unfold register_affixable, PropSchema.iter_affixes, PropSchema.AFFIX_KEYS.
  cbn [for_each]. unfold bind at 1. rewrite affix_step.
  unfold bind at 1. rewrite affix_step. reflexivity.
Qed.

(** C1 (amended). Inside one document every failure after normalisation is
    caught where it happens, and the loop goes on. (1) A document whose
    top-level entries normalise is merged to the end: every entry has its
    round, in the order of the document and from the frame the round before
    it left, and the scope after the last round is returned. (2, 3) A field
    whose value cannot be fetched or parsed ends its round normally with one
    warning that names it and the scope as it was; a field that parses is
    written to the scope under its key. (4, 5) A chain-include that fails
    ends its round normally with one warning that names the field. (6, 7, 8)
    Registering the prefix and the suffix of a field never raises: an affix
    that cannot be parsed leaves one warning that names the field and the
    affix type, and no entry in the registry. (9, 10) Normalisation is outside
    the handlers: an entry tagged explicit without a "value" raises
    ValueError out of its round, and out of the loop after the rounds of the
    entries before it; the entries after it have no round. *)
Theorem per_field_isolation (ext : Externals) :
  (∀ fuel folder handle read_from s,
     Forall (fun entry => normalizes entry.2 = true) (ignore_configs handle) →
     _dump_to_dict ext (S fuel) folder (VDict handle) read_from s
     = (Ok (rounds ext (_dump_to_dict ext fuel folder) folder read_from
              (ignore_configs handle) s).1,
        rounds ext (_dump_to_dict ext fuel folder) folder read_from
          (ignore_configs handle) s))
  ∧ (∀ dumper folder read_from key raw_prop scope w w1 w3 prop validator e,
       normalize_prop key raw_prop w = (Ok prop, w1) →
       dict_get VALIDATOR prop = Some validator →
       is_str validator PROP_STRING_VALIDATION_YAML = false →
       parse_prop ext key (VDict prop)
         (fun h r => fresh_target (dumper h (Some r))) scope (default scope read_from)
         (record_prop key prop w1) = (Raise e, w3) →
       dump_field ext dumper folder read_from (key, raw_prop) (scope, w)
       = (Ok tt, (scope, add_warning (IgnoreField key e) w3)))
  ∧ (∀ dumper folder read_from key raw_prop scope w w1 w3 prop validator parsed,
       normalize_prop key raw_prop w = (Ok prop, w1) →
       dict_get VALIDATOR prop = Some validator →
       is_str validator PROP_STRING_VALIDATION_YAML = false →
       parse_prop ext key (VDict prop)
         (fun h r => fresh_target (dumper h (Some r))) scope (default scope read_from)
         (record_prop key prop w1) = (Ok parsed, w3) →
       dump_field ext dumper folder read_from (key, raw_prop) (scope, w)
       = (Ok tt,
          (dict_set key parsed scope,
           (record_keep ext key prop
              (register_affixable ext key prop
                 (fun h r => fresh_target (dumper h (Some r)))
                 (dict_set key parsed scope)
                 (default (dict_set key parsed scope) read_from) w3).2).2)))
  ∧ (∀ dumper folder read_from key raw_prop scope w w1 prop validator e s',
       normalize_prop key raw_prop w = (Ok prop, w1) →
       dict_get VALIDATOR prop = Some validator →
       is_str validator PROP_STRING_VALIDATION_YAML = true →
       chain_include ext dumper folder key prop read_from
         (scope, record_prop key prop w1) = (Raise e, s') →
       dump_field ext dumper folder read_from (key, raw_prop) (scope, w)
       = (Ok tt, (s'.1, add_warning (IgnoreField key e) s'.2)))
  ∧ (∀ dumper folder read_from key raw_prop scope w w1 prop validator s',
       normalize_prop key raw_prop w = (Ok prop, w1) →
       dict_get VALIDATOR prop = Some validator →
       is_str validator PROP_STRING_VALIDATION_YAML = true →
       chain_include ext dumper folder key prop read_from
         (scope, record_prop key prop w1) = (Ok tt, s') →
       dump_field ext dumper folder read_from (key, raw_prop) (scope, w)
       = (Ok tt, (s'.1, (record_keep ext key prop s'.2).2)))
  ∧ (∀ key prop dumper dump_to read_from w,
       register_affixable ext key prop dumper dump_to read_from w
       = (Ok tt,
          affix_round ext key prop dumper dump_to read_from SUFFIX
            (affix_round ext key prop dumper dump_to read_from PREFIX w)))
  ∧ (∀ key prop dumper dump_to read_from w w1 sub_prop e,
       dict_get PREFIX prop = Some sub_prop →
       is_empty_dict sub_prop = false →
       parse_prop ext key sub_prop dumper dump_to read_from w = (Raise e, w1) →
       register_affixable ext key prop dumper dump_to read_from w
       = (Ok tt,
          affix_round ext key prop dumper dump_to read_from SUFFIX
            (add_warning (IgnoreField (key +:+ "." +:+ PREFIX) e) w1)))
  ∧ (∀ key prop dumper dump_to read_from w w1 sub_prop e,
       dict_get SUFFIX prop = Some sub_prop →
       is_empty_dict sub_prop = false →
       parse_prop ext key sub_prop dumper dump_to read_from
         (affix_round ext key prop dumper dump_to read_from PREFIX w) = (Raise e, w1) →
       register_affixable ext key prop dumper dump_to read_from w
       = (Ok tt, add_warning (IgnoreField (key +:+ "." +:+ SUFFIX) e) w1))
  ∧ (∀ dumper folder read_from key raw_prop scope w,
       normalizes raw_prop = false →
       dump_field ext dumper folder read_from (key, raw_prop) (scope, w)
       = (Raise ValueError, (scope, w)))
  ∧ (∀ fuel folder handle pre post key raw_prop read_from s,
       ignore_configs handle = pre ++ (key, raw_prop) :: post →
       Forall (fun entry => normalizes entry.2 = true) pre →
       normalizes raw_prop = false →
       _dump_to_dict ext (S fuel) folder (VDict handle) read_from s
       = (Raise ValueError,
          rounds ext (_dump_to_dict ext fuel folder) folder read_from pre s)).
Proof.
  repeat apply conj.
  - intros. apply dump_to_dict_rounds. assumption.
  - intros. eapply dump_field_parse_failure; eassumption.
  - intros. eapply dump_field_parse_success; eassumption.
  - intros. eapply dump_field_chain_failure; eassumption.
  - intros. eapply dump_field_chain_success; eassumption.
  - intros. apply register_affixable_rounds.
  - intros key prop dumper dump_to read_from w w1 sub_prop e Hget Hne Hparse.
    rewrite register_affixable_rounds. do 2 f_equal.
    unfold affix_round at 1. rewrite Hget, Hne. cbv zeta. rewrite Hparse. reflexivity.
  - intros key prop dumper dump_to read_from w w1 sub_prop e Hget Hne Hparse.
    rewrite register_affixable_rounds. f_equal.
    unfold affix_round at 1. rewrite Hget, Hne. cbv zeta. rewrite Hparse. reflexivity.
  - intros. apply dump_field_normalize_failure. assumption.
  - intros. eapply dump_to_dict_rounds_abort; eassumption.
Qed.

Lemma per_field_isolation_witness :
  Forall (fun entry : string * value => normalizes entry.2 = true)
    (ignore_configs [("good", VInt 1);
                     ("bad", VDict [("value", VInt 3); ("validator", VStr "nosuch")]);
                     ("other", VInt 2)])
  ∧ (∃ w',
       _dump_to_dict (machine []) 1 DEFAULT_CONFIGS_FOLDER doc_unknown_validator None
         ([], new_world)
       = (Ok [("good", VInt 1); ("other", VInt 2)],
          ([("good", VInt 1); ("other", VInt 2)], w'))
       ∧ warned w' = [IgnoreField "bad" (ParseError "bad" UnkownValidator)]).
Proof.
  assert (H : Forall (fun entry : string * value => normalizes entry.2 = true)
                (ignore_configs [("good", VInt 1);
                     ("bad", VDict [("value", VInt 3); ("validator", VStr "nosuch")]);
                     ("other", VInt 2)])).
  { repeat constructor. }
  split; [exact H|].
  exists (rounds (machine []) (_dump_to_dict (machine []) 0 DEFAULT_CONFIGS_FOLDER)
            DEFAULT_CONFIGS_FOLDER None
            (ignore_configs [("good", VInt 1);
                     ("bad", VDict [("value", VInt 3); ("validator", VStr "nosuch")]);
                     ("other", VInt 2)]) ([], new_world)).2.
  split; [|vm_compute; reflexivity].
  unfold doc_unknown_validator.
  rewrite (proj1 (per_field_isolation (machine [])) 0%nat DEFAULT_CONFIGS_FOLDER _ None
             ([], new_world) H).
  vm_compute. reflexivity.
Defined.

(** The isolation at work: the field with an unregistered validator is left
    out, the two others are resolved, and one warning names the bad field. *)
Example unknown_validator_is_isolated :
  let r := PlotStyle_init (machine []) doc_unknown_validator VNone default_options
             new_world in
  r.1 = Ok [("good", VInt 1); ("other", VInt 2)]
  ∧ warned r.2 = [IgnoreField "bad" (ParseError "bad" UnkownValidator)].
Proof.
  split; vm_compute; reflexivity.
Qed.

(** C1 as claimed fails: the entry "bad" is tagged explicit and has no
    "value"; the construction raises ValueError, nothing is returned (the
    fields "good" and "other" included) and no warning is issued. *)
Lemma explicit_without_value_aborts :
  let r := PlotStyle_init (machine []) doc_explicit_without_value VNone
             default_options new_world in
  r.1 = Raise ValueError ∧ warned r.2 = [].
Proof.
  split; vm_compute; reflexivity.
Qed.

(** ** More on mappings *)

Section AlistMore.
Context {A : Type}.
Implicit Types (d e : list (string * A)) (k : string) (v : A).

Lemma dict_mem_spec k d : dict_mem k d = true ↔ k ∈ dict_keys d.
Proof.
  unfold dict_mem. induction d as [|[k' v'] d IH]; simpl.
  - split; [discriminate | intros H; inversion H].
  - rewrite elem_of_cons. destruct (String.eqb_spec k k') as [->|Hne].
    + split; auto.
    + rewrite IH. split; [auto | intros [?|?]; [congruence | assumption]].
Qed.

Lemma dict_keys_replace k v d : dict_keys (dict_replace k v d) = dict_keys d.
Proof.
  induction d as [|[k' v'] d IH]; simpl; [reflexivity|]. f_equal. exact IH.
Qed.

Lemma dict_keys_set k v d :
  dict_keys (dict_set k v d) = if dict_mem k d then dict_keys d else dict_keys d ++ [k].
Proof.
  unfold dict_set. destruct (dict_mem k d).
  - apply dict_keys_replace.
  - unfold dict_keys. rewrite map_app. reflexivity.
Qed.

Lemma dict_set_NoDup k v d : NoDup (dict_keys d) → NoDup (dict_keys (dict_set k v d)).
Proof.
  intros Hnd. rewrite dict_keys_set. destruct (dict_mem k d) eqn:Hmem; [exact Hnd|].
  apply NoDup_app. split; [exact Hnd|]. split.
  - intros x Hx Hx'. apply list_elem_of_singleton in Hx'. subst x.
    apply dict_mem_spec in Hx. congruence.
  - apply NoDup_singleton.
Qed.

Lemma dict_replace_app k v d e :
  dict_replace k v (d ++ e) = dict_replace k v d ++ dict_replace k v e.
Proof.
  induction d as [|[k' v'] d IH]; simpl; [reflexivity|]. f_equal. exact IH.
Qed.

Lemma dict_replace_notin k v d : dict_mem k d = false → dict_replace k v d = d.
Proof.
  unfold dict_mem. induction d as [|[k' v'] d IH]; simpl; [reflexivity|].
  destruct (String.eqb k k'); [discriminate|]. intros H. f_equal. exact (IH H).
Qed.

Lemma dict_mem_app k d e : dict_mem k (d ++ e) = dict_mem k d || dict_mem k e.
Proof.
  unfold dict_mem. rewrite dict_get_app. destruct (dict_get k d); reflexivity.
Qed.

Lemma dict_mem_replace k k' v d : dict_mem k (dict_replace k' v d) = dict_mem k d.
Proof.
  unfold dict_mem. rewrite dict_get_replace.
  destruct (String.eqb_spec k k') as [->|_]; [|reflexivity].
  unfold dict_mem. destruct (dict_get k' d); reflexivity.
Qed.

Lemma dict_mem_set k k' v d : dict_mem k (dict_set k' v d) = String.eqb k k' || dict_mem k d.
Proof.
  unfold dict_mem. rewrite dict_get_set. destruct (String.eqb k k'); reflexivity.
Qed.

Lemma dict_replace_replace_same k v v' d :
  dict_replace k v (dict_replace k v' d) = dict_replace k v d.
Proof.
  induction d as [|[k1 v1] d IH]; simpl; [reflexivity|].
  rewrite IH. destruct (String.eqb k k1); reflexivity.
Qed.

Lemma dict_replace_comm k1 v1 k2 v2 d :
  k1 ≠ k2 →
  dict_replace k1 v1 (dict_replace k2 v2 d) = dict_replace k2 v2 (dict_replace k1 v1 d).
Proof.
  intros Hne. induction d as [|[k v] d IH]; simpl; [reflexivity|].
  rewrite IH. f_equal. f_equal.
  destruct (String.eqb_spec k1 k) as [->|_]; destruct (String.eqb_spec k2 k) as [->|_];
    congruence.
Qed.

Lemma dict_set_set_same k v v' d : dict_set k v (dict_set k v' d) = dict_set k v d.
Proof.
  unfold dict_set at 1. rewrite dict_mem_set, String.eqb_refl. simpl.
  unfold dict_set. destruct (dict_mem k d) eqn:Hmem.
  - apply dict_replace_replace_same.
  - rewrite dict_replace_app. simpl. rewrite String.eqb_refl.
    rewrite dict_replace_notin by exact Hmem. reflexivity.
Qed.

Lemma dict_set_comm k1 v1 k2 v2 d :
  k1 ≠ k2 → dict_mem k1 d = true →
  dict_set k2 v2 (dict_set k1 v1 d) = dict_set k1 v1 (dict_set k2 v2 d).
Proof.
  intros Hne Hmem.
  assert (Hne' : String.eqb k1 k2 = false) by (apply String.eqb_neq; exact Hne).
  assert (Hne'' : String.eqb k2 k1 = false) by (apply String.eqb_neq; congruence).
  unfold dict_set at 2. rewrite Hmem.
  unfold dict_set at 1. rewrite dict_mem_replace.
  unfold dict_set at 1. rewrite dict_mem_set, Hmem, orb_true_r.
  unfold dict_set. destruct (dict_mem k2 d).
  - apply dict_replace_comm. congruence.
  - rewrite dict_replace_app. simpl. rewrite Hne'. reflexivity.
Qed.

Lemma dict_update_snoc d e k v :
  dict_update d (e ++ [(k, v)]) = dict_set k v (dict_update d e).
Proof. unfold dict_update. rewrite fold_left_app. reflexivity. Qed.

Lemma dict_mem_update k d e :
  dict_mem k (dict_update d e) = dict_mem k d || dict_mem k e.
Proof.
  induction e as [|[k1 v1] e IH] using rev_ind.
  - simpl. rewrite orb_false_r. reflexivity.
  - rewrite dict_update_snoc, dict_mem_set, IH, dict_mem_app. clear IH.
    replace (dict_mem k [(k1, v1)]) with (String.eqb k k1)
      by (unfold dict_mem; simpl; destruct (String.eqb k k1); reflexivity).
    destruct (String.eqb k k1), (dict_mem k d), (dict_mem k e); reflexivity.
Qed.

Lemma dict_update_replace u k v d :
  dict_mem k d = true →
  dict_update u (dict_replace k v d) = dict_set k v (dict_update u d).
Proof.
  induction d as [|[k1 v1] d IH] using rev_ind; [discriminate|].
  rewrite dict_mem_app. intros Hmem.
  rewrite dict_replace_app. simpl. rewrite !dict_update_snoc.
  destruct (dict_mem k d) eqn:Hd.
  - rewrite (IH eq_refl).
    assert (HX : dict_mem k (dict_update u d) = true)
      by (rewrite dict_mem_update, Hd; apply orb_true_r).
    destruct (String.eqb_spec k k1) as [->|Hne].
    + rewrite !dict_set_set_same. reflexivity.
    + apply dict_set_comm; assumption.
  - rewrite (dict_replace_notin _ _ _ Hd).
    unfold dict_mem in Hmem at 1. simpl in Hmem.
    destruct (String.eqb_spec k k1) as [->|Hne]; [|discriminate].
    rewrite dict_set_set_same. reflexivity.
Qed.

(** Writing a key after an update is updating with the key written. *)
Lemma dict_set_update u k v d :
  dict_set k v (dict_update u d) = dict_update u (dict_set k v d).
Proof.
  unfold dict_set at 2. destruct (dict_mem k d) eqn:Hmem.
  - symmetry. apply dict_update_replace. exact Hmem.
  - rewrite dict_update_snoc. reflexivity.
Qed.

(** Updating a mapping whose values were rewritten with the original
    restores the original. *)
Lemma dict_update_self_values (f : A → A) d :
  NoDup (dict_keys d) →
  dict_update (map (fun kv => (kv.1, f kv.2)) d) d = d.
Proof.
  intros Hnd.
  assert (Hgen : ∀ pre, NoDup (dict_keys (pre ++ d)) →
            dict_update (pre ++ map (fun kv => (kv.1, f kv.2)) d) d = pre ++ d).
  { clear Hnd. induction d as [|[k v] d IH]; intros pre Hnd; simpl.
    - reflexivity.
    - unfold dict_update. simpl. fold (dict_update (A:=A)).
      assert (Hset : dict_set k v (pre ++ (k, f v) :: map (fun kv => (kv.1, f kv.2)) d)
                     = (pre ++ [(k, v)]) ++ map (fun kv => (kv.1, f kv.2)) d).
      { unfold dict_keys in Hnd. rewrite map_app in Hnd. simpl in Hnd.
        apply NoDup_app in Hnd as (Hpre & Hdisj & Hrest).
        apply NoDup_cons in Hrest as [Hk Hrest].
        assert (Hkpre : dict_mem k pre = false).
        { destruct (dict_mem k pre) eqn:H; [|reflexivity].
          apply dict_mem_spec in H. exfalso. apply (Hdisj k H). left. }
        assert (Hkd : dict_mem k (map (fun kv => (kv.1, f kv.2)) d) = false).
        { destruct (dict_mem k (map _ d)) eqn:H; [|reflexivity].
          apply dict_mem_spec in H. rewrite dict_keys_map_values in H. contradiction. }
        unfold dict_set. rewrite dict_mem_app. unfold dict_mem at 2. simpl.
        rewrite String.eqb_refl, orb_true_r.
        rewrite dict_replace_app. simpl. rewrite String.eqb_refl.
        rewrite (dict_replace_notin _ _ _ Hkpre), (dict_replace_notin _ _ _ Hkd).
        rewrite <- app_assoc. reflexivity. }
      change (fold_left (λ acc kv, dict_set kv.1 kv.2 acc) d
                (dict_set k v (pre ++ (k, f v) :: map (fun kv => (kv.1, f kv.2)) d)))
        with (dict_update (dict_set k v (pre ++ (k, f v) :: map (fun kv => (kv.1, f kv.2)) d)) d).
      rewrite Hset. rewrite IH.
      + rewrite <- app_assoc. reflexivity.
      + rewrite <- app_assoc. exact Hnd. }
  apply (Hgen []). exact Hnd.
Qed.
End AlistMore.

(** ** Locality *)

Lemma merge_new_r (u : world) : merge u new_world = u.
Proof.
  destruct u as [[k d m f a s] wn]. unfold merge, merge_ctx, new_world, new_ParseContext.
  cbn [ctx warned explicitly_kept explicitly_deleted marked_for_delete field_props affix
       file_stack].
  rewrite (right_id_L ∅ (∪) k), (right_id_L ∅ (∪) d), (left_id_L ∅ (∪) f), !app_nil_r.
  reflexivity.
Qed.

Section Local.
Context {S : Type} (act : world → S → S) (good : S → Prop).

Lemma local_ret {A} (a : A) s : local_at act good s (ret a).
Proof. split; [auto | reflexivity]. Qed.

Lemma local_raise {A} e s : local_at act good s (raise (A:=A) e).
Proof. split; [auto | reflexivity]. Qed.

Lemma local_lift {A} (r : result A) s : local_at act good s (lift r).
Proof. split; [auto | reflexivity]. Qed.

Lemma local_bind {A B} (m : M S A) (k : A → M S B) s :
  local_at act good s m →
  (∀ a, (m s).1 = Ok a → local_at act good (m s).2 (k a)) →
  local_at act good s (bind m k).
Proof.
  intros [Hg Hm] Hk. unfold local_at, bind in *.
  destruct (m s) as [[a|e] s1] eqn:Heq; simpl in *.
  - destruct (Hk a eq_refl) as [Hg' Hk']. split; [auto|].
    intros u. rewrite Hm. apply Hk'.
  - split; [auto|]. intros u. rewrite Hm. reflexivity.
Qed.

Lemma local_try {A} (m : M S A) (h : exn → M S A) s :
  local_at act good s m →
  (∀ e, (m s).1 = Raise e → local_at act good (m s).2 (h e)) →
  local_at act good s (try_except m h).
Proof.
  intros [Hg Hm] Hh. unfold local_at, try_except in *.
  destruct (m s) as [[a|e] s1] eqn:Heq; simpl in *.
  - split; [auto|]. intros u. rewrite Hm. reflexivity.
  - destruct (Hh e eq_refl) as [Hg' Hh']. split; [auto|].
    intros u. rewrite Hm. apply Hh'.
Qed.

Lemma local_for_each {A} (l : list A) (body : A → M S unit) :
  (∀ x s, x ∈ l → local_at act good s (body x)) →
  ∀ s, local_at act good s (for_each l body).
Proof.
  induction l as [|x l IH]; intros Hb s; simpl.
  - apply local_ret.
  - apply local_bind; [apply Hb; left|]. intros _ _. apply IH.
    intros y s' Hy. apply Hb. right. exact Hy.
Qed.

Lemma local_for_all {A} (l : list A) (body : A → M S bool) :
  (∀ x s, x ∈ l → local_at act good s (body x)) →
  ∀ s, local_at act good s (for_all l body).
Proof.
  induction l as [|x l IH]; intros Hb s; simpl.
  - apply local_ret.
  - apply local_bind; [apply Hb; left|]. intros [|] _; [|apply local_ret].
    apply IH. intros y s' Hy. apply Hb. right. exact Hy.
Qed.

Lemma local_fold_m {A B} (l : list A) (body : B → A → M S B) :
  (∀ acc x s, x ∈ l → local_at act good s (body acc x)) →
  ∀ acc s, local_at act good s (fold_m l acc body).
Proof.
  induction l as [|x l IH]; intros Hb acc s; simpl.
  - apply local_ret.
  - apply local_bind; [apply Hb; left|]. intros acc' _. apply IH.
    intros acc'' y s' Hy. apply Hb. right. exact Hy.
Qed.
End Local.


Lemma stateless_local {A} (m : M world A) w : stateless m → wlocal w m.
Proof.
  intros Hs. split.
  - rewrite (Hs w). auto.
  - intros u. rewrite (Hs (merge u w)), (Hs w). reflexivity.
Qed.

Lemma stateless_ret {A} (a : A) : stateless (ret a).
Proof. intros w. reflexivity. Qed.
Lemma stateless_raise {A} e : stateless (raise (A:=A) e).
Proof. intros w. reflexivity. Qed.
Lemma stateless_lift {A} (r : result A) : stateless (lift r).
Proof. intros w. reflexivity. Qed.
Lemma stateless_bind {A B} (m : M world A) (k : A → M world B) :
  stateless m → (∀ a, stateless (k a)) → stateless (bind m k).
Proof.
  intros Hm Hk w. unfold bind. rewrite (Hm w), (Hm new_world).
  destruct (m new_world).1 as [a|e]; simpl; [|reflexivity]. apply Hk.
Qed.

Lemma local_in_world {A} (m : M world A) (sc : dict) (w : world) :
  wlocal w m → flocal (sc, w) (in_world m).
Proof.
  intros [Hg Hm]. unfold local_at, in_world, merge_frame in *. simpl.
  split.
  - destruct (m w). simpl in *. exact Hg.
  - intros u. rewrite Hm. destruct (m w). reflexivity.
Qed.

Lemma local_fresh_target {A} (m : M frame A) (w : world) :
  flocal ([], w) m → wlocal w (fresh_target m).
Proof.
  intros [Hg Hm]. unfold local_at, fresh_target, merge_frame in *. simpl in *.
  split.
  - destruct (m ([], w)) as [r [sc w']]. simpl in *. exact Hg.
  - intros u. rewrite Hm. destruct (m ([], w)) as [r [sc w']]. reflexivity.
Qed.

Lemma local_warn wn w : wlocal w (warn wn).
Proof.
  split; [auto|]. intros u. unfold warn, modify, merge. simpl.
  rewrite app_assoc. reflexivity.
Qed.

Lemma local_record_prop key prop w :
  wlocal w (modify (with_ctx (fun c => set_field_props (<[key := prop]> (field_props c)) c))).
Proof.
  split; [auto|]. intros u. unfold modify, merge, merge_ctx, with_ctx. simpl.
  rewrite insert_union_l. reflexivity.
Qed.

Lemma local_add_kept key w :
  wlocal w (modify (with_ctx (fun c => set_explicitly_kept ({[key]} ∪ explicitly_kept c) c))).
Proof.
  split; [auto|]. intros u. unfold modify, merge, merge_ctx, with_ctx. simpl.
  unfold set_explicitly_kept. simpl.
  rewrite (assoc_L (∪) {[key]}), (comm_L (∪) {[key]}), <- (assoc_L (∪)). reflexivity.
Qed.

Lemma local_add_deleted key w :
  wlocal w (modify (with_ctx (fun c => set_explicitly_deleted ({[key]} ∪ explicitly_deleted c) c))).
Proof.
  split; [auto|]. intros u. unfold modify, merge, merge_ctx, with_ctx. simpl.
  unfold set_explicitly_deleted. simpl.
  rewrite (assoc_L (∪) {[key]}), (comm_L (∪) {[key]}), <- (assoc_L (∪)). reflexivity.
Qed.

Lemma local_set_affix key v w :
  wlocal w (modify (with_ctx (fun c => set_affix (dict_set key v (affix c)) c))).
Proof.
  split.
  - unfold affix_wf. simpl. apply dict_set_NoDup.
  - intros u. unfold modify, merge, merge_ctx, with_ctx. simpl.
    rewrite dict_set_update. reflexivity.
Qed.

Lemma local_file_stack_append path w : wlocal w (file_stack_append path).
Proof.
  split; [auto|]. intros u. unfold file_stack_append, modify, merge, merge_ctx, with_ctx.
  simpl. rewrite app_assoc. reflexivity.
Qed.

Lemma local_file_stack_pop w : file_stack (ctx w) ≠ [] → wlocal w file_stack_pop.
Proof.
  intros Hne. split.
  { unfold file_stack_pop, bind, gets, affix_wf. simpl.
    destruct (file_stack (ctx w)); simpl; auto. }
  intros u. unfold file_stack_pop, bind, gets.
  assert (Hm : file_stack (ctx (merge u w)) = file_stack (ctx u) ++ file_stack (ctx w))
    by reflexivity.
  rewrite Hm.
  destruct (file_stack (ctx w)) as [|x l] eqn:Hfs; [congruence|].
  destruct (file_stack (ctx u) ++ x :: l) as [|y l'] eqn:Happ.
  { destruct (file_stack (ctx u)); discriminate. }
  unfold modify, merge, merge_ctx, with_ctx, set_file_stack. cbn -[removelast].
  rewrite <- Happ. rewrite removelast_app by discriminate. reflexivity.
Qed.

(** ** Validators are local *)

Ltac stateless_cases :=
  let w := fresh "w" in
  intros w;
  cbv [parse validate sanitize bind ret raise lift parse_if_valid sanitize_or converts
       PathstrValidator FilenameValidator YamlValidator YamlValidator_validate
       FileformatValidator FileformatValidator_validate StrValidator BoolValidator
       ColorValidator FloatValidator IntValidator UndeterminedValidator
       FontfamilyValidator FontsizeValidator LinewidthValidator
       FigsizeValidator FigsizeValidator_validate fst snd];
  repeat case_match; simplify_eq; reflexivity.

Section ValidatorsLocal.
Variable ext : Externals.

Lemma stateless_bool_validate v fp : stateless (validate (BoolValidator) v fp).
Proof. stateless_cases. Qed.
Lemma stateless_bool_parse v fp : stateless (parse (BoolValidator) v fp).
Proof. stateless_cases. Qed.
Lemma stateless_pathstr_validate v fp : stateless (validate (PathstrValidator ext) v fp).
Proof. stateless_cases. Qed.
Lemma stateless_yaml_validate v fp : stateless (validate (YamlValidator ext) v fp).
Proof. stateless_cases. Qed.
Lemma stateless_yaml_parse v fp : stateless (parse (YamlValidator ext) v fp).
Proof. stateless_cases. Qed.

Section Composite.
Variable fp : field_parser.
Hypothesis fp_local : ∀ h w, wlocal w (fp h).

Lemma local_DictValidator_validate v w : wlocal w (DictValidator_validate v (Some fp)).
Proof.
  unfold DictValidator_validate. destruct v; try apply local_ret.
  apply local_try; [|intros; apply local_ret].
  apply local_bind; [|intros; apply local_ret].
  apply local_for_each. intros kv s _.
  apply local_bind; [apply fp_local | intros; apply local_ret].
Qed.

Lemma local_parse_entries entries w : wlocal w (parse_entries fp entries).
Proof.
  unfold parse_entries. apply local_fold_m. intros acc kv s _.
  apply local_bind; [apply fp_local|]. intros sub _.
  apply local_bind; [apply local_lift | intros; apply local_ret].
Qed.

Lemma local_DictValidator_parse v w : wlocal w (DictValidator_parse v (Some fp)).
Proof.
  unfold DictValidator_parse. apply local_bind; [apply local_DictValidator_validate|].
  intros ok _. destruct ok; simpl; [|apply local_raise].
  destruct v; try apply local_raise.
  apply local_bind; [apply local_parse_entries | intros; apply local_ret].
Qed.

Lemma local_GridoptionsValidator_validate v w :
  wlocal w (GridoptionsValidator_validate v (Some fp)).
Proof.
  unfold GridoptionsValidator_validate. destruct v; try apply local_ret.
  apply local_for_all. intros item s _. destruct item; try apply local_ret.
  apply local_try; [|intros; apply local_ret].
  apply local_for_all. intros kv s' _. destruct (is_dict kv.2); [|apply local_ret].
  apply local_bind; [apply fp_local | intros; apply local_ret].
Qed.

Lemma local_GridoptionsValidator_parse v w :
  wlocal w (GridoptionsValidator_parse v (Some fp)).
Proof.
  unfold GridoptionsValidator_parse.
  apply local_bind; [apply local_GridoptionsValidator_validate|].
  intros ok _. destruct ok; simpl; [|apply local_raise].
  destruct v; try apply local_raise.
  apply local_bind; [|intros; apply local_ret].
  apply local_fold_m. intros acc item s _. destruct item; try apply local_raise.
  apply local_bind; [apply local_parse_entries | intros; apply local_ret].
Qed.

Lemma local_PlotoptionsValidator_parse v w :
  wlocal w (PlotoptionsValidator_parse v (Some fp)).
Proof.
  unfold PlotoptionsValidator_parse.
  apply local_bind; [apply fp_local | intros; apply local_ret].
Qed.

(** Every registered validator's [parse] is local when its callback is. *)
Lemma local_validator_parse name validator v w :
  dict_get name (VALIDATORS ext) = Some validator →
  wlocal w (parse validator v (Some fp)).
Proof.
  unfold VALIDATORS. simpl. intros H.
  repeat match type of H with
         | (if ?b then _ else _) = _ =>
             destruct b;
             [injection H as <-;
              first [ apply local_DictValidator_parse
                    | apply local_GridoptionsValidator_parse
                    | apply local_PlotoptionsValidator_parse
                    | apply stateless_local; stateless_cases ]
             |]
         end.
  discriminate H.
Qed.
End Composite.
End ValidatorsLocal.

(** ** The merge is local *)

Lemma in_world_stateless_state {A} (m : M world A) (s : frame) :
  stateless m → (in_world m s).2 = s.
Proof.
  intros Hs. unfold in_world. rewrite (Hs s.2). destruct s. reflexivity.
Qed.

Lemma local_gets_fst s : flocal s (gets fst).
Proof. split; [auto | reflexivity]. Qed.

Lemma local_set_scope key v s :
  flocal s (modify (fun s : frame => (dict_set key v s.1, s.2))).
Proof. split; [auto | reflexivity]. Qed.

Lemma local_the_read_from rf s : flocal s (the_read_from rf).
Proof. unfold the_read_from. destruct rf; [apply local_ret | apply local_gets_fst]. Qed.

(** What a local computation leaves behind extends what it started from. *)
Lemma flocal_extends {A} (m : M frame A) (s : frame) :
  flocal (s.1, new_world) m →
  ∃ e, (m s).2.2 = merge s.2 e.
Proof.
  intros [_ Hm]. specialize (Hm s.2). unfold merge_frame in Hm. simpl in Hm.
  rewrite merge_new_r in Hm. destruct s as [sc w]. simpl in *. rewrite Hm. simpl.
  eexists. reflexivity.
Qed.

Section EngineLocal.
Variable ext : Externals.

Lemma VALIDATORS_get_Some name validator :
  VALIDATORS_get ext name = Ok (Some validator) →
  ∃ s, dict_get s (VALIDATORS ext) = Some validator.
Proof.
  unfold VALIDATORS_get. destruct name as [| | | |s| | | |]; simpl;
    try (destruct (forallb hashable _)); intros [= H].
  exists s. exact H.
Qed.

Lemma local_parse_prop key prop (dumper : value → dict → M world dict) dump_to read_from :
  (∀ h r w, wlocal w (dumper h r)) →
  ∀ w, wlocal w (parse_prop ext key prop dumper dump_to read_from).
Proof.
  intros Hd w. unfold parse_prop. apply local_try.
  - apply local_bind; [apply local_lift|]. intros name _.
    apply local_bind; [apply local_lift|]. intros found Hfound.
    destruct found as [validator|]; [|apply local_raise].
    apply local_bind; [apply local_lift|]. intros fetched _.
    simpl in Hfound. apply VALIDATORS_get_Some in Hfound as [s Hs].
    eapply local_validator_parse; [|exact Hs]. intros h w'. apply Hd.
  - intros e _. apply local_bind; [apply local_lift | intros; apply local_raise].
Qed.

Lemma local_register_affixable key prop (dumper : value → dict → M world dict)
    dump_to read_from :
  (∀ h r w, wlocal w (dumper h r)) →
  ∀ w, wlocal w (register_affixable ext key prop dumper dump_to read_from).
Proof.
  intros Hd. unfold register_affixable. apply local_for_each. intros affix_type w _.
  apply local_try; [|intros; apply local_warn].
  destruct (dict_get affix_type prop) as [sub|]; [|apply local_ret].
  destruct (negb (is_empty_dict sub)); [|apply local_ret].
  apply local_bind; [apply local_parse_prop; exact Hd|].
  intros parsed _. apply local_set_affix.
Qed.

Lemma local_record_keep key prop w : wlocal w (record_keep ext key prop).
Proof.
  unfold record_keep. destruct (dict_get KEEP prop) as [keep_val|]; [|apply local_ret].
  apply local_try; [|intros; apply local_ret].
  apply local_bind; [apply stateless_local, stateless_bool_validate|].
  intros ok _. destruct ok; [|apply local_ret].
  apply local_bind; [apply stateless_local, stateless_bool_parse|].
  intros parsed _. destruct (truthy ext parsed); [apply local_add_kept | apply local_add_deleted].
Qed.

Section WithDumper.
Variable dumper : value → option dict → M frame dict.
Hypothesis dumper_local : ∀ h rf s, flocal s (dumper h rf).
Variable folder : string.

Lemma local_nested h r w : wlocal w (fresh_target (dumper h (Some r))).
Proof. apply local_fresh_target. apply dumper_local. Qed.

Lemma local_chain_include key prop rf s :
  flocal s (chain_include ext dumper folder key prop rf).
Proof.
  unfold chain_include.
  apply local_bind; [apply local_gets_fst|]. intros dump_to _.
  apply local_bind; [apply local_the_read_from|]. intros read _.
  apply local_bind; [apply local_lift|]. intros fetched _.
  match goal with |- local_at _ _ ?st _ => generalize st end. clear s.
  apply local_for_each. intros path s _.
  apply local_bind.
  { destruct s. apply local_in_world, local_file_stack_append. }
  intros _ _.
  assert (Hs1 : file_stack (ctx (in_world (file_stack_append path) s).2.2) ≠ []).
  { destruct s as [sc w]. simpl. destruct (file_stack (ctx w)); discriminate. }
  revert Hs1. generalize ((in_world (file_stack_append path) s).2). clear s.
  intros s1 Hs1.
  match goal with |- local_at _ _ ?st _ => change st with s1 end.
  apply local_bind; [apply local_lift|]. intros resolved _.
  change ((lift (_resolve_yaml_path ext path folder) s1).2) with s1.
  apply local_bind.
  { destruct s1. apply local_in_world, stateless_local, stateless_yaml_parse. }
  intros normed _. rewrite in_world_stateless_state by apply stateless_yaml_parse.
  apply local_bind; [apply local_lift|]. intros included _.
  match goal with |- local_at _ _ (lift ?r ?s).2 _ => change ((lift r s).2) with s end.
  apply local_bind; [apply dumper_local|]. intros _ _.
  destruct (flocal_extends (dumper (VDict included) None) s1) as [e He];
    [apply dumper_local|].
  destruct ((dumper (VDict included) None s1).2) as [sc2 w2]. simpl in He. subst w2.
  apply local_in_world, local_file_stack_pop.
  simpl. intros Happ. apply app_eq_nil in Happ as [H _]. contradiction.
Qed.

Lemma local_normalize_prop key raw w : wlocal w (normalize_prop key raw).
Proof.
  unfold normalize_prop.
  destruct raw as [| | | | | | |entries|payload []]; try apply local_ret.
  - destruct (dict_mem VALUE entries); [apply local_ret|].
    apply local_bind; [|intros; apply local_ret].
    destruct (PropSchema.looks_explicit entries); [apply local_warn | apply local_ret].
  - destruct payload as [| | | | | | |entries|]; try apply local_raise.
    destruct (dict_mem VALUE entries); [apply local_ret | apply local_raise].
Qed.

Lemma local_dump_field rf entry s :
  flocal s (dump_field ext dumper folder rf entry).
Proof.
  unfold dump_field.
  assert (Hwarn : ∀ e (b : bool) s',
            flocal s' (in_world (warn (IgnoreField entry.1 e)) ;; ret b)).
  { intros e b [sc w]. apply local_bind; [apply local_in_world, local_warn|].
    intros; apply local_ret. }
  assert (Hkeep : ∀ prop s', flocal s' (in_world (record_keep ext entry.1 prop))).
  { intros prop [sc w]. apply local_in_world, local_record_keep. }
  apply local_bind.
  { destruct s. apply local_in_world, local_normalize_prop. }
  intros prop _. apply local_bind.
  { destruct (in_world _ s).2. apply local_in_world, local_record_prop. }
  intros _ _. apply local_bind; [apply local_lift|]. intros validator _.
  destruct (is_str validator PROP_STRING_VALIDATION_YAML).
  - apply local_bind.
    + apply local_try; [|intros; apply Hwarn].
      apply local_bind; [apply local_chain_include | intros; apply local_ret].
    + intros [|] _; [apply Hkeep | apply local_ret].
  - apply local_bind.
    + apply local_try; [|intros; apply Hwarn].
      apply local_bind; [apply local_gets_fst|]. intros dump_to _.
      apply local_bind; [apply local_the_read_from|]. intros read _.
      apply local_bind.
      { match goal with |- local_at _ _ ?st _ => destruct st end.
        apply local_in_world, local_parse_prop. intros. apply local_nested. }
      intros parsed _.
      apply local_bind; [apply local_set_scope | intros; apply local_ret].
    + intros [|] _; [|apply local_ret].
      apply local_bind; [apply local_gets_fst|]. intros dump_to _.
      apply local_bind; [apply local_the_read_from|]. intros read _.
      apply local_bind; [|intros; apply Hkeep].
      match goal with |- local_at _ _ ?st _ => destruct st end.
      apply local_in_world, local_register_affixable. intros. apply local_nested.
Qed.
End WithDumper.

Lemma local_dump_to_dict fuel folder :
  ∀ h rf s, flocal s (_dump_to_dict ext fuel folder h rf).
Proof.
  induction fuel as [|fuel IH]; intros h rf s; simpl.
  - apply local_raise.
  - apply local_bind; [apply local_lift|]. intros handle _.
    apply local_bind; [|intros; apply local_gets_fst].
    apply local_for_each. intros entry s' _. apply local_dump_field. exact IH.
Qed.

Lemma local_yaml_parse_from_dict handle folder w :
  wlocal w (_yaml_parse_from_dict ext handle folder).
Proof. apply local_fresh_target, local_dump_to_dict. Qed.

Lemma local_load_params yaml_dict yaml_file opts w :
  wlocal w (PlotStyle_load_params ext yaml_dict yaml_file opts).
Proof.
  unfold PlotStyle_load_params.
  assert (Hdict : ∀ w', wlocal w'
            (handle <- lift (py_dict yaml_dict) ;;
             p <- _yaml_parse_from_dict ext handle (folder_name (configs_folder opts)) ;;
             ret (Some p))).
  { intros w'. apply local_bind; [apply local_lift|]. intros handle _.
    apply local_bind; [apply local_yaml_parse_from_dict | intros; apply local_ret]. }
  assert (Hfile : ∀ w', wlocal w'
      (file_stack_append yaml_file ;;
       entry <- match yaml_file with
                | VStr name =>
                    if negb (os_path_isabs ext name)
                    then r <- lift (_resolve_yaml_path ext yaml_file
                                      (folder_name (configs_folder opts))) ;;
                         ret (VStr r)
                    else ret yaml_file
                | _ => raise TypeError
                end ;;
       p <- _yaml_parse_single_file ext entry (folder_name (configs_folder opts)) ;;
       ret (Some p))).
  { intros w'. apply local_bind; [apply local_file_stack_append|]. intros _ _.
    apply local_bind.
    { destruct yaml_file; try apply local_raise.
      destruct (negb _); [|apply local_ret].
      apply local_bind; [apply local_lift | intros; apply local_ret]. }
    intros entry _. apply local_bind; [|intros; apply local_ret].
    unfold _yaml_parse_single_file.
    apply local_bind; [apply local_lift|]. intros f _.
    apply local_bind; [apply local_lift|]. intros handle _.
    apply local_yaml_parse_from_dict. }
  destruct yaml_dict; try apply Hdict.
  destruct yaml_file; try apply Hfile. apply local_ret.
Qed.
End EngineLocal.

(** ** After the merge *)

Lemma resolve_marked_eq (w : world) :
  _resolve_marked_for_delete w =
    match compute_marks (field_props (ctx w)) (explicitly_kept (ctx w))
            (explicitly_deleted (ctx w)) with
    | Ok marked => (Ok tt, with_ctx (set_marked_for_delete marked) w)
    | Raise e => (Raise e, w)
    end.
Proof.
  unfold _resolve_marked_for_delete, compute_marks, bind, gets, lift, modify. simpl.
  destruct (fold_result add_referenced _ _); simpl; [|reflexivity].
  destruct (fold_result (infer_mark _) _ _); reflexivity.
Qed.

Lemma stateless_input_validate ext yaml_dict yaml_file opts :
  stateless (PlotStyle_input_validate ext yaml_dict yaml_file opts).
Proof.
  unfold PlotStyle_input_validate.
  apply stateless_bind; [apply stateless_pathstr_validate|].
  intros ok. destruct (negb ok); [apply stateless_raise|].
  apply stateless_bind.
  { destruct (truthy ext _); [apply stateless_pathstr_validate | apply stateless_ret]. }
  intros ok'. destruct (negb ok'); [apply stateless_raise|].
  assert (Hfile : stateless
            (resolved <- lift (_resolve_yaml_path ext yaml_file
                                 (folder_name (configs_folder opts))) ;;
             ok0 <- validate (YamlValidator ext) (VStr resolved) None ;;
             if negb ok0 then raise ValueError else ret tt)).
  { apply stateless_bind; [apply stateless_lift|]. intros resolved.
    apply stateless_bind; [apply stateless_yaml_validate|].
    intros ok0. destruct (negb ok0); [apply stateless_raise | apply stateless_ret]. }
  destruct yaml_dict; try (destruct (is_dict _); [apply stateless_ret | apply stateless_raise]).
  destruct yaml_file; try exact Hfile. apply stateless_ret.
Qed.

Lemma finish_Ok ext opts p d result w1 :
  PlotStyle_finish ext opts p d = (Ok result, w1) →
  ∃ params marked,
    p = Some params
    ∧ compute_marks (field_props (ctx d)) (explicitly_kept (ctx d))
        (explicitly_deleted (ctx d)) = Ok marked
    ∧ keep_all_fields opts = true
    ∧ apply_affixes ext (localize (language opts) params)
        (localize (language opts) (affix (ctx d))) = Ok result
    ∧ w1 = with_ctx (set_affix (localize (language opts) (affix (ctx d))))
             (with_ctx (set_marked_for_delete marked) d).
Proof.
  unfold PlotStyle_finish, bind. rewrite resolve_marked_eq.
  destruct (compute_marks _ _ _) as [marked|e]; [|intros [=]].
  destruct p as [params|]; [|intros [=]]. simpl. unfold lift, localize.
  destruct (apply_affixes _ _ _) as [r|e] eqn:Happ; [|intros [=]].
  destruct (keep_all_fields opts); simpl; intros [= <- <-].
  exists params, marked. auto.
Qed.



(** Two more ways in which one field ends the whole construction, both after
    the merge: a reference whose value is a list is skipped with a warning by
    the merge and then makes the inference raise TypeError when it is put in a
    set (line 127); a suffix declared on a field nested under a dict validator
    is registered in the one affix registry, and composing it looks the nested
    key up in the top-level parameters (line 214). *)
Example failures_after_the_merge :
  let a := PlotStyle_init (machine []) doc_unhashable_reference VNone default_options
             new_world in
  let b := PlotStyle_init (machine []) doc_nested_suffix_field VNone default_options
             new_world in
  a.1 = Raise TypeError
  ∧ warned a.2 = [IgnoreField "x" (ParseError "x" TypeError)]
  ∧ b.1 = Raise KeyError
  ∧ warned b.2 = [].
Proof.
  repeat split; vm_compute; reflexivity.
Qed.

(** ** Two constructions from a fresh context *)

(** X3. From a context that holds nothing yet, a second construction with the
    same arguments returns the mapping of the first: the merge is local, the second
    run rewrites every descriptor and every affix the first one left, and the
    sets only receive what they hold already. What C9 misses is a context that
    was used before for something else. *)
Proposition fresh_context_runs_agree (ext : Externals) (yaml_dict yaml_file : value)
    (opts : Options) (result : dict) (w1 : world) :
  PlotStyle_init ext yaml_dict yaml_file opts new_world = (Ok result, w1) →
  (PlotStyle_init ext yaml_dict yaml_file opts w1).1 = Ok result.
Proof.
  intros Hrun. unfold PlotStyle_init, bind in *.
  pose proof (stateless_input_validate ext yaml_dict yaml_file opts) as Hst.
  rewrite (Hst w1). rewrite (Hst new_world) in Hrun.
  destruct ((PlotStyle_input_validate ext yaml_dict yaml_file opts new_world).1)
    as [[]|e]; simpl in *; [|discriminate].
  destruct (local_load_params ext yaml_dict yaml_file opts new_world) as [Hgood Hloc].
  specialize (Hloc w1). rewrite merge_new_r in Hloc. rewrite Hloc. clear Hloc.
  destruct (PlotStyle_load_params ext yaml_dict yaml_file opts new_world) as [[p|e] d];
    simpl in *; [|discriminate].
  assert (Hwf : affix_wf d) by (apply Hgood; unfold affix_wf; simpl; apply NoDup_nil_2).
  destruct (PlotStyle_finish ext opts p d) as [[a|e] d'] eqn:Hfin; [|discriminate].
  unfold lift in *.
  destruct (PlotStyle_set_attributes a) as [[]|e] eqn:Hset; [|discriminate].
  injection Hrun as <- <-.
  apply finish_Ok in Hfin as (params & marked & -> & Hmarks & Hkeep & Happ & ->).
  unfold PlotStyle_finish, bind. rewrite resolve_marked_eq.
  unfold merge, merge_ctx. simpl.
  rewrite !(idemp_L (∪)), Hmarks. simpl.
  unfold lift, localize in *. rewrite dict_update_self_values by exact Hwf.
  rewrite Happ, Hkeep. simpl. rewrite Hset. reflexivity.
Qed.

(** ** A failed field is still a reference *)






(** The whole run: "f" fails (unregistered validator) and is absent from the
    result, yet "t", which only "f" references, is marked for deletion;
    without "f" in the document it is not. A key that nothing references is
    not marked, whatever the source of its own descriptor: "t" in the second
    document, "f" in the first. *)
Example failed_reference_marks_its_target :
  let with_f := PlotStyle_init (machine []) doc_failed_reference VNone default_options
                  new_world in
  let without_f := PlotStyle_init (machine []) doc_plain_reference VNone
                     default_options new_world in
  with_f.1 = Ok [("a", VInt 1); ("t", VInt 1)]
  ∧ ("t" ∈ marked_for_delete (ctx with_f.2))
  ∧ ("f" ∉ marked_for_delete (ctx with_f.2))
  ∧ without_f.1 = Ok [("a", VInt 1); ("t", VInt 1)]
  ∧ ("t" ∉ marked_for_delete (ctx without_f.2)).
Proof.
  repeat split; try (vm_compute; reflexivity);
    apply (bool_decide_unpack _); vm_compute; exact I.
Qed.

(** * Further properties of the engine *)

(** ** The merge and the context it is given *)

Lemma wlocal_from_new {A} (m : M world A) (w : world) :
  wlocal new_world m → m w = ((m new_world).1, merge w (m new_world).2).
Proof. intros [_ H]. specialize (H w). rewrite merge_new_r in H. exact H. Qed.

Section ListsLocal.
Variable ext : Externals.

Lemma local_yaml_parse_from_dict_into handle folder merged w :
  wlocal w (_yaml_parse_from_dict_into ext handle folder merged).
Proof.
  destruct (local_dump_to_dict ext (recursion_limit ext) folder (VDict handle) None
              (merged, w)) as [Hg Hm].
  unfold local_at, _yaml_parse_from_dict_into, merge_frame in *. simpl in *. split.
  - destruct (_dump_to_dict _ _ _ _ _ (merged, w)) as [r [sc w']]. simpl in *. exact Hg.
  - intros u. rewrite Hm.
    destruct (_dump_to_dict _ _ _ _ _ (merged, w)) as [r [sc w']]. reflexivity.
Qed.

Lemma local_yaml_parse_list entry_list folder w :
  wlocal w (_yaml_parse_list ext entry_list folder).
Proof.
  unfold _yaml_parse_list. destruct entry_list; try apply local_raise.
  apply local_fold_m. intros merged file w' _.
  apply local_bind; [apply local_lift|]. intros entry_file _.
  apply local_bind; [apply local_lift|]. intros handle _.
  apply local_yaml_parse_from_dict_into.
Qed.

Lemma local_yaml_parse_single_file entry_file folder w :
  wlocal w (_yaml_parse_single_file ext entry_file folder).
Proof.
  unfold _yaml_parse_single_file.
  apply local_bind; [apply local_lift|]. intros f _.
  apply local_bind; [apply local_lift|]. intros handle _.
  apply local_yaml_parse_from_dict.
Qed.

(** X1. The mapping that a merge returns does not depend on what the parse
    context it is given already holds: from a used context, a document, a
    file and a list of files resolve to what they resolve to from a new
    one. *)
Theorem merged_scope_ignores_context (handle : dict) (entry_file entry_list : value)
    (folder : string) (w : world) :
  (_yaml_parse_from_dict ext handle folder w).1
  = (_yaml_parse_from_dict ext handle folder new_world).1
  ∧ (_yaml_parse_single_file ext entry_file folder w).1
    = (_yaml_parse_single_file ext entry_file folder new_world).1
  ∧ (_yaml_parse_list ext entry_list folder w).1
    = (_yaml_parse_list ext entry_list folder new_world).1.
Proof.
  repeat split.
  - rewrite (wlocal_from_new _ w (local_yaml_parse_from_dict ext handle folder new_world)).
    reflexivity.
  - rewrite (wlocal_from_new _ w (local_yaml_parse_single_file entry_file folder new_world)).
    reflexivity.
  - rewrite (wlocal_from_new _ w (local_yaml_parse_list entry_list folder new_world)).
    reflexivity.
Qed.

(** X2. A merge only adds to the context: the warnings and the file stack it
    started from are a prefix of what it leaves, the explicit keep and delete
    sets and the keys of the recorded descriptors only grow, and the deletion
    marks are not touched. *)
Theorem merge_only_adds_to_context (handle : dict) (folder : string) (w : world) :
  let w' := (_yaml_parse_from_dict ext handle folder w).2 in
  warned w `prefix_of` warned w'
  ∧ file_stack (ctx w) `prefix_of` file_stack (ctx w')
  ∧ explicitly_kept (ctx w) ⊆ explicitly_kept (ctx w')
  ∧ explicitly_deleted (ctx w) ⊆ explicitly_deleted (ctx w')
  ∧ dom (field_props (ctx w)) ⊆ dom (field_props (ctx w'))
  ∧ marked_for_delete (ctx w') = marked_for_delete (ctx w).
Proof.
  cbv zeta.
  rewrite (wlocal_from_new _ w (local_yaml_parse_from_dict ext handle folder new_world)).
  simpl. repeat split.
  - apply prefix_app_r. reflexivity.
  - apply prefix_app_r. reflexivity.
  - apply union_subseteq_l.
  - apply union_subseteq_l.
  - rewrite dom_union. apply union_subseteq_r.
Qed.
End ListsLocal.

(** X3, at the document of C2: the second construction runs in the context
    the first one left and returns the same mapping. *)
Lemma fresh_context_runs_agree_witness :
  let first := PlotStyle_init (machine []) doc_doubled VNone default_options new_world in
  first.1 = Ok [("base", VInt 10); ("doubled", VInt 10)]
  ∧ (PlotStyle_init (machine []) doc_doubled VNone default_options first.2).1
    = Ok [("base", VInt 10); ("doubled", VInt 10)].
Proof.
  intros first.
  assert (H1 : first.1 = Ok [("base", VInt 10); ("doubled", VInt 10)])
    by (vm_compute; reflexivity).
  split; [exact H1|].
  apply (fresh_context_runs_agree (machine []) doc_doubled VNone default_options
           [("base", VInt 10); ("doubled", VInt 10)] first.2).
  rewrite <- H1. apply surjective_pairing.
Defined.

(** ** What a merge does to the scope it works on *)

Lemma scope_grows_refl d : scope_grows d d.
Proof. split; [reflexivity | auto]. Qed.

Lemma scope_grows_trans a b c : scope_grows a b → scope_grows b c → scope_grows a c.
Proof. intros [H1 H2] [H3 H4]. split; [etrans; eassumption | auto]. Qed.

Lemma scope_grows_set k v d : k ≠ CONFIGS → scope_grows d (dict_set k v d).
Proof.
  intros Hne. split.
  - rewrite dict_keys_set. destruct (dict_mem k d); [reflexivity|].
    apply prefix_app_r. reflexivity.
  - intros H. rewrite dict_mem_set, H, orb_false_r. apply String.eqb_neq. congruence.
Qed.

Lemma keeps_ret {A} (a : A) : keeps_scope (ret a).
Proof. intros s. apply scope_grows_refl. Qed.
Lemma keeps_raise {A} e : keeps_scope (raise (A:=A) e).
Proof. intros s. apply scope_grows_refl. Qed.
Lemma keeps_lift {A} (r : result A) : keeps_scope (lift r).
Proof. intros s. apply scope_grows_refl. Qed.
Lemma keeps_gets {A} (f : frame → A) : keeps_scope (gets f).
Proof. intros s. apply scope_grows_refl. Qed.
Lemma keeps_in_world {A} (m : M world A) : keeps_scope (in_world m).
Proof. intros [d w]. unfold in_world. simpl. destruct (m w). apply scope_grows_refl. Qed.
Lemma keeps_the_read_from rf : keeps_scope (the_read_from rf).
Proof. destruct rf; [apply keeps_ret | apply keeps_gets]. Qed.

Lemma keeps_bind {A B} (m : M frame A) (k : A → M frame B) :
  keeps_scope m → (∀ a, keeps_scope (k a)) → keeps_scope (bind m k).
Proof.
  intros Hm Hk s. unfold bind. specialize (Hm s).
  destruct (m s) as [[a|e] s1]; simpl in *; [|exact Hm].
  eapply scope_grows_trans; [exact Hm | apply Hk].
Qed.

Lemma keeps_try {A} (m : M frame A) (h : exn → M frame A) :
  keeps_scope m → (∀ e, keeps_scope (h e)) → keeps_scope (try_except m h).
Proof.
  intros Hm Hh s. unfold try_except. specialize (Hm s).
  destruct (m s) as [[a|e] s1]; simpl in *; [exact Hm|].
  eapply scope_grows_trans; [exact Hm | apply Hh].
Qed.

Lemma keeps_for_each {A} (l : list A) (body : A → M frame unit) :
  (∀ x, x ∈ l → keeps_scope (body x)) → keeps_scope (for_each l body).
Proof.
  induction l as [|x l IH]; intros Hb; simpl; [apply keeps_ret|].
  apply keeps_bind; [apply Hb; left|]. intros _. apply IH.
  intros y Hy. apply Hb. right. exact Hy.
Qed.

Lemma ignore_configs_key (handle : dict) (entry : string * value) :
  entry ∈ ignore_configs handle → entry.1 ≠ CONFIGS.
Proof.
  unfold ignore_configs. induction handle as [|[k v] handle IH]; cbn [dict_remove].
  - intros H. inversion H.
  - destruct (String.eqb_spec CONFIGS k) as [<-|Hne]; [exact IH|].
    intros H. apply elem_of_cons in H as [->|H]; [simpl; congruence | auto].
Qed.

Lemma dict_mem_ignore_configs (handle : dict) :
  dict_mem CONFIGS (ignore_configs handle) = false.
Proof.
  unfold ignore_configs, dict_mem. induction handle as [|[k v] handle IH]; [reflexivity|].
  cbn [dict_remove]. destruct (String.eqb_spec CONFIGS k) as [<-|Hne]; [exact IH|].
  cbn [dict_get]. rewrite (proj2 (String.eqb_neq CONFIGS k)) by exact Hne. exact IH.
Qed.

Section Scope.
Variable ext : Externals.

Lemma keeps_chain_include (dumper : value → option dict → M frame dict) folder key prop rf :
  (∀ h r, keeps_scope (dumper h r)) →
  keeps_scope (chain_include ext dumper folder key prop rf).
Proof.
  intros Hd. unfold chain_include.
  apply keeps_bind; [apply keeps_gets|]. intros dump_to.
  apply keeps_bind; [apply keeps_the_read_from|]. intros read.
  apply keeps_bind; [apply keeps_lift|]. intros fetched.
  apply keeps_for_each. intros path _.
  apply keeps_bind; [apply keeps_in_world|]. intros _.
  apply keeps_bind; [apply keeps_lift|]. intros resolved.
  apply keeps_bind; [apply keeps_in_world|]. intros normed.
  apply keeps_bind; [apply keeps_lift|]. intros included.
  apply keeps_bind; [apply Hd|]. intros _. apply keeps_in_world.
Qed.

Lemma keeps_dump_field (dumper : value → option dict → M frame dict) folder rf entry :
  (∀ h r, keeps_scope (dumper h r)) →
  entry.1 ≠ CONFIGS →
  keeps_scope (dump_field ext dumper folder rf entry).
Proof.
  intros Hd Hne. unfold dump_field.
  assert (Hwarn : ∀ e (b : bool),
            keeps_scope (in_world (warn (IgnoreField entry.1 e)) ;; ret b)).
  { intros e b. apply keeps_bind; [apply keeps_in_world | intros; apply keeps_ret]. }
  apply keeps_bind; [apply keeps_in_world|]. intros prop.
  apply keeps_bind; [apply keeps_in_world|]. intros _.
  apply keeps_bind; [apply keeps_lift|]. intros validator.
  destruct (is_str validator PROP_STRING_VALIDATION_YAML).
  - apply keeps_bind.
    + apply keeps_try; [|intros; apply Hwarn].
      apply keeps_bind; [apply keeps_chain_include; exact Hd | intros; apply keeps_ret].
    + intros [|]; [apply keeps_in_world | apply keeps_ret].
  - apply keeps_bind.
    + apply keeps_try; [|intros; apply Hwarn].
      apply keeps_bind; [apply keeps_gets|]. intros dump_to.
      apply keeps_bind; [apply keeps_the_read_from|]. intros read.
      apply keeps_bind; [apply keeps_in_world|]. intros parsed.
      apply keeps_bind; [|intros; apply keeps_ret].
      intros s. unfold modify. simpl. apply scope_grows_set. exact Hne.
    + intros [|]; [|apply keeps_ret].
      apply keeps_bind; [apply keeps_gets|]. intros dump_to.
      apply keeps_bind; [apply keeps_the_read_from|]. intros read.
      apply keeps_bind; [apply keeps_in_world | intros; apply keeps_in_world].
Qed.

Lemma keeps_dump_to_dict fuel folder :
  ∀ h rf, keeps_scope (_dump_to_dict ext fuel folder h rf).
Proof.
  induction fuel as [|fuel IH]; intros h rf; simpl; [apply keeps_raise|].
  apply keeps_bind; [apply keeps_lift|]. intros handle.
  apply keeps_bind; [|intros; apply keeps_gets].
  apply keeps_for_each. intros entry Hin. apply keeps_dump_field; [exact IH|].
  eapply ignore_configs_key. exact Hin.
Qed.

Lemma dump_to_dict_result fuel folder h rf s scope s' :
  _dump_to_dict ext fuel folder h rf s = (Ok scope, s') → s'.1 = scope.
Proof.
  destruct fuel as [|fuel]; simpl; [intros [=]|].
  unfold bind, lift. destruct (py_dict h) as [handle|e]; [|intros [=]].
  destruct (for_each _ _ _) as [[[]|e] s1]; [|intros [=]].
  unfold gets. intros [= <- <-]. reflexivity.
Qed.

(** X4. Whatever a call of [_dump_to_dict] does, and however it ends, the
    keys that its [dump_to] held before are still there, in the same order
    and in front of the new ones; and if "configs" was not a key, it is not
    one afterwards. *)
Theorem merge_never_drops_a_key (fuel : nat) (folder : string) (handle : value)
    (read_from : option dict) (scope : dict) (w : world) :
  let s' := (_dump_to_dict ext fuel folder handle read_from (scope, w)).2 in
  dict_keys scope `prefix_of` dict_keys s'.1
  ∧ (dict_mem CONFIGS scope = false → dict_mem CONFIGS s'.1 = false).
Proof. exact (keeps_dump_to_dict fuel folder handle read_from (scope, w)). Qed.

(** X5. The mapping a document resolves to never has the key "configs",
    whatever the document, the files it includes and its nested mappings
    declare. *)
Theorem resolved_scope_has_no_configs (handle : dict) (folder : string) (w w' : world)
    (scope : dict) :
  _yaml_parse_from_dict ext handle folder w = (Ok scope, w') →
  dict_mem CONFIGS scope = false.
Proof.
  unfold _yaml_parse_from_dict, fresh_target.
  pose proof (keeps_dump_to_dict (recursion_limit ext) folder (VDict handle) None ([], w))
    as [_ Hc].
  destruct (_dump_to_dict ext (recursion_limit ext) folder (VDict handle) None ([], w))
    as [r [sc w1]] eqn:Hrun.
  intros [= -> <-]. apply dump_to_dict_result in Hrun. simpl in *. subst sc.
  apply Hc. reflexivity.
Qed.
End Scope.

Lemma resolved_scope_has_no_configs_witness :
  let r := _yaml_parse_from_dict (machine []) doc_plain DEFAULT_CONFIGS_FOLDER new_world in
  r.1 = Ok [("title", VDict [("en", VStr "Hello"); ("pt", VStr "Ola")]);
            ("sizes", VList [VInt 1; VInt 2])]
  ∧ dict_mem CONFIGS [("title", VDict [("en", VStr "Hello"); ("pt", VStr "Ola")]);
                      ("sizes", VList [VInt 1; VInt 2])] = false.
Proof.
  intros r.
  assert (H1 : r.1 = Ok [("title", VDict [("en", VStr "Hello"); ("pt", VStr "Ola")]);
                         ("sizes", VList [VInt 1; VInt 2])])
    by (vm_compute; reflexivity).
  split; [exact H1|].
  apply (resolved_scope_has_no_configs (machine []) doc_plain DEFAULT_CONFIGS_FOLDER
           new_world r.2).
  rewrite <- H1. apply surjective_pairing.
Defined.

(** ** Entries written without a descriptor *)

Lemma normalize_prop_plain (key : string) (v : value) (w : world) :
  plain v = true → normalize_prop key v w = (Ok (_as_implicit v), w).
Proof.
  unfold plain, normalize_prop. destruct v as [| | | | | | |entries|]; try reflexivity;
    [|discriminate].
  intros H. apply andb_true_iff in H as [Hval Hsrc].
  apply negb_true_iff in Hval, Hsrc. rewrite Hval.
  unfold PropSchema.looks_explicit, PropSchema.REQUIRED_EXPLICIT_PROPS.
  cbn [existsb]. rewrite Hval, Hsrc. reflexivity.
Qed.

Lemma record_plain_ctx (handle : dict) (w : world) :
  warned (record_plain handle w) = warned w
  ∧ affix (ctx (record_plain handle w)) = affix (ctx w)
  ∧ file_stack (ctx (record_plain handle w)) = file_stack (ctx w)
  ∧ explicitly_kept (ctx (record_plain handle w)) = explicitly_kept (ctx w)
  ∧ explicitly_deleted (ctx (record_plain handle w)) = explicitly_deleted (ctx w)
  ∧ marked_for_delete (ctx (record_plain handle w)) = marked_for_delete (ctx w).
Proof.
  revert w. induction handle as [|[k v] handle IH]; intros w; [repeat split|].
  unfold record_plain in *. cbn [fold_left fst snd].
  destruct (IH (record_prop k (_as_implicit v) w)) as (-> & -> & -> & -> & -> & ->).
  repeat split.
Qed.

Lemma record_plain_props (handle : dict) (w : world) :
  map_Forall (fun _ prop => literal_source prop) (field_props (ctx w)) →
  map_Forall (fun _ prop => literal_source prop)
    (field_props (ctx (record_plain handle w))).
Proof.
  revert w. induction handle as [|[k v] handle IH]; intros w Hall; [exact Hall|].
  unfold record_plain in *. cbn [fold_left fst snd]. apply IH. simpl.
  apply map_Forall_insert_2; [reflexivity | exact Hall].
Qed.

Lemma record_plain_file_stack (handle : dict) (w : world) (s : list value) :
  with_ctx (set_file_stack s) (record_plain handle w)
  = record_plain handle (with_ctx (set_file_stack s) w).
Proof.
  revert w. induction handle as [|[k v] handle IH]; intros w; [reflexivity|].
  unfold record_plain in *. cbn [fold_left fst snd]. rewrite IH. reflexivity.
Qed.

Lemma fold_add_referenced_literal (items : list (string * dict)) (acc : list value) :
  Forall (fun item => literal_source item.2) items →
  fold_result add_referenced items acc = Ok acc.
Proof.
  induction 1 as [|item items Hlit _ IH]; [reflexivity|].
  simpl. unfold add_referenced at 1. unfold literal_source in Hlit. rewrite Hlit.
  simpl. exact IH.
Qed.

Lemma compute_marks_literal (props : gmap string dict) (kept deleted : gset string) :
  map_Forall (fun _ prop => literal_source prop) props →
  compute_marks props kept deleted = Ok ((∅ ∪ deleted) ∖ kept).
Proof.
  intros Hall. unfold compute_marks.
  rewrite fold_add_referenced_literal; [reflexivity|].
  apply Forall_forall. intros [k prop] Hin. apply elem_of_map_to_list in Hin.
  exact (Hall k prop Hin).
Qed.

Section Plain.
Variable ext : Externals.

Lemma dump_field_plain (dumper : value → option dict → M frame dict) (folder : string)
    (read_from : option dict) (key : string) (v : value) (scope : dict) (w : world) :
  plain v = true →
  dump_field ext dumper folder read_from (key, v) (scope, w)
  = (Ok tt, (dict_set key v scope, record_prop key (_as_implicit v) w)).
Proof.
  intros Hp. unfold dump_field, bind at 1, in_world at 1. cbn [fst snd].
  rewrite (normalize_prop_plain key v w Hp).
  destruct read_from; reflexivity.
Qed.

Lemma for_each_dump_field_plain (dumper : value → option dict → M frame dict)
    (folder : string) (read_from : option dict) (handle : dict) :
  Forall (fun kv => plain kv.2 = true) handle →
  ∀ scope w,
    for_each handle (dump_field ext dumper folder read_from) (scope, w)
    = (Ok tt, (dict_update scope handle, record_plain handle w)).
Proof.
  induction 1 as [|[k v] handle Hp _ IH]; intros scope w; [reflexivity|].
  cbn [for_each]. unfold bind. rewrite (dump_field_plain _ _ _ _ _ _ _ Hp).
  rewrite IH. reflexivity.
Qed.

Lemma dump_to_dict_plain (fuel : nat) (folder : string) (handle : dict)
    (read_from : option dict) (scope : dict) (w : world) :
  Forall (fun kv => plain kv.2 = true) (ignore_configs handle) →
  _dump_to_dict ext (S fuel) folder (VDict handle) read_from (scope, w)
  = (Ok (dict_update scope (ignore_configs handle)),
     (dict_update scope (ignore_configs handle),
      record_plain (ignore_configs handle) w)).
Proof.
  intros Hall. cbn [_dump_to_dict py_dict]. unfold bind at 1, lift. cbn [fst snd].
  unfold bind. rewrite (for_each_dump_field_plain _ _ _ _ Hall). reflexivity.
Qed.

(** X6. A document whose entries (the key "configs" apart) are written
    without descriptors is merged as an update of the scope: every entry
    overwrites or appends its key with the value as written, nothing is
    parsed away, no warning is issued, and the context only receives the
    descriptors. *)
Theorem plain_document_merges_by_update (fuel : nat) (folder : string) (handle : dict)
    (read_from : option dict) (scope : dict) (w : world) :
  Forall (fun kv => plain kv.2 = true) (ignore_configs handle) →
  _dump_to_dict ext (S fuel) folder (VDict handle) read_from (scope, w)
  = (Ok (dict_update scope (ignore_configs handle)),
     (dict_update scope (ignore_configs handle),
      record_plain (ignore_configs handle) w))
  ∧ warned (record_plain (ignore_configs handle) w) = warned w.
Proof.
  intros Hall. split; [apply dump_to_dict_plain; exact Hall|].
  apply record_plain_ctx.
Qed.

Lemma dict_update_keys {A} (d e : list (string * A)) (k : string) :
  k ∈ dict_keys (dict_update d e) → k ∈ dict_keys d ∨ k ∈ dict_keys e.
Proof.
  revert d. induction e as [|[k' v'] e IH]; intros d Hk; [left; exact Hk|].
  apply IH in Hk as [Hk|Hk].
  - rewrite dict_keys_set in Hk. cbn [fst snd] in Hk.
    destruct (dict_mem k' d); [left; exact Hk|].
    apply elem_of_app in Hk as [Hk|Hk]; [left; exact Hk|].
    apply list_elem_of_singleton in Hk. subst k'. right. left.
  - right. right. exact Hk.
Qed.

Lemma setattr_settable (entry : string * value) :
  settable entry.1 = true → PlotStyle_setattr entry = Ok tt.
Proof.
  unfold settable, PlotStyle_setattr. intros H.
  destruct (String.eqb entry.1 "__class__"); [discriminate|].
  destruct (String.eqb entry.1 "__dict__"); [discriminate|].
  destruct (String.eqb entry.1 "__weakref__"); [discriminate|]. reflexivity.
Qed.

Lemma set_attributes_settable (params : dict) :
  Forall (fun kv => settable kv.1 = true) params →
  PlotStyle_set_attributes params = Ok tt.
Proof.
  unfold PlotStyle_set_attributes.
  induction 1 as [|entry params Hentry _ IH]; [reflexivity|].
  cbn [fold_result]. rewrite (setattr_settable _ Hentry). exact IH.
Qed.

Lemma settable_localize_update (language : string) (h : dict) :
  Forall (fun kv => settable kv.1 = true) h →
  Forall (fun kv => settable kv.1 = true) (localize language (dict_update [] h)).
Proof.
  intros Hall. apply Forall_forall. intros [k v] Hin.
  assert (Hk : k ∈ dict_keys (dict_update [] h)).
  { unfold localize in Hin. apply list_elem_of_fmap in Hin as ([k0 v0] & [= -> _] & Hin).
    unfold dict_keys. apply list_elem_of_fmap. exists (k0, v0). split; [reflexivity|exact Hin]. }
  apply dict_update_keys in Hk as [Hk|Hk]; [inversion Hk|].
  unfold dict_keys in Hk. apply list_elem_of_fmap in Hk as ([k0 v0] & -> & Hk).
  exact (proj1 (Forall_forall _ _) Hall _ Hk).
Qed.

(** X7. From a new context, a document of entries written without
    descriptors, under names that an object takes as attributes, is
    constructed without a warning, and the object holds every entry but
    "configs" with its value as written, localised; nothing is marked for
    deletion and the file stack is empty. *)
Theorem plain_document_loads_as_written (handle : dict) (opts : Options) :
  (PlotStyle_input_validate ext (VDict handle) VNone opts new_world).1 = Ok tt →
  keep_all_fields opts = true →
  recursion_limit ext ≠ 0%nat →
  Forall (fun kv => plain kv.2 = true) (ignore_configs handle) →
  Forall (fun kv => settable kv.1 = true) (ignore_configs handle) →
  ∃ w',
    PlotStyle_init ext (VDict handle) VNone opts new_world
    = (Ok (localize (language opts) (dict_update [] (ignore_configs handle))), w')
    ∧ warned w' = []
    ∧ marked_for_delete (ctx w') = ∅
    ∧ file_stack (ctx w') = [].
Proof.
  intros Hvalid Hkeep Hfuel Hall Hnames.
  pose proof (set_attributes_settable _
                (settable_localize_update (language opts) _ Hnames)) as Hset.
  destruct (recursion_limit ext) as [|fuel] eqn:Hlimit; [congruence|]. clear Hfuel.
  unfold PlotStyle_init, bind.
  rewrite (stateless_input_validate ext (VDict handle) VNone opts new_world), Hvalid.
  unfold PlotStyle_load_params. cbn [py_dict]. unfold bind, lift.
  unfold _yaml_parse_from_dict, fresh_target. rewrite Hlimit.
  rewrite (dump_to_dict_plain _ _ _ _ _ _ Hall). cbn [fst snd ret].
  set (h := ignore_configs handle) in *.
  destruct (record_plain_ctx h new_world) as (Hw & Ha & Hs & Hk & Hd & Hm).
  unfold PlotStyle_finish, bind. rewrite resolve_marked_eq.
  rewrite compute_marks_literal
    by (apply record_plain_props; simpl; apply map_Forall_empty).
  unfold gets, modify, lift. cbn [fst snd ctx with_ctx affix set_marked_for_delete].
  rewrite Ha. cbn [new_world ctx new_ParseContext affix apply_localization fst snd map].
  cbn [apply_affixes]. rewrite Hkeep. cbn [negb ret].
  unfold localize in Hset. rewrite Hset.
  eexists. split; [reflexivity|].
  cbn [warned ctx with_ctx set_affix marked_for_delete file_stack set_marked_for_delete].
  rewrite Hw, Hs, Hk, Hd. repeat split.
Qed.

(** X8. Including a file of entries written without descriptors is inlining
    them: the chain-include of one literal path that is found and loads
    leaves the scope updated with the entries of the file, the context with
    their descriptors recorded, and the file stack as it was before the
    include. *)
Theorem plain_include_is_inlined (fuel : nat) (folder key : string) (prop : dict)
    (read_from : option dict) (scope : dict) (w : world)
    (path resolved normed : string) (included : dict) :
  dict_get SOURCE prop = Some (VStr SOURCE_OPTIONS.VALUE_FROM_LITERAL) →
  dict_get VALUE prop = Some (VStr path) →
  _resolve_yaml_path ext (VStr path) folder = Ok resolved →
  (parse (YamlValidator ext) (VStr resolved) None new_world).1 = Ok (VStr normed) →
  _load_yaml ext normed = Ok included →
  Forall (fun kv => plain kv.2 = true) (ignore_configs included) →
  chain_include ext (_dump_to_dict ext (S fuel) folder) folder key prop read_from (scope, w)
  = (Ok tt, (dict_update scope (ignore_configs included),
             record_plain (ignore_configs included) w))
  ∧ file_stack (ctx (record_plain (ignore_configs included) w)) = file_stack (ctx w).
Proof.
  intros Hsrc Hval Hres Hparse Hload Hall. split; [|apply record_plain_ctx].
  unfold chain_include, bind at 1, gets at 1. cbn [fst snd].
  assert (Hfetch : ∀ d r, fetch_value key (VDict prop) d r = Ok (VStr key, VStr path)).
  { intros d r. unfold fetch_value. rewrite Hsrc. cbn [is_str].
    rewrite String.eqb_refl. unfold dict_getitem. rewrite Hval. reflexivity. }
  assert (Hpop : with_ctx (set_file_stack (removelast (file_stack (ctx w) ++ [VStr path])))
                   (record_plain (ignore_configs included)
                      (with_ctx (fun c => set_file_stack (file_stack c ++ [VStr path]) c) w))
                 = record_plain (ignore_configs included) w).
  { rewrite removelast_last, record_plain_file_stack.
    destruct w as [[k d m f a s] wn]. reflexivity. }
  unfold bind at 1. destruct read_from as [r|]; cbn [the_read_from ret gets fst snd];
    unfold bind at 1, lift at 1; rewrite Hfetch; cbn [fst snd for_each];
    unfold bind at 1; unfold bind at 1, in_world at 1, file_stack_append, modify;
    cbn [fst snd]; unfold bind at 1, lift at 1; rewrite Hres;
    unfold bind at 1, in_world at 1; cbn [fst snd];
    rewrite (stateless_yaml_parse ext (VStr resolved) None _), Hparse;
    unfold bind at 1, lift at 1; rewrite Hload;
    unfold bind at 1;
    rewrite (dump_to_dict_plain _ _ _ _ _ _ Hall);
    unfold in_world, file_stack_pop, bind, gets, modify; cbn [fst snd];
    destruct (record_plain_ctx (ignore_configs included)
                (with_ctx (fun c => set_file_stack (file_stack c ++ [VStr path]) c) w))
      as (_ & _ & Hs & _);
    rewrite Hs; cbn [with_ctx ctx set_file_stack file_stack];
    (destruct (file_stack (ctx w) ++ [VStr path]) eqn:Happ;
       [destruct (file_stack (ctx w)); discriminate|]);
    rewrite Hpop; reflexivity.
Qed.

(** X9. At the top level of a document a field reference reads the scope as
    resolved so far: with the default validator and no keep, prefix or
    suffix, the field receives the value of the referenced key when that key
    was resolved before it, and otherwise (a forward or dangling reference)
    it is left out with one warning that carries the KeyError; in both cases
    its descriptor is recorded. *)
Theorem field_reference_reads_earlier_fields
    (dumper : value → option dict → M frame dict) (folder key target : string)
    (raw_prop : value) (prop scope : dict) (w w1 : world) :
  NoDup (dict_keys scope) →
  normalize_prop key raw_prop w = (Ok prop, w1) →
  bare prop →
  dict_get SOURCE prop = Some (VStr SOURCE_OPTIONS.VALUE_FROM_FIELD) →
  dict_get VALUE prop = Some (VStr target) →
  dump_field ext dumper folder None (key, raw_prop) (scope, w)
  = match dict_get target scope with
    | Some v => (Ok tt, (dict_set key v scope, record_prop key prop w1))
    | None =>
        (Ok tt, (scope, add_warning (IgnoreField key (ParseError key KeyError))
                          (record_prop key prop w1)))
    end.
Proof.
  intros Hnd Hnorm (Hvd & Hkeep & Hpre & Hsuf) Hsrc Hval.
  assert (Hfetch : fetch_value key (VDict prop) scope scope
                   = match dict_get target scope with
                     | Some v => Ok (VStr target, v)
                     | None => Raise KeyError
                     end).
  { unfold fetch_value. rewrite Hsrc. cbn [is_str].
    change (String.eqb SOURCE_OPTIONS.VALUE_FROM_FIELD SOURCE_OPTIONS.VALUE_FROM_LITERAL)
      with false.
    rewrite String.eqb_refl. unfold dict_getitem at 1. rewrite Hval. cbn [rbind].
    unfold dict_getitem_value, dict_getitem, dict_or. cbn [hashable].
    rewrite dict_get_update by exact Hnd.
    destruct (dict_get target scope); reflexivity. }
  unfold dump_field, bind at 1, in_world at 1. cbn [fst snd]. rewrite Hnorm.
  unfold bind at 1, in_world at 1, modify at 1. cbn [fst snd].
  unfold bind at 1, lift at 1, dict_getitem at 1. rewrite Hvd.
  change (is_str (VStr PROP_STRING_VALIDATION_UNDETERMINED) PROP_STRING_VALIDATION_YAML)
    with false. cbv iota.
  unfold bind at 1, try_except at 1, bind at 1, gets at 1. cbn [fst snd the_read_from].
  unfold bind at 1, gets at 1. cbn [fst snd].
  unfold bind at 1, in_world at 1. cbn [fst snd].
  unfold parse_prop, try_except, bind at 1, lift at 1, py_getitem. rewrite Hvd.
  cbn [VALIDATORS_get hashable]. unfold bind at 1, lift at 1.
  change (dict_get PROP_STRING_VALIDATION_UNDETERMINED (VALIDATORS ext))
    with (Some UndeterminedValidator).
  unfold bind at 1, lift at 1. rewrite Hfetch.
  destruct (dict_get target scope) as [v|]; cbn [fst snd parse UndeterminedValidator ret].
  - unfold bind at 1, modify at 1. cbn [fst snd ret].
    unfold bind at 1, gets at 1. cbn [fst snd].
    unfold bind at 1, the_read_from, gets at 1. cbn [fst snd].
    unfold register_affixable, PropSchema.iter_affixes, PropSchema.AFFIX_KEYS.
    cbn [for_each]. unfold bind, try_except, in_world. cbn [fst snd].
    rewrite Hpre, Hsuf. cbn [ret]. unfold record_keep. rewrite Hkeep. reflexivity.
  - cbn [raise]. unfold bind, in_world, warn, modify. reflexivity.
Qed.
End Plain.

Lemma plain_document_merges_by_update_witness :
  Forall (fun kv : string * value => plain kv.2 = true) (ignore_configs doc_plain)
  ∧ (_dump_to_dict (machine []) 1 DEFAULT_CONFIGS_FOLDER (VDict doc_plain) None
       ([("sizes", VInt 0)], new_world)).1
    = Ok [("sizes", VList [VInt 1; VInt 2]);
          ("title", VDict [("en", VStr "Hello"); ("pt", VStr "Ola")])].
Proof.
  assert (H : Forall (fun kv : string * value => plain kv.2 = true)
                (ignore_configs doc_plain)) by (repeat constructor).
  split; [exact H|].
  rewrite (proj1 (plain_document_merges_by_update (machine []) 0 DEFAULT_CONFIGS_FOLDER
                    doc_plain None [("sizes", VInt 0)] new_world H)).
  reflexivity.
Defined.

Lemma plain_document_loads_as_written_witness :
  ∃ w',
    PlotStyle_init (machine []) (VDict doc_plain) VNone
      (mkOptions "pt" (VStr DEFAULT_CONFIGS_FOLDER) VNone true) new_world
    = (Ok [("title", VStr "Ola"); ("sizes", VList [VInt 1; VInt 2])], w')
    ∧ warned w' = []
    ∧ marked_for_delete (ctx w') = ∅
    ∧ file_stack (ctx w') = [].
Proof.
  apply (plain_document_loads_as_written (machine []) doc_plain
           (mkOptions "pt" (VStr DEFAULT_CONFIGS_FOLDER) VNone true)).
  - vm_compute. reflexivity.
  - reflexivity.
  - discriminate.
  - repeat constructor.
  - repeat constructor.
Defined.

Lemma plain_include_is_inlined_witness :
  chain_include (machine files_plain)
    (_dump_to_dict (machine files_plain) 1 DEFAULT_CONFIGS_FOLDER)
    DEFAULT_CONFIGS_FOLDER "inc" prop_include None ([("b", VInt 0)], new_world)
  = (Ok tt, ([("b", VStr "x"); ("a", VInt 1)],
             record_plain [("a", VInt 1); ("b", VStr "x")] new_world))
  ∧ file_stack (ctx (record_plain [("a", VInt 1); ("b", VStr "x")] new_world)) = [].
Proof.
  apply (plain_include_is_inlined (machine files_plain) 0 DEFAULT_CONFIGS_FOLDER "inc"
           prop_include None [("b", VInt 0)] new_world "inc.yaml" "inc.yaml" "inc.yaml"
           [("a", VInt 1); ("b", VStr "x")]).
  - reflexivity.
  - reflexivity.
  - vm_compute. reflexivity.
  - vm_compute. reflexivity.
  - vm_compute. reflexivity.
  - repeat constructor.
Defined.

Lemma field_reference_reads_earlier_fields_witness :
  dump_field (machine []) (_dump_to_dict (machine []) 0 DEFAULT_CONFIGS_FOLDER)
    DEFAULT_CONFIGS_FOLDER None
    ("t", VDict [("value", VStr "later"); ("source", VStr "field")])
    ([("a", VInt 1)], new_world)
  = (Ok tt, ([("a", VInt 1)],
             add_warning (IgnoreField "t" (ParseError "t" KeyError))
               (record_prop "t" [("value", VStr "later"); ("source", VStr "field");
                                 ("validator", VStr "undetermined")] new_world))).
Proof.
  apply (field_reference_reads_earlier_fields (machine [])
           (_dump_to_dict (machine []) 0 DEFAULT_CONFIGS_FOLDER) DEFAULT_CONFIGS_FOLDER
           "t" "later" (VDict [("value", VStr "later"); ("source", VStr "field")])
           [("value", VStr "later"); ("source", VStr "field");
            ("validator", VStr "undetermined")]
           [("a", VInt 1)] new_world new_world).
  - apply NoDup_cons. split; [apply not_elem_of_nil | apply NoDup_nil_2].
  - reflexivity.
  - repeat split.
  - reflexivity.
  - reflexivity.
Defined.

(** ** Normalisation, parsing and affix registration *)

Lemma dict_setdefault_mem {A} (k : string) (v : A) (d : list (string * A)) :
  dict_mem k d = true → dict_setdefault k v d = d.
Proof. unfold dict_setdefault. intros ->. reflexivity. Qed.

Lemma normalize_prop_world (key : string) (raw_prop : value) (w : world) :
  (normalize_prop key raw_prop w).2 =
    match raw_prop with
    | VDict entries =>
        if negb (dict_mem VALUE entries) && dict_mem SOURCE entries
        then add_warning (LooksExplicit key [SOURCE]) w
        else w
    | _ => w
    end.
Proof.
  unfold normalize_prop.
  destruct raw_prop as [| | | | | | |entries|payload []]; try reflexivity.
  - destruct (dict_mem VALUE entries) eqn:Hval; [reflexivity|].
    unfold PropSchema.looks_explicit, PropSchema.REQUIRED_EXPLICIT_PROPS.
    cbn [existsb negb andb]. rewrite Hval, orb_false_r.
    destruct (dict_mem SOURCE entries) eqn:Hsrc; [|reflexivity].
    cbn [orb]. unfold bind, warn, modify, add_warning, ret. cbn [snd].
    rewrite filter_cons_True by (rewrite Hsrc; exact I).
    rewrite filter_cons_False by (rewrite Hval; exact id).
    reflexivity.
  - destruct payload as [| | | | | | |entries|]; try reflexivity.
    destruct (dict_mem VALUE entries); reflexivity.
Qed.

(** X10. What [normalize_prop] returns is in normal form: the descriptor has
    the keys "value", "validator" and "source", and normalising it again,
    under any key and in any world, returns it unchanged without a warning.
    The only thing the first normalisation can do to the world is to warn
    about an untagged mapping that has "source" but no "value", and the keys
    it then reports are exactly ["source"]. *)
Theorem normalize_prop_normal_form (key key' : string) (raw_prop : value)
    (w w1 w2 : world) (prop : dict) :
  normalize_prop key raw_prop w = (Ok prop, w1) →
  dict_mem VALUE prop = true
  ∧ dict_mem VALIDATOR prop = true
  ∧ dict_mem SOURCE prop = true
  ∧ normalize_prop key' (VDict prop) w2 = (Ok prop, w2)
  ∧ w1 = match raw_prop with
         | VDict entries =>
             if negb (dict_mem VALUE entries) && dict_mem SOURCE entries
             then add_warning (LooksExplicit key [SOURCE]) w
             else w
         | _ => w
         end.
Proof.
  intros Hrun.
  assert (Hkeys : dict_mem VALUE prop = true ∧ dict_mem VALIDATOR prop = true
                  ∧ dict_mem SOURCE prop = true).
  { revert Hrun. unfold normalize_prop, raise, ret.
    destruct raw_prop as [| | | | | | |entries|payload []];
      try (intros [= <- _]; repeat split; reflexivity).
    - destruct (dict_mem VALUE entries) eqn:Hval.
      + intros [= <- _]. rewrite !dict_mem_setdefault, Hval, !orb_true_r. auto.
      + unfold bind. destruct (PropSchema.looks_explicit entries);
          intros [= <- _]; repeat split; reflexivity.
    - destruct payload as [| | | | | | |entries|]; try (intros [=]; fail).
      destruct (dict_mem VALUE entries) eqn:Hval; [|intros [=]].
      intros [= <- _]. unfold with_defaults. simpl.
      rewrite !dict_mem_setdefault, Hval, !orb_true_r. auto. }
  destruct Hkeys as (Hval & Hvd & Hsrc). repeat (split; [assumption|]). split.
  - unfold normalize_prop. rewrite Hval.
    rewrite (dict_setdefault_mem VALIDATOR _ _ Hvd), (dict_setdefault_mem SOURCE _ _ Hsrc).
    reflexivity.
  - rewrite <- normalize_prop_world, Hrun. reflexivity.
Qed.

Lemma normalize_prop_normal_form_witness :
  normalize_prop "t" (VDict [("source", VStr "field")]) new_world
  = (Ok (_as_implicit (VDict [("source", VStr "field")])),
     add_warning (LooksExplicit "t" ["source"]) new_world)
  ∧ normalize_prop "u" (VDict (_as_implicit (VDict [("source", VStr "field")]))) new_world
    = (Ok (_as_implicit (VDict [("source", VStr "field")])), new_world).
Proof.
  assert (H : normalize_prop "t" (VDict [("source", VStr "field")]) new_world
              = (Ok (_as_implicit (VDict [("source", VStr "field")])),
                 add_warning (LooksExplicit "t" ["source"]) new_world))
    by reflexivity.
  split; [exact H|].
  exact (proj1 (proj2 (proj2 (proj2
           (normalize_prop_normal_form "t" "u" _ new_world _ new_world _ H))))).
Defined.

(** X11. Errors of [parse_prop]. When the descriptor is a mapping with a
    "validator", every exception that leaves [parse_prop] is a ParseError for
    the field, whatever failed inside (unknown validator, missing source,
    missing reference, the validator itself). Otherwise the handler fails on
    the same subscript as the body did, and the KeyError (no "validator") or
    TypeError (not a mapping) leaves unwrapped, with the world untouched. *)
Theorem parse_prop_errors (ext : Externals) (key : string) (prop : value)
    (dumper : value → dict → M world dict) (dump_to read_from : dict) (w : world) :
  match py_getitem prop VALIDATOR with
  | Ok _ =>
      ∀ e w', parse_prop ext key prop dumper dump_to read_from w = (Raise e, w') →
              ∃ cause, e = ParseError key cause
  | Raise e0 => parse_prop ext key prop dumper dump_to read_from w = (Raise e0, w)
  end.
Proof.
  unfold parse_prop, try_except, bind, lift.
  destruct (py_getitem prop VALIDATOR) as [name|e0]; [|reflexivity].
  intros e w'.
  destruct (VALIDATORS_get ext name) as [[validator|]|e1].
  - destruct (fetch_value key prop dump_to read_from) as [fetched|e2].
    + destruct (parse validator fetched.2 _ w) as [[parsed|e3] w3].
      * intros [=].
      * intros [= <- _]. eauto.
    + intros [= <- _]. eauto.
  - intros [= <- _]. eauto.
  - intros [= <- _]. eauto.
Qed.

(** X12. The descriptor under "prefix" or "suffix" is not normalised before
    it is parsed. Without a "validator" key it is dropped with a warning for
    "<key>.<affix>" that carries a KeyError; with a registered validator but
    without a "source" key it is dropped with a ParseError caused by
    SourceFieldMissing. In both cases the registry is left as it was and the
    registration does not raise. *)
Theorem affix_descriptor_needs_validator_and_source (ext : Externals)
    (key : string) (prop sub : dict) (affix_type other : string)
    (dumper : value → dict → M world dict) (dump_to read_from : dict) (w : world) :
  (affix_type, other) ∈ [(PREFIX, SUFFIX); (SUFFIX, PREFIX)] →
  dict_get other prop = None →
  dict_get affix_type prop = Some (VDict sub) →
  sub ≠ [] →
  (dict_get VALIDATOR sub = None →
   register_affixable ext key prop dumper dump_to read_from w
   = (Ok tt, add_warning (IgnoreField (key +:+ "." +:+ affix_type) KeyError) w))
  ∧ (∀ name validator,
       dict_get VALIDATOR sub = Some name →
       VALIDATORS_get ext name = Ok (Some validator) →
       dict_get SOURCE sub = None →
       register_affixable ext key prop dumper dump_to read_from w
       = (Ok tt, add_warning (IgnoreField (key +:+ "." +:+ affix_type)
                                (ParseError key SourceFieldMissing)) w)).
Proof.
  intros Hin Hother Haffix Hsub.
  assert (Hne : is_empty_dict (VDict sub) = false)
    by (destruct sub; [congruence | reflexivity]).
  assert (Hreg : ∀ e,
            (∀ w0, parse_prop ext key (VDict sub) dumper dump_to read_from w0
                   = (Raise e, w0)) →
            register_affixable ext key prop dumper dump_to read_from w
            = (Ok tt, add_warning (IgnoreField (key +:+ "." +:+ affix_type) e) w)).
  { intros e Hparse.
    apply elem_of_cons in Hin as [[= -> ->]|Hin];
      [|apply list_elem_of_singleton in Hin as [= -> ->]];
      unfold register_affixable, PropSchema.iter_affixes, PropSchema.AFFIX_KEYS;
      cbn [for_each]; unfold bind, try_except;
      rewrite ?Hother, ?Haffix, ?Hne; cbn [negb]; unfold bind;
      rewrite ?Hparse; cbn [ret]; rewrite ?Hother, ?Haffix, ?Hne; cbn [negb]; unfold bind;
      rewrite ?Hparse; reflexivity. }
  split.
  - intros Hval. apply Hreg. intros w0.
    unfold parse_prop, try_except, bind, lift, py_getitem. rewrite Hval. reflexivity.
  - intros name validator Hval Hget Hsrc. apply Hreg. intros w0.
    unfold parse_prop, try_except, bind, lift, py_getitem. rewrite Hval, Hget.
    unfold fetch_value. rewrite Hsrc. reflexivity.
Qed.

Lemma affix_descriptor_needs_validator_and_source_witness :
  register_affixable (machine []) "name" prop_suffix_without_validator
    (fun _ _ => ret []) [] [] new_world
  = (Ok tt, add_warning (IgnoreField "name.suffix" KeyError) new_world).
Proof.
  apply (proj1 (affix_descriptor_needs_validator_and_source (machine []) "name"
                  prop_suffix_without_validator [("value", VStr "_v2")] SUFFIX PREFIX
                  (fun _ _ => ret []) [] [] new_world
                  (proj2 (elem_of_cons _ _ _)
                     (or_intror (proj2 (elem_of_cons _ _ _) (or_introl eq_refl))))
                  eq_refl eq_refl ltac:(discriminate))).
  reflexivity.
Defined.

(** ** Validators *)

Ltac simple_validator_contract :=
  cbv [parse validate sanitize bind ret raise lift parse_if_valid sanitize_or converts
       PathstrValidator FilenameValidator YamlValidator YamlValidator_validate
       FileformatValidator FileformatValidator_validate StrValidator BoolValidator
       ColorValidator FloatValidator IntValidator UndeterminedValidator
       FontfamilyValidator FontsizeValidator LinewidthValidator
       FigsizeValidator FigsizeValidator_validate fst snd negb] in *;
  repeat case_match; simplify_eq; eauto.

(** X13. What [validate] rejects, [parse] and [sanitize] reject too. For
    every registered validator, whenever [validate] returns False, [sanitize]
    returns a value and does not raise; and for every validator but
    "plotoptions", whose [parse] does not consult [validate], [parse] raises
    ValueError. Both end in the world [validate] ended in. *)
Theorem validate_false_contract (ext : Externals) (name : string) (validator : Validator)
    (v : value) (fp : option field_parser) (w w' : world) :
  dict_get name (VALIDATORS ext) = Some validator →
  validate validator v fp w = (Ok false, w') →
  (name ≠ "plotoptions" → parse validator v fp w = (Raise ValueError, w'))
  ∧ ∃ default, sanitize validator v fp w = (Ok default, w').
Proof.
  unfold VALIDATORS. simpl. intros H.
  repeat match type of H with
         | (if ?b then _ else _) = _ =>
             destruct b eqn:?;
             [injection H as <-; intros Hv;
              try (split; [intros _|]; simple_validator_contract; fail)
             |]
         end.
  - (* dict *)
    simpl in *. split.
    + intros _. unfold DictValidator_parse, bind. rewrite Hv. reflexivity.
    + destruct v; try (injection Hv as <-; eauto; fail);
        destruct fp; try (injection Hv as <-; eauto; fail).
      unfold try_except, DictValidator_parse, bind. rewrite Hv. simpl. eauto.
  - (* gridoptions *)
    simpl in *. split.
    + intros _. unfold GridoptionsValidator_parse, bind. rewrite Hv. reflexivity.
    + unfold bind. rewrite Hv. simpl. eauto.
  - (* plotoptions *)
    simpl in *. split.
    + intros Hne.
      match goal with
      | Hb : String.eqb name _ = true |- _ => apply String.eqb_eq in Hb; congruence
      end.
    + unfold bind. rewrite Hv. simpl. eauto.
  - discriminate H.
Qed.

Lemma validate_false_contract_witness :
  validate BoolValidator (VInt 1) None new_world = (Ok false, new_world)
  ∧ parse BoolValidator (VInt 1) None new_world = (Raise ValueError, new_world)
  ∧ ∃ default, sanitize BoolValidator (VInt 1) None new_world = (Ok default, new_world).
Proof.
  split; [reflexivity|].
  destruct (validate_false_contract (machine []) "bool" BoolValidator (VInt 1) None
              new_world new_world eq_refl eq_refl) as [Hparse Hsanitize].
  split; [apply Hparse; discriminate | exact Hsanitize].
Defined.

(** X14. The dict validator never drops, renames or reorders a nested key:
    when parsing the entries of a mapping succeeds, the result has exactly
    the keys of the mapping, in their order; a nested field that the callback
    leaves out makes the whole parse fail instead. *)
Theorem dict_parse_keeps_keys (fp : field_parser) (entries parsed : dict) (w w' : world) :
  parse_entries fp entries w = (Ok parsed, w') →
  NoDup (dict_keys entries) →
  dict_keys parsed = dict_keys entries.
Proof.
  unfold parse_entries. intros Hrun Hnd.
  assert (Hgen : ∀ entries acc parsed w w',
            fold_m entries acc (fun parsed kv =>
              sub_parsed <- fp (VDict [kv]) ;;
              x <- lift (dict_getitem sub_parsed kv.1) ;;
              ret (dict_set kv.1 x parsed)) w = (Ok parsed, w') →
            NoDup (dict_keys acc ++ dict_keys entries) →
            dict_keys parsed = dict_keys acc ++ dict_keys entries).
  { clear. induction entries as [|[k v] entries IH]; intros acc parsed w w'; simpl.
    - intros [= <- _] _. rewrite app_nil_r. reflexivity.
    - unfold bind at 1. unfold bind at 1.
      destruct (fp (VDict [(k, v)]) w) as [[sub|e] w1]; [|intros [=]].
      unfold bind at 1, lift. simpl.
      destruct (dict_getitem sub k) as [x|e]; [|intros [=]]. simpl.
      intros Hrest Hnd.
      assert (Hkeys : dict_keys (dict_set k x acc) = dict_keys acc ++ [k]).
      { rewrite dict_keys_set. destruct (dict_mem k acc) eqn:Hmem; [|reflexivity].
        apply dict_mem_spec in Hmem. apply NoDup_app in Hnd as (_ & Hdisj & _).
        exfalso. apply (Hdisj k Hmem). left. }
      rewrite (IH _ _ _ _ Hrest); rewrite Hkeys, <- app_assoc; [reflexivity | exact Hnd]. }
  apply (Hgen _ _ _ _ _ Hrun). exact Hnd.
Qed.

Lemma dict_parse_keeps_keys_witness :
  parse_entries (fun h => ret (as_dict h)) [("a", VInt 1); ("b", VInt 2)] new_world
  = (Ok [("a", VInt 1); ("b", VInt 2)], new_world)
  ∧ dict_keys [("a", VInt 1); ("b", VInt 2)] = ["a"; "b"].
Proof.
  assert (H : parse_entries (fun h => ret (as_dict h)) [("a", VInt 1); ("b", VInt 2)]
                new_world = (Ok [("a", VInt 1); ("b", VInt 2)], new_world))
    by reflexivity.
  split; [exact H|].
  apply (dict_parse_keeps_keys _ _ _ _ _ H).
  apply NoDup_cons. split.
  - intros Hin. apply list_elem_of_singleton in Hin. discriminate.
  - apply NoDup_cons. split; [apply not_elem_of_nil | apply NoDup_nil_2].
Defined.

(** ** After the merge: inference, localisation, affixes *)

(** X15. Explicit marks override the inference. When
    [_resolve_marked_for_delete] returns, no key that was explicitly kept is
    marked; every key that was explicitly deleted and not explicitly kept is
    marked; a marked key was explicitly deleted or is referenced by some
    field; and running the inference again changes nothing, so marks do not
    accumulate. *)
Theorem explicit_marks_override_inference (w w' : world) :
  _resolve_marked_for_delete w = (Ok tt, w') →
  (∀ name, name ∈ explicitly_kept (ctx w) → name ∉ marked_for_delete (ctx w'))
  ∧ (∀ name, name ∈ explicitly_deleted (ctx w) → name ∉ explicitly_kept (ctx w) →
             name ∈ marked_for_delete (ctx w'))
  ∧ (∀ name, name ∈ marked_for_delete (ctx w') →
             name ∈ explicitly_deleted (ctx w)
             ∨ referenced_as_field_source (field_props (ctx w)) name)
  ∧ _resolve_marked_for_delete w' = (Ok tt, w').
Proof.
  intros Hrun. destruct (marked_for_delete_spec _ _ Hrun) as [Hw Hspec].
  repeat split.
  - intros name Hk Hm. apply Hspec in Hm. tauto.
  - intros name Hd Hk. apply Hspec. tauto.
  - intros name Hm. apply Hspec in Hm. tauto.
  - rewrite resolve_marked_eq in *.
    destruct (compute_marks (field_props (ctx w)) _ _) as [marked|e] eqn:Hmarks;
      [|discriminate].
    injection Hrun as <-. simpl. rewrite Hmarks. reflexivity.
Qed.

Lemma explicit_marks_override_inference_witness :
  let w := (_yaml_parse_from_dict (machine []) doc_keep_flags DEFAULT_CONFIGS_FOLDER
              new_world).2 in
  let w' := (_resolve_marked_for_delete w).2 in
  _resolve_marked_for_delete w = (Ok tt, w')
  ∧ ("b" ∉ marked_for_delete (ctx w'))
  ∧ ("a" ∈ marked_for_delete (ctx w')).
Proof.
  intros w w'.
  assert (Hrun : _resolve_marked_for_delete w = (Ok tt, w')) by (vm_compute; reflexivity).
  destruct (explicit_marks_override_inference w w' Hrun) as (Hkept & Hdeleted & _).
  split; [exact Hrun|]. split.
  - apply Hkept. apply (bool_decide_unpack _). vm_compute. exact I.
  - apply Hdeleted; apply (bool_decide_unpack _); vm_compute; exact I.
Defined.

Lemma fold_add_referenced_raises (items : list (string * dict)) :
  ∀ acc e,
    fold_result add_referenced items acc = Raise e →
    e = TypeError
    ∧ ∃ item, item ∈ items ∧ hashable (default VNone (dict_get VALUE item.2)) = false.
Proof.
  induction items as [|item items IH]; intros acc e; simpl; [discriminate|].
  destruct (add_referenced acc item) as [acc'|e'] eqn:Hadd; simpl.
  - intros H. destruct (IH _ _ H) as (-> & it & Hin & Hit).
    split; [reflexivity|]. exists it. split; [right; exact Hin | exact Hit].
  - intros [= <-]. unfold add_referenced in Hadd.
    destruct (dict_get SOURCE item.2) as [source|]; [|discriminate].
    destruct (is_str source SOURCE_OPTIONS.VALUE_FROM_FIELD); [|discriminate].
    destruct (hashable (default VNone (dict_get VALUE item.2))) eqn:Hh; [discriminate|].
    injection Hadd as <-. split; [reflexivity|]. exists item. split; [left | exact Hh].
Qed.

Lemma fold_infer_mark_raises (props : gmap string dict) (referenced : list value) :
  ∀ acc e,
    fold_result (infer_mark props) referenced acc = Raise e →
    e = TypeError
    ∧ ∃ name prop, props !! name = Some prop
                   ∧ hashable (default VNone (dict_get SOURCE prop)) = false.
Proof.
  induction referenced as [|field referenced IH]; intros acc e; simpl; [discriminate|].
  destruct (infer_mark props acc field) as [acc'|e'] eqn:Hmark; simpl; [apply IH|].
  intros [= <-]. unfold infer_mark, PropSchema.default_keep_for_source in Hmark.
  destruct field as [| | | |name| | | |]; try discriminate.
  destruct (props !! name) as [prop|] eqn:Hprop; [|discriminate].
  destruct (hashable (default VNone (dict_get SOURCE prop))) eqn:Hh; [discriminate|].
  simpl in Hmark. injection Hmark as <-. split; [reflexivity|]. eauto.
Qed.

(** X16. The inference can only fail with TypeError, and then it leaves the
    context as it was. It does so only when some recorded descriptor has a
    "value" or a "source" that cannot be hashed (a list or a mapping), which
    no handler of the merge has rejected. *)
Theorem inference_fails_only_with_TypeError (w w' : world) (e : exn) :
  _resolve_marked_for_delete w = (Raise e, w') →
  e = TypeError
  ∧ w' = w
  ∧ ∃ key prop,
      field_props (ctx w) !! key = Some prop
      ∧ (hashable (default VNone (dict_get VALUE prop)) = false
         ∨ hashable (default VNone (dict_get SOURCE prop)) = false).
Proof.
  rewrite resolve_marked_eq. unfold compute_marks.
  destruct (fold_result add_referenced _ _) as [referenced|e1] eqn:Href; simpl.
  - destruct (fold_result (infer_mark _) _ _) as [marked|e2] eqn:Hmark; simpl;
      [discriminate|].
    intros [= <- <-].
    destruct (fold_infer_mark_raises _ _ _ _ Hmark) as (-> & name & prop & Hprop & Hh).
    repeat split. exists name, prop. auto.
  - intros [= <- <-].
    destruct (fold_add_referenced_raises _ _ _ Href) as (-> & [key prop] & Hin & Hh).
    repeat split. exists key, prop. split; [|left; exact Hh].
    apply elem_of_map_to_list. exact Hin.
Qed.

Lemma inference_fails_only_with_TypeError_witness :
  let w := (_yaml_parse_from_dict (machine [])
              [("x", VDict [("value", VList [VStr "a"]); ("source", VStr "field")])]
              DEFAULT_CONFIGS_FOLDER new_world).2 in
  _resolve_marked_for_delete w = (Raise TypeError, w)
  ∧ ∃ key prop,
      field_props (ctx w) !! key = Some prop
      ∧ (hashable (default VNone (dict_get VALUE prop)) = false
         ∨ hashable (default VNone (dict_get SOURCE prop)) = false).
Proof.
  intros w.
  assert (Hrun : _resolve_marked_for_delete w = (Raise TypeError, w))
    by (vm_compute; reflexivity).
  split; [exact Hrun|].
  exact (proj2 (proj2 (inference_fails_only_with_TypeError w w TypeError Hrun))).
Defined.

Lemma resolve_without_language_key (lang : string) :
  ∀ v, holds_key lang v = false → resolve lang v = v.
Proof.
  fix IH 1. intros v. destruct v as [| | | | |items|items|entries|payload intent];
    try reflexivity.
  - simpl. intros H. f_equal.
    revert items H. fix IHl 1. intros [|x items]; simpl; [reflexivity|].
    intros H. apply orb_false_elim in H as [Hx Hrest].
    rewrite (IH x Hx), (IHl items Hrest). reflexivity.
  - simpl. intros H. apply orb_false_elim in H as [Hmem Hrest].
    unfold dict_mem in Hmem. destruct (dict_get lang entries); [discriminate|].
    f_equal. clear Hmem.
    revert entries Hrest. fix IHl 1. intros [|[k x] entries]; simpl; [reflexivity|].
    intros H. apply orb_false_elim in H as [Hx Hrest].
    rewrite (IH x Hx), (IHl entries Hrest). reflexivity.
Qed.

(** X17. Localisation changes nothing where the language does not occur:
    when no mapping inside the values of the parameters and of the affix
    registry, at any depth, has the active language as a key, both are
    returned as they are. *)
Theorem localization_without_language_key (lang : string) (params_dict affix_dict : dict) :
  Forall (fun kv => holds_key lang kv.2 = false) params_dict →
  Forall (fun kv => holds_key lang kv.2 = false) affix_dict →
  apply_localization params_dict affix_dict lang = (params_dict, affix_dict).
Proof.
  assert (Hmap : ∀ d : dict, Forall (fun kv => holds_key lang kv.2 = false) d →
                   map (fun kv => (kv.1, resolve lang kv.2)) d = d).
  { induction 1 as [|[k v] d Hv _ IH]; [reflexivity|].
    simpl in *. rewrite (resolve_without_language_key lang v Hv), IH. reflexivity. }
  intros Hp Ha. unfold apply_localization. rewrite (Hmap _ Hp), (Hmap _ Ha). reflexivity.
Qed.

Lemma localization_without_language_key_witness :
  apply_localization [("title", VDict [("en", VStr "Hello"); ("pt", VStr "Ola")]);
                      ("sizes", VList [VInt 1; VInt 2])] [] "fr"
  = ([("title", VDict [("en", VStr "Hello"); ("pt", VStr "Ola")]);
      ("sizes", VList [VInt 1; VInt 2])], []).
Proof.
  apply localization_without_language_key; repeat constructor.
Defined.

(** X18. Affix composition touches nothing but the decorated keys: when
    [apply_affixes] returns, the parameters have the same keys in the same
    order, and every key that no registry entry unpacks to has the value it
    had. *)
Theorem apply_affixes_frame (ext : Externals) (affix_dict params result : dict) :
  apply_affixes ext params affix_dict = Ok result →
  dict_keys result = dict_keys params
  ∧ ∀ k, (∀ field a, field ∈ dict_keys affix_dict →
                     parse_affix_key ext field ≠ Some (k, a)) →
         dict_get k result = dict_get k params.
Proof.
  revert params result.
  induction affix_dict as [|entry rest IH]; intros params result; simpl.
  - intros [= <-]. auto.
  - destruct (apply_affix ext params entry) as [params'|e] eqn:Hone; [|intros [=]].
    simpl. intros Hrest. destruct (IH _ _ Hrest) as [Hkeys Hget]. clear IH Hrest.
    assert (Hstep : dict_keys params' = dict_keys params
                    ∧ ∀ k, (∀ a, parse_affix_key ext entry.1 ≠ Some (k, a)) →
                           dict_get k params' = dict_get k params).
    { unfold apply_affix, unpack_affix_key, dict_getitem in Hone.
      destruct (parse_affix_key ext entry.1) as [[key affix]|]; [|discriminate].
      simpl in Hone.
      assert (Hset : ∀ v, dict_get key params ≠ None →
                dict_keys (dict_set key v params) = dict_keys params
                ∧ ∀ k, (∀ a, Some (key, affix) ≠ Some (k, a)) →
                       dict_get k (dict_set key v params) = dict_get k params).
      { intros v Hsome. split.
        - rewrite dict_keys_set. unfold dict_mem.
          destruct (dict_get key params); [reflexivity | congruence].
        - intros k Hk. rewrite dict_get_set.
          destruct (String.eqb_spec k key) as [->|_]; [|reflexivity].
          exfalso. apply (Hk affix). reflexivity. }
      revert Hone.
      destruct (String.eqb affix SUFFIX); [|destruct (String.eqb affix PREFIX)];
        try (intros [=]; fail);
        (destruct (dict_get key params) as [old|] eqn:Hold; [|intros [=]]);
        simpl;
        match goal with
        | |- rbind ?r _ = _ → _ => destruct r; [|intros [=]]
        end; simpl; intros [= <-]; apply Hset; discriminate. }
    destruct Hstep as [Hkeys' Hget']. split; [congruence|].
    intros k Hk. rewrite Hget, Hget'; [reflexivity| |].
    + intros a. apply Hk. left.
    + intros field a Hin. apply Hk. right. exact Hin.
Qed.

Lemma apply_affixes_frame_witness :
  apply_affixes (machine []) [("name", VStr "Report"); ("title", VStr "t")]
    [("name__suffix__", VStr "_v2"); ("name__prefix__", VStr "The")]
  = Ok [("name", VStr "TheReport_v2"); ("title", VStr "t")]
  ∧ dict_keys [("name", VStr "TheReport_v2"); ("title", VStr "t")] = ["name"; "title"].
Proof.
  assert (H : apply_affixes (machine []) [("name", VStr "Report"); ("title", VStr "t")]
                [("name__suffix__", VStr "_v2"); ("name__prefix__", VStr "The")]
              = Ok [("name", VStr "TheReport_v2"); ("title", VStr "t")])
    by reflexivity.
  split; [exact H|].
  exact (proj1 (apply_affixes_frame (machine []) _ _ _ H)).
Defined.


(** ** Lists of files *)

Section Lists.
Variable ext : Externals.

(** X20. [_yaml_parse_list] at its edges: an argument that is not a list
    raises TypeError before anything is read, the empty list gives the empty
    mapping, and the list of one file is [_yaml_parse_single_file] of that
    file, result and context. *)
Theorem yaml_parse_list_edge_cases (folder : string) (w : world) :
  (∀ v, (∀ files, v ≠ VList files) →
        _yaml_parse_list ext v folder w = (Raise TypeError, w))
  ∧ _yaml_parse_list ext (VList []) folder w = (Ok [], w)
  ∧ (∀ file, _yaml_parse_list ext (VList [file]) folder w
             = _yaml_parse_single_file ext file folder w).
Proof.
  repeat split.
  - intros v Hv. destruct v; try reflexivity. exfalso. eapply Hv. reflexivity.
  - intros file. unfold _yaml_parse_list, _yaml_parse_single_file. cbn [fold_m].
    unfold bind, lift.
    destruct (_resolve_yaml_path ext file folder) as [entry_file|e]; [|reflexivity].
    destruct (_load_yaml ext entry_file) as [handle|e]; [|reflexivity].
    unfold _yaml_parse_from_dict_into, _yaml_parse_from_dict, fresh_target, ret.
    destruct (_dump_to_dict _ _ _ _ _ _) as [[scope|e] [sc w']]; reflexivity.
Qed.

(** X21. A list of files whose entries are written without descriptors is
    merged in the order of the list into one mapping: every file updates what
    the files before it gave, so a later file wins a key and a key keeps the
    position of its first appearance; no warning is issued. *)
Theorem file_list_merges_in_order (folder : string) (files : list value)
    (docs : list dict) (w : world) :
  recursion_limit ext ≠ 0%nat →
  Forall2 (loads_plain ext folder) files docs →
  _yaml_parse_list ext (VList files) folder w
  = (Ok (fold_left (fun merged doc => dict_update merged (ignore_configs doc)) docs []),
     fold_left (fun w doc => record_plain (ignore_configs doc) w) docs w).
Proof.
  intros Hfuel Hall. unfold _yaml_parse_list. generalize (@nil (string * value)).
  revert w. induction Hall as [|file doc files docs (path & Hres & Hload & Hplain) _ IH];
    intros w merged; [reflexivity|].
  cbn [fold_m fold_left]. unfold bind at 1. unfold bind at 1, lift at 1. rewrite Hres.
  unfold bind at 1, lift at 1. rewrite Hload.
  unfold _yaml_parse_from_dict_into at 1.
  destruct (recursion_limit ext) as [|fuel] eqn:Hlimit; [congruence|].
  rewrite (dump_to_dict_plain ext _ _ _ _ _ _ Hplain). cbn [snd].
  apply IH.
Qed.
End Lists.

Lemma file_list_merges_in_order_witness :
  (_yaml_parse_list (machine files_plain) (VList [VStr "inc.yaml"; VStr "more.yaml"])
     DEFAULT_CONFIGS_FOLDER new_world).1
  = Ok [("a", VInt 1); ("b", VStr "y"); ("c", VList [VInt 1])].
Proof.
  rewrite (file_list_merges_in_order (machine files_plain) DEFAULT_CONFIGS_FOLDER
             [VStr "inc.yaml"; VStr "more.yaml"]
             [[("a", VInt 1); ("b", VStr "x")]; [("b", VStr "y"); ("c", VList [VInt 1])]]
             new_world).
  - reflexivity.
  - discriminate.
  - repeat constructor.
    + exists "inc.yaml". repeat split; repeat constructor.
    + exists "more.yaml". repeat split; repeat constructor.
Defined.

(** ** Templates *)

Lemma dict_update_NoDup {A} (d e : list (string * A)) :
  NoDup (dict_keys d) → NoDup (dict_keys (dict_update d e)).
Proof.
  revert d. induction e as [|[k v] e IH]; intros d Hnd; [exact Hnd|].
  unfold dict_update in *. simpl. apply IH. apply dict_set_NoDup. exact Hnd.
Qed.

Lemma dict_get_update_absent {A} (k : string) (d e : list (string * A)) :
  dict_mem k e = false → dict_get k (dict_update d e) = dict_get k d.
Proof.
  revert d. induction e as [|[k1 v1] e IH]; intros d Hmem; [reflexivity|].
  unfold dict_update in *. cbn [fold_left fst snd].
  unfold dict_mem in Hmem. simpl in Hmem.
  destruct (String.eqb_spec k k1) as [->|Hne]; [discriminate|].
  rewrite IH by exact Hmem. rewrite dict_get_set.
  rewrite (proj2 (String.eqb_neq k k1)) by exact Hne. reflexivity.
Qed.

Section Templates.
Variable ext : Externals.

Lemma expand_config_NoDup (t : PSTemplate) (cfg : dict) (w w' : world) (merged : dict) :
  expand_config ext t cfg w = (Ok merged, w') → NoDup (dict_keys merged).
Proof.
  unfold expand_config, bind at 1.
  destruct (normalize_config cfg w) as [[cfg_norm|e] w1]; [|intros [=]].
  assert (Hgen : ∀ acc w1,
            NoDup (dict_keys acc) →
            fold_m cfg_norm acc (fun merged kp =>
              if String.eqb kp.1 YAML then
                fetched <- lift (fetch_value YAML kp.2 [] (base_yaml t)) ;;
                let files := match fetched.2 with VList _ => fetched.2 | v => VList [v] end in
                parsed <- _yaml_parse_list ext files (kw_configs_folder (_ps_kwargs t)) ;;
                ret (dict_update merged parsed)
              else ret (dict_set kp.1 kp.2 merged)) w1 = (Ok merged, w') →
            NoDup (dict_keys merged)).
  { clear w1. induction cfg_norm as [|[k p] cfg_norm IH]; intros acc w1 Hnd; cbn [fold_m].
    - intros [= <- _]. exact Hnd.
    - unfold bind at 1. cbn [fst snd]. destruct (String.eqb k YAML).
      + unfold bind at 1, lift at 1.
        destruct (fetch_value YAML p [] (base_yaml t)) as [fetched|e]; [|intros [=]].
        unfold bind at 1.
        destruct (_yaml_parse_list ext _ _ w1) as [[parsed|e] w2]; [|intros [=]].
        cbn [ret]. apply IH. apply dict_update_NoDup. exact Hnd.
      + cbn [ret]. apply IH. apply dict_set_NoDup. exact Hnd. }
  apply Hgen. apply NoDup_nil_2.
Qed.

(** X22. In a template the base document wins over the configuration: in
    the virtual document that [expand] builds for a configuration, a key of
    the base document carries the entry of the base document, and only the
    other keys carry what the configuration gave. *)
Theorem template_base_wins (t : PSTemplate) (cfg : dict) (w w' : world) (merged : dict)
    (k : string) :
  NoDup (dict_keys (base_yaml t)) →
  expand_config ext t cfg w = (Ok merged, w') →
  dict_get k (virtual_yaml_dict t (ctx w', merged))
  = match dict_get k (base_yaml t) with
    | Some v => Some v
    | None => dict_get k merged
    end.
Proof.
  intros Hbase Hrun. apply expand_config_NoDup in Hrun.
  unfold virtual_yaml_dict. cbn [snd].
  rewrite dict_get_update by exact Hbase.
  destruct (dict_get k (base_yaml t)); [reflexivity|].
  rewrite dict_get_update by exact Hrun.
  destruct (dict_get k merged); reflexivity.
Qed.

(** X23. The language of an expanded style comes from the virtual document
    alone. Without a "language" entry it is the default "en"; a plain
    "language" entry of a configuration is read through its normalised
    descriptor; a "language" entry of the base document that is not a mapping
    makes the item raise AttributeError, because base entries reach
    [fetch_value] as they were written; and the language keyword of the
    template is never used. *)
Theorem template_language (t t' : PSTemplate) (p : payload) :
  NoDup (dict_keys (base_yaml t)) →
  NoDup (dict_keys p.2) →
  (dict_get LANGUAGE (base_yaml t) = None → dict_get LANGUAGE p.2 = None →
   ∃ c, expand_call t p = Ok c ∧ call_language c = VStr LANGUAGE_OPTIONS.DEFAULT)
  ∧ (∀ v, dict_get LANGUAGE (base_yaml t) = None →
          dict_get LANGUAGE p.2 = Some (VDict (_as_implicit v)) →
          ∃ c, expand_call t p = Ok c ∧ call_language c = v)
  ∧ (∀ v, dict_get LANGUAGE (base_yaml t) = Some v → is_dict v = false →
          expand_call t p = Raise AttributeError)
  ∧ (base_yaml t' = base_yaml t →
     kw_configs_folder (_ps_kwargs t') = kw_configs_folder (_ps_kwargs t) →
     kw_base_folder (_ps_kwargs t') = kw_base_folder (_ps_kwargs t) →
     kw_keep_all_fields (_ps_kwargs t') = kw_keep_all_fields (_ps_kwargs t) →
     expand_call t' p = expand_call t p).
Proof.
  intros Hbase Hp.
  assert (Hget : dict_get LANGUAGE (virtual_yaml_dict t p)
                 = match dict_get LANGUAGE (base_yaml t) with
                   | Some v => Some v
                   | None => dict_get LANGUAGE p.2
                   end).
  { unfold virtual_yaml_dict. rewrite dict_get_update by exact Hbase.
    destruct (dict_get LANGUAGE (base_yaml t)); [reflexivity|].
    rewrite dict_get_update by exact Hp. destruct (dict_get LANGUAGE p.2); reflexivity. }
  repeat split.
  - intros Hb Hc. unfold expand_call. rewrite Hget, Hb, Hc. eexists. split; reflexivity.
  - intros v Hb Hc. unfold expand_call. rewrite Hget, Hb, Hc. eexists. split; reflexivity.
  - intros v Hb Hv. unfold expand_call. rewrite Hget, Hb.
    destruct v; try reflexivity. discriminate.
  - intros H1 H2 H3 H4. unfold expand_call, virtual_yaml_dict. rewrite H1, H2, H3, H4.
    reflexivity.
Qed.

Lemma normalize_config_bad_entry (cfg : dict) :
  Exists (fun kv => normalizes kv.2 = false) cfg →
  ∀ acc w, ∃ w', fold_m cfg acc (fun cfg_norm kv =>
                   prop <- normalize_prop kv.1 kv.2 ;;
                   ret (dict_set kv.1 (VDict prop) cfg_norm)) w = (Raise ValueError, w').
Proof.
  induction cfg as [|[k v] cfg IH]; intros Hex acc w; [inversion Hex|].
  cbn [fold_m]. unfold bind at 1. unfold bind at 1. cbn [fst snd].
  destruct (normalizes v) eqn:Hn.
  - destruct (normalize_prop_returns k v Hn w) as (prop & w1 & -> & _). cbn [ret].
    apply IH. inversion Hex as [? ? Hbad|]; subst; [simpl in Hbad; congruence | assumption].
  - rewrite (normalize_prop_raises k v w Hn). eauto.
Qed.

(** X24. The expansion of a template is not isolated: when an entry of any
    configuration cannot be normalised, the work that [expand] does before
    its first item raises, and no style is produced, for the other
    configurations either. *)
Theorem template_expansion_is_not_isolated (t : PSTemplate) (log : list warning) :
  Exists (fun cfg => Exists (fun kv => normalizes kv.2 = false) cfg) (configs t) →
  is_ok (expand_payloads ext t log).1 = false.
Proof.
  unfold expand_payloads.
  assert (Hgen : ∀ cfgs (payloads : list payload) log,
            Exists (fun cfg => Exists (fun kv => normalizes kv.2 = false) cfg) cfgs →
            is_ok (fold_m cfgs payloads (fun payloads cfg => fun log =>
                     match expand_config ext t cfg (mkWorld new_ParseContext log) with
                     | (Ok merged, w) => (Ok (payloads ++ [(ctx w, merged)]), warned w)
                     | (Raise e, w) => (Raise e, warned w)
                     end) log).1 = false).
  { clear log. induction cfgs as [|cfg cfgs IH]; intros payloads log Hex; [inversion Hex|].
    cbn [fold_m]. unfold bind at 1.
    destruct (expand_config ext t cfg (mkWorld new_ParseContext log))
      as [[merged|e] w1] eqn:Hrun; [|reflexivity].
    inversion Hex as [? ? Hbad|]; subst; [|apply IH; assumption].
    exfalso. unfold expand_config, bind at 1, normalize_config in Hrun.
    destruct (normalize_config_bad_entry cfg Hbad [] (mkWorld new_ParseContext log))
      as [w' Hraise].
    rewrite Hraise in Hrun. discriminate. }
  apply Hgen.
Qed.

(** ** The entry point *)

(** X25. The outcomes of [load_plotstyle] once its arguments pass
    validation. Without a file it builds nothing and returns None, also when
    [yaml_dict] is given. With a file that is found and loads, a document
    without the key "configs" raises KeyError and no style is built; a
    document whose "configs" is not null gives what [PSTemplate.__init__]
    gives for the document without that key, and the base document of the
    template has no "configs". *)
Theorem load_plotstyle_outcomes (yaml_dict file : value) (opts : Options) (w : world) :
  (PlotStyle_input_validate ext yaml_dict file opts new_world).1 = Ok tt →
  (file = VNone → load_plotstyle ext yaml_dict file opts w = (Ok LoadedNone, w))
  ∧ (∀ path document,
       file ≠ VNone →
       _resolve_yaml_path ext file (folder_name (configs_folder opts)) = Ok path →
       _load_yaml ext path = Ok document →
       (dict_get CONFIGS document = None →
        load_plotstyle ext yaml_dict file opts w = (Raise KeyError, w))
       ∧ (∀ configs, dict_get CONFIGS document = Some configs → configs ≠ VNone →
            load_plotstyle ext yaml_dict file opts w
            = (rbind (PSTemplate_init (VDict (ignore_configs document)) configs
                        (template_kwargs opts))
                 (fun t => Ok (LoadedTemplate t)), w)
            ∧ ∀ t, PSTemplate_init (VDict (ignore_configs document)) configs
                     (template_kwargs opts) = Ok t →
                   dict_mem CONFIGS (base_yaml t) = false)).
Proof.
  intros Hvalid.
  assert (Hstart : ∀ k : M world loaded,
            (PlotStyle_input_validate ext yaml_dict file opts ;; k) w = k w).
  { intros k. unfold bind.
    rewrite (stateless_input_validate ext yaml_dict file opts w), Hvalid. reflexivity. }
  split.
  { intros ->. unfold load_plotstyle. rewrite Hstart. reflexivity. }
  intros path document Hfile Hres Hload. split.
  - intros Hnone. unfold load_plotstyle. rewrite Hstart.
    destruct file; try congruence;
      unfold bind, lift, pop_configs, dict_getitem; rewrite Hres, Hload, Hnone; reflexivity.
  - intros configs Hsome Hne. split.
    + unfold load_plotstyle. rewrite Hstart.
      destruct file; try congruence;
        unfold bind, lift, pop_configs, dict_getitem; rewrite Hres, Hload, Hsome;
        (destruct configs; try congruence;
         destruct (PSTemplate_init _ _ _); reflexivity).
    + intros t. unfold PSTemplate_init.
      destruct (match configs with VList items => Ok items | VDict _ => Ok [configs]
                | _ => Raise TypeError end) as [items|e]; [|intros [=]].
      simpl. destruct (negb (forallb is_dict items)); [intros [=]|].
      intros [= <-]. simpl. apply dict_mem_ignore_configs.
Qed.
End Templates.

Lemma template_base_wins_witness :
  expand_config (machine []) template_override [("a", VInt 2); ("b", VInt 3)] new_world
  = (Ok [("a", VDict (_as_implicit (VInt 2))); ("b", VDict (_as_implicit (VInt 3)))],
     new_world)
  ∧ dict_get "a" (virtual_yaml_dict template_override
                    (new_ParseContext,
                     [("a", VDict (_as_implicit (VInt 2)));
                      ("b", VDict (_as_implicit (VInt 3)))]))
    = Some (VInt 1).
Proof.
  assert (H : expand_config (machine []) template_override
                [("a", VInt 2); ("b", VInt 3)] new_world
              = (Ok [("a", VDict (_as_implicit (VInt 2)));
                     ("b", VDict (_as_implicit (VInt 3)))], new_world))
    by reflexivity.
  split; [exact H|].
  exact (template_base_wins (machine []) template_override _ new_world new_world _ "a"
           ltac:(apply NoDup_cons; split; [apply not_elem_of_nil | apply NoDup_nil_2]) H).
Defined.

Lemma template_language_witness :
  ∃ c, expand_call template_override
         (new_ParseContext, [("b", VDict (_as_implicit (VInt 3)))]) = Ok c
       ∧ call_language c = VStr "en".
Proof.
  exact (proj1 (template_language template_override template_override
                  (new_ParseContext, [("b", VDict (_as_implicit (VInt 3)))])
                  ltac:(apply NoDup_cons; split;
                        [apply not_elem_of_nil | apply NoDup_nil_2])
                  ltac:(apply NoDup_cons; split;
                        [apply not_elem_of_nil | apply NoDup_nil_2]))
           eq_refl eq_refl).
Defined.

Lemma template_expansion_is_not_isolated_witness :
  is_ok (expand_payloads (machine []) template_bad_entry []).1 = false.
Proof.
  apply template_expansion_is_not_isolated.
  apply Exists_cons_tl, Exists_cons_hd, Exists_cons_hd. reflexivity.
Defined.

Lemma load_plotstyle_outcomes_witness :
  load_plotstyle (machine files_plain) VNone (VStr "inc.yaml") default_options new_world
  = (Raise KeyError, new_world).
Proof.
  apply (proj1 (proj2 (load_plotstyle_outcomes (machine files_plain) VNone
                         (VStr "inc.yaml") default_options new_world
                         ltac:(vm_compute; reflexivity))
                  "inc.yaml" [("a", VInt 1); ("b", VStr "x")]
                  ltac:(discriminate) ltac:(vm_compute; reflexivity)
                  ltac:(vm_compute; reflexivity))).
  reflexivity.
Defined.

(** ** Saving *)

Lemma str_lstrip_head (c : ascii) (s : string) :
  ∀ rest, str_lstrip c s ≠ String c rest.
Proof.
  induction s as [|c' s IH]; intros rest; simpl; [discriminate|].
  destruct (Ascii.eqb_spec c' c) as [->|Hne]; [apply IH|]. congruence.
Qed.

Lemma ascii_lower_dot (c : ascii) : ascii_lower c = "."%char → c = "."%char.
Proof.
  destruct c as [[] [] [] [] [] [] [] []]; vm_compute; intros H;
    first [reflexivity | discriminate H].
Qed.

(** X26. [compose_savefig_options]: the format it returns never starts with
    a dot, it is the extension of the file name whenever the name has one
    (the format argument is then ignored), in lower case, and the file name it
    returns is the given name with a dot and that format appended, also when
    the name ends in that extension already. *)
Theorem compose_savefig_options_shape (ext : Externals) (fname format : string)
    (kwargs : dict) :
  dict_mem "fname" kwargs = false →
  dict_mem "format" kwargs = false →
  ∃ fmt,
    dict_get "format" (compose_savefig_options ext fname format kwargs) = Some (VStr fmt)
    ∧ dict_get "fname" (compose_savefig_options ext fname format kwargs)
      = Some (VStr (fname +:+ "." +:+ fmt))
    ∧ (∀ rest, fmt ≠ String "." rest)
    ∧ fmt = str_map ascii_lower
              (str_lstrip "." (if String.eqb (os_path_splitext ext fname).2 ""
                               then format else (os_path_splitext ext fname).2)).
Proof.
  intros Hfname Hformat. unfold compose_savefig_options.
  exists (str_map ascii_lower
            (str_lstrip "." (if negb (String.eqb (os_path_splitext ext fname).2 "")
                             then (os_path_splitext ext fname).2 else format))).
  repeat split.
  - rewrite dict_get_update_absent by exact Hformat. reflexivity.
  - rewrite dict_get_update_absent by exact Hfname. reflexivity.
  - intros rest.
    destruct (negb _); simpl;
      match goal with
      | |- str_map _ (str_lstrip _ ?s) ≠ _ =>
          pose proof (str_lstrip_head "." s) as Hhead;
          destruct (str_lstrip "." s) as [|c s']; simpl; [discriminate|];
          intros [= Hc _]; apply ascii_lower_dot in Hc; subst c; eapply Hhead; reflexivity
      end.
  - destruct (String.eqb _ ""); reflexivity.
Qed.

Lemma compose_savefig_options_shape_witness :
  ∃ fmt,
    dict_get "format" (compose_savefig_options (machine []) "plot" "..PNG" [("dpi", VInt 300)])
    = Some (VStr fmt)
    ∧ dict_get "fname" (compose_savefig_options (machine []) "plot" "..PNG" [("dpi", VInt 300)])
      = Some (VStr ("plot" +:+ "." +:+ fmt))
    ∧ (∀ rest, fmt ≠ String "." rest)
    ∧ fmt = "png".
Proof.
  exact (compose_savefig_options_shape (machine []) "plot" "..PNG" [("dpi", VInt 300)]
           eq_refl eq_refl).
Defined.

(** Outside ASCII: the format E-acute P S (code points 201, 80, 83) comes back
    as e-acute p s (233, 112, 115), and a name that is a no-break space is no
    folder name. *)
Example latin1_letters_and_spaces :
  dict_get "format"
    (compose_savefig_options (machine []) "plot" (String (ascii_of_nat 201) "PS") [])
  = Some (VStr (String (ascii_of_nat 233) "ps"))
  ∧ pathstr_ok (machine []) (VStr (String (ascii_of_nat 160) EmptyString)) = false
  ∧ pathstr_ok (machine []) (VStr (String (ascii_of_nat 133) EmptyString)) = false.
Proof. repeat split; vm_compute; reflexivity. Qed.

(** ** The constructor at its edges *)

Lemma finish_file_stack (ext : Externals) (opts : Options) (p : option dict) (d : world) :
  file_stack (ctx (PlotStyle_finish ext opts p d).2) = file_stack (ctx d).
Proof.
  unfold PlotStyle_finish, bind. rewrite resolve_marked_eq.
  destruct (compute_marks _ _ _) as [marked|e]; [|reflexivity].
  destruct p as [params|]; [|reflexivity].
  unfold gets, modify, lift. cbn [fst snd].
  destruct (apply_affixes _ _ _); [|reflexivity].
  destruct (negb (keep_all_fields opts)); reflexivity.
Qed.

Lemma str_app_assoc (a b c : string) : (a +:+ b) +:+ c = a +:+ (b +:+ c).
Proof.
  induction a as [|x a IH]; [reflexivity|].
  change (String x ((a +:+ b) +:+ c) = String x (a +:+ (b +:+ c))). rewrite IH. reflexivity.
Qed.

Section Construction.
Variable ext : Externals.

Lemma local_parse_entry_file (yaml_file : value) (opts : Options) (w : world) :
  wlocal w
    (entry <- match yaml_file with
              | VStr name =>
                  if negb (os_path_isabs ext name)
                  then r <- lift (_resolve_yaml_path ext yaml_file
                                    (folder_name (configs_folder opts))) ;;
                       ret (VStr r)
                  else ret yaml_file
              | _ => raise TypeError
              end ;;
     p <- _yaml_parse_single_file ext entry (folder_name (configs_folder opts)) ;;
     ret (Some p)).
Proof.
  apply local_bind.
  { destruct yaml_file; try apply local_raise.
    destruct (negb _); [|apply local_ret].
    apply local_bind; [apply local_lift | intros; apply local_ret]. }
  intros entry _. apply local_bind; [|intros; apply local_ret].
  apply local_yaml_parse_single_file.
Qed.

(** X27. A construction from a file leaves the file on the file stack. The
    name is pushed before the file is resolved (line 268) and nothing pops
    it: whether the construction returns or raises, the stack it started
    from, followed by the name as it was given, is a prefix of the stack it
    leaves. *)
Theorem top_level_file_stays_on_file_stack (yaml_file : value) (opts : Options)
    (w : world) :
  yaml_file ≠ VNone →
  (PlotStyle_input_validate ext VNone yaml_file opts new_world).1 = Ok tt →
  (file_stack (ctx w) ++ [yaml_file])
    `prefix_of` file_stack (ctx (PlotStyle_init ext VNone yaml_file opts w).2).
Proof.
  intros Hfile Hvalid. unfold PlotStyle_init, bind at 1.
  rewrite (stateless_input_validate ext VNone yaml_file opts w), Hvalid. cbn [fst snd].
  assert (Hload : (file_stack (ctx w) ++ [yaml_file])
                    `prefix_of` file_stack
                      (ctx (PlotStyle_load_params ext VNone yaml_file opts w).2)).
  { assert (Heq : PlotStyle_load_params ext VNone yaml_file opts
                   = (file_stack_append yaml_file ;;
                      entry <- match yaml_file with
                               | VStr name =>
                                   if negb (os_path_isabs ext name)
                                   then r <- lift (_resolve_yaml_path ext yaml_file
                                                     (folder_name (configs_folder opts))) ;;
                                        ret (VStr r)
                                   else ret yaml_file
                               | _ => raise TypeError
                               end ;;
                      p <- _yaml_parse_single_file ext entry
                             (folder_name (configs_folder opts)) ;;
                      ret (Some p)))
      by (destruct yaml_file; [congruence | reflexivity..]).
    rewrite Heq. unfold bind at 1, file_stack_append, modify.
    rewrite (wlocal_from_new _ _ (local_parse_entry_file yaml_file opts new_world)).
    cbn [fst snd merge ctx merge_ctx file_stack with_ctx set_file_stack].
    apply prefix_app_r. reflexivity. }
  unfold bind.
  destruct (PlotStyle_load_params ext VNone yaml_file opts w) as [[p|e] d];
    cbn [fst snd] in *; [|exact Hload].
  pose proof (finish_file_stack ext opts p d) as Hfin.
  destruct (PlotStyle_finish ext opts p d) as [[a|e] d']; cbn [fst snd] in *;
    [|rewrite Hfin; exact Hload].
  unfold lift. destruct (PlotStyle_set_attributes a) as [[]|e];
    cbn [fst snd ret]; rewrite Hfin; exact Hload.
Qed.

(** X28. A construction that is given neither a document nor a file never
    returns: [__params__] is not set, and reading it after the inference
    raises AttributeError; from a new context that is the exception of the
    constructor. *)
Theorem construction_without_document_raises (opts : Options) (w : world) :
  (PlotStyle_input_validate ext VNone VNone opts new_world).1 = Ok tt →
  is_ok (PlotStyle_init ext VNone VNone opts w).1 = false
  ∧ (PlotStyle_init ext VNone VNone opts new_world).1 = Raise AttributeError.
Proof.
  intros Hvalid. split.
  - unfold PlotStyle_init, bind.
    rewrite (stateless_input_validate ext VNone VNone opts w), Hvalid.
    cbn [PlotStyle_load_params ret fst snd]. unfold PlotStyle_finish, bind.
    destruct (_resolve_marked_for_delete w) as [[[]|e] w1]; reflexivity.
  - unfold PlotStyle_init, bind.
    rewrite (stateless_input_validate ext VNone VNone opts new_world), Hvalid.
    reflexivity.
Qed.

(** X29. A prefix and a suffix on a text value compose to prefix, value,
    suffix, in whichever order the two were registered, and nothing else in
    the parameters changes. *)
Theorem prefix_and_suffix_commute (params : dict) (key field_p field_s a s b : string) :
  parse_affix_key ext field_p = Some (key, PREFIX) →
  parse_affix_key ext field_s = Some (key, SUFFIX) →
  dict_get key params = Some (VStr s) →
  apply_affixes ext params [(field_p, VStr a); (field_s, VStr b)]
  = Ok (dict_set key (VStr (a +:+ s +:+ b)) params)
  ∧ apply_affixes ext params [(field_s, VStr b); (field_p, VStr a)]
    = Ok (dict_set key (VStr (a +:+ s +:+ b)) params).
Proof.
  intros Hp Hs Hget.
  assert (Hset : ∀ x, dict_get key (dict_set key (VStr x) params) = Some (VStr x)).
  { intros x. rewrite dict_get_set, String.eqb_refl. reflexivity. }
  split; cbn [apply_affixes]; unfold apply_affix, unpack_affix_key, dict_getitem;
    cbn [fst snd]; rewrite ?Hp, ?Hs; cbn [rbind fst snd];
    change (String.eqb PREFIX SUFFIX) with false;
    rewrite ?String.eqb_refl; cbv iota; rewrite Hget; cbn [rbind py_add];
    rewrite ?Hp, ?Hs; cbn [rbind fst snd];
    change (String.eqb PREFIX SUFFIX) with false;
    rewrite ?String.eqb_refl; cbv iota; rewrite Hset; cbn [rbind py_add];
    rewrite dict_set_set_same.
  - rewrite str_app_assoc. reflexivity.
  - reflexivity.
Qed.
End Construction.

Lemma top_level_file_stays_on_file_stack_witness :
  [VStr "inc.yaml"]
    `prefix_of` file_stack
      (ctx (PlotStyle_init (machine files_plain) VNone (VStr "inc.yaml") default_options
              new_world).2).
Proof.
  apply (top_level_file_stays_on_file_stack (machine files_plain) (VStr "inc.yaml")
           default_options new_world).
  - discriminate.
  - vm_compute. reflexivity.
Defined.

Lemma construction_without_document_raises_witness :
  is_ok (PlotStyle_init (machine []) VNone VNone default_options new_world).1 = false
  ∧ (PlotStyle_init (machine []) VNone VNone default_options new_world).1
    = Raise AttributeError.
Proof.
  apply (construction_without_document_raises (machine []) default_options new_world).
  vm_compute. reflexivity.
Defined.

(** Line 280 at work: the document resolves, and the construction raises when
    the object does not take a key as an attribute; a mapping under
    "__dict__" is taken. *)
Example attribute_names_that_abort :
  (PlotStyle_init (machine []) (VDict [("a", VInt 1); ("__class__", VInt 1)]) VNone
     default_options new_world).1 = Raise TypeError
  ∧ (PlotStyle_init (machine []) (VDict [("__dict__", VInt 1)]) VNone
       default_options new_world).1 = Raise TypeError
  ∧ (PlotStyle_init (machine []) (VDict [("__weakref__", VNone)]) VNone
       default_options new_world).1 = Raise AttributeError
  ∧ (PlotStyle_init (machine []) (VDict [("__dict__", VDict [("a", VInt 1)])]) VNone
       default_options new_world).1 = Ok [("__dict__", VDict [("a", VInt 1)])]
  ∧ (_yaml_parse_from_dict (machine []) [("a", VInt 1); ("__class__", VInt 1)]
       DEFAULT_CONFIGS_FOLDER new_world).1 = Ok [("a", VInt 1); ("__class__", VInt 1)].
Proof. repeat split; vm_compute; reflexivity. Qed.

Lemma prefix_and_suffix_commute_witness :
  apply_affixes (machine []) [("name", VStr "Report")]
    [("name__prefix__", VStr "The"); ("name__suffix__", VStr "_v2")]
  = Ok [("name", VStr "TheReport_v2")]
  ∧ apply_affixes (machine []) [("name", VStr "Report")]
      [("name__suffix__", VStr "_v2"); ("name__prefix__", VStr "The")]
    = Ok [("name", VStr "TheReport_v2")].
Proof.
  exact (prefix_and_suffix_commute (machine []) [("name", VStr "Report")] "name"
           "name__prefix__" "name__suffix__" "The" "Report" "_v2"
           eq_refl eq_refl eq_refl).
Defined.
